(** * Market-data ingestion and bar aggregation

    A shallow embedding of the ingestion pipeline of the repository
    (connectors, normalizers and the bar aggregator), of the clients built
    on it and of the Lighter broker, together with the properties that its
    specification states about it and further properties of the code.

    Layout: the definitions follow the source modules
    ([data/types.py], [data/connectors/types.py],
    [data/normalizers/bars.py], [data/connectors/binance.py],
    [data/connectors/binance_futures.py], [data/normalizers/binance.py],
    [data/normalizers/binance_futures.py], [clients/binance.py],
    [clients/binance_futures.py], [execution/types.py],
    [execution/brokers/lighter.py]); the theorems come afterwards. *)

From Stdlib Require Import ZArith QArith Qpower Qround Qabs Lqa Lia Bool Ascii String.
From Stdlib Require Import DecimalString DecimalN DecimalFacts.
From Stdlib Require Qcanon.
From stdpp Require Import gmap strings list fin_maps sorting.

Set Warnings "-register-all".
Local Open Scope string_scope.
Local Open Scope list_scope.
Local Open Scope Z_scope.

(* ===================================================================== *)
(** ** Exceptions and results                                             *)
(* ===================================================================== *)

(** The Python exceptions that the modelled code can raise.
    [SpecialValue] is not an exception of Python: it marks the one
    behaviour that this development does not follow, the construction of a
    special decimal value (an infinity or a NaN), see [Decimal_of_str]. *)
Inductive Exn : Type :=
  | KeyError (key : string)
  | IndexError
  | TypeError
  | ValueError
  | InvalidOperation
  | HTTPStatusError
  | SpecialValue.

(** A computation either returns a value or raises. *)
Inductive Result (A : Type) : Type :=
  | Ok (a : A)
  | Raise (e : Exn).
Arguments Ok {A} a.
Arguments Raise {A} e.

Definition bind {A B : Type} (m : Result A) (k : A -> Result B) : Result B :=
  match m with
  | Ok a => k a
  | Raise e => Raise e
  end.

Notation "'let*' x ':=' m 'in' k" := (bind m (fun x => k))
  (at level 10, x name, m at level 100, k at level 200).


(** ** Decoded JSON values

    What [json.loads] returns for the payloads of the exchange: [None],
    booleans, integers, strings and objects (dictionaries with string
    keys).  Numbers with a fraction, which would decode to binary floats,
    do not occur in these payloads (decimal quantities travel as text) and
    are not part of the model; the arrays of a kline response appear as
    lists at the places where the code indexes them. *)
Inductive Any : Type :=
  | ANone
  | ABool (b : bool)
  | AInt (z : Z)
  | AStr (s : string)
  | ADict (d : gmap string Any).

(** [row[i]] on a list. *)
Definition list_getitem (row : list Any) (i : nat) : Result Any :=
  match row !! i with
  | Some x => Ok x
  | None => Raise IndexError
  end.

(** [row[key]] on a dictionary. *)
Definition dict_getitem (row : gmap string Any) (key : string) : Result Any :=
  match row !! key with
  | Some x => Ok x
  | None => Raise (KeyError key)
  end.

(** [row.get(key, default)]. *)
Definition dict_get (row : gmap string Any) (key : string) (default : Any) : Any :=
  match row !! key with
  | Some x => x
  | None => default
  end.

(** [x[key]] on a value of unknown type with a string key: only a
    dictionary can be subscripted this way. *)
Definition getitem (x : Any) (key : string) : Result Any :=
  match x with
  | ADict d => dict_getitem d key
  | _ => Raise TypeError
  end.

(** Truth value of a Python object, as tested by [if x:]. *)
Definition truthy (x : Any) : bool :=
  match x with
  | ANone => false
  | ABool b => b
  | AInt z => negb (z =? 0)
  | AStr s => negb (String.eqb s "")
  | ADict d => negb (Nat.eqb (size d) 0)
  end.

(* ===================================================================== *)
(** ** Decimal values                                                     *)
(* ===================================================================== *)

(** A finite [decimal.Decimal]: sign, coefficient and exponent, as the
    standard library stores them; the number denoted is
    [(-1)^sign * coefficient * 10^exponent].  The operations below give
    the exact results, that is, the results of Python's arithmetic as long
    as the coefficients stay within the context precision. *)
Record Decimal : Type := mkDecimal {
  d_sign : bool;
  d_int : N;
  d_exp : Z
}.

Definition signed (d : Decimal) : Z :=
  if d_sign d then - Z.of_N (d_int d) else Z.of_N (d_int d).

Definition of_signed (z : Z) (e : Z) : Decimal :=
  mkDecimal (z <? 0) (Z.to_N (Z.abs z)) e.

(** [Decimal(n)] for an integer [n]. *)
Definition Decimal_of_int (n : Z) : Decimal := of_signed n 0.

(** The coefficient rescaled to the exponent [e <= d_exp d]. *)
Definition aligned (d : Decimal) (e : Z) : Z := signed d * 10 ^ (d_exp d - e).

Definition Dadd (a b : Decimal) : Decimal :=
  let e := Z.min (d_exp a) (d_exp b) in
  if (d_int a =? 0)%N && (d_int b =? 0)%N
  then mkDecimal (d_sign a && d_sign b) 0 e
  else of_signed (aligned a e + aligned b e) e.

Definition Dmul (a b : Decimal) : Decimal :=
  mkDecimal (xorb (d_sign a) (d_sign b)) (d_int a * d_int b) (d_exp a + d_exp b).

(** Comparisons are by numeric value. *)
Definition Dleb (a b : Decimal) : bool :=
  let e := Z.min (d_exp a) (d_exp b) in aligned a e <=? aligned b e.

Definition Dltb (a b : Decimal) : bool :=
  let e := Z.min (d_exp a) (d_exp b) in aligned a e <? aligned b e.

(** [a >= b] and [a > b]. *)
Definition Dgeb (a b : Decimal) : bool := Dleb b a.
Definition Dgtb (a b : Decimal) : bool := Dltb b a.

(** The rational number a decimal denotes (used in statements only). *)
Definition Dval (d : Decimal) : Q := inject_Z (signed d) * Qpower 10 (d_exp d).

(** [max(iterable)] and [min(iterable)] once the first item is known: the
    current extremum is replaced only by a strictly larger (smaller) item. *)
Fixpoint max_from (cur : Decimal) (l : list Decimal) : Decimal :=
  match l with
  | [] => cur
  | x :: r => max_from (if Dgtb x cur then x else cur) r
  end.

Fixpoint min_from (cur : Decimal) (l : list Decimal) : Decimal :=
  match l with
  | [] => cur
  | x :: r => min_from (if Dltb x cur then x else cur) r
  end.

(** [sum(iterable, start)]. *)
Definition py_sum (l : list Decimal) (start : Decimal) : Decimal :=
  fold_left Dadd l start.

(* ===================================================================== *)
(** ** Texts: [int(text)], [Decimal(text)] and [str(decimal)]             *)
(* ===================================================================== *)

(** Texts are ASCII strings. *)
Definition is_digit (c : ascii) : bool :=
  (48 <=? nat_of_ascii c)%nat && (nat_of_ascii c <=? 57)%nat.

(** The ASCII characters that [str.strip] removes. *)
Definition is_space (c : ascii) : bool :=
  let n := nat_of_ascii c in
  ((9 <=? n)%nat && (n <=? 13)%nat) || ((28 <=? n)%nat && (n <=? 32)%nat).

Fixpoint lstrip (s : string) : string :=
  match s with
  | String c r => if is_space c then lstrip r else s
  | EmptyString => EmptyString
  end.

Fixpoint rstrip (s : string) : string :=
  match s with
  | String c r =>
      match rstrip r with
      | EmptyString => if is_space c then EmptyString else String c EmptyString
      | r' => String c r'
      end
  | EmptyString => EmptyString
  end.

Definition strip (s : string) : string := rstrip (lstrip s).

(** [s.replace("_", "")]. *)
Fixpoint remove_underscores (s : string) : string :=
  match s with
  | String c r =>
      if Ascii.eqb c "_" then remove_underscores r
      else String c (remove_underscores r)
  | EmptyString => EmptyString
  end.

(** The longest prefix of digits, and what follows it. *)
Fixpoint span_digits (s : string) : string * string :=
  match s with
  | String c r =>
      if is_digit c then let '(d, rest) := span_digits r in (String c d, rest)
      else (EmptyString, s)
  | EmptyString => (EmptyString, EmptyString)
  end.

(** [int(digits)] for a string of digits, and [str(n)] for a natural
    number. *)
Definition N_of_digits (s : string) : N :=
  match NilEmpty.uint_of_string s with
  | Some u => N.of_uint u
  | None => 0%N
  end.

Definition digits_of_N (n : N) : string := NilZero.string_of_uint (N.to_uint n).

Definition split_sign (s : string) : bool * string :=
  match s with
  | String "-" r => (true, r)
  | String "+" r => (false, r)
  | _ => (false, s)
  end.

Definition lower (c : ascii) : ascii :=
  let n := nat_of_ascii c in
  if (65 <=? n)%nat && (n <=? 90)%nat then ascii_of_nat (n + 32) else c.

Fixpoint lower_string (s : string) : string :=
  match s with
  | String c r => String (lower c) (lower_string r)
  | EmptyString => EmptyString
  end.

Definition all_digits (s : string) : bool :=
  match span_digits s with
  | (_, EmptyString) => true
  | _ => false
  end.

(** The spellings, after the sign, of the special values: [Inf],
    [Infinity], [NaN] and [sNaN] with an optional diagnostic number, in any
    letter case. *)
Definition is_special (s : string) : bool :=
  let l := lower_string s in
  if String.eqb l "inf" || String.eqb l "infinity" then true
  else if String.prefix "nan" l
       then all_digits (substring 3 (String.length l - 3) l)
  else if String.prefix "snan" l
       then all_digits (substring 4 (String.length l - 4) l)
  else false.

(** The optional exponent part [E[+-]digits] that must end the text. *)
Definition parse_exponent (s : string) : option Z :=
  match s with
  | EmptyString => Some 0
  | String c r =>
      if Ascii.eqb (lower c) "e" then
        let '(neg, r1) := split_sign r in
        match span_digits r1 with
        | (String d ds, EmptyString) =>
            let v := Z.of_N (N_of_digits (String d ds)) in
            Some (if neg then - v else v)
        | _ => None
        end
      else None
  end.

(** The optional fraction part: a point and the digits after it. *)
Definition parse_fraction (s : string) : string * string :=
  match s with
  | String "." r => span_digits r
  | _ => (EmptyString, s)
  end.

(** [Decimal(value)] for a text, after the numeric-string grammar of the
    [decimal] module: surrounding whitespace is stripped and underscores
    are removed; then an optional sign, digits with an optional fraction
    (at least one digit in all) and an optional exponent.  The coefficient
    is the integer written by the digits of both parts, the exponent is the
    written exponent minus the number of fraction digits.  Any other text
    raises [InvalidOperation], except the spellings of the special values,
    which this development does not follow. *)
Definition Decimal_of_str (value : string) : Result Decimal :=
  let s := remove_underscores (strip value) in
  let '(sign, body) := split_sign s in
  let '(intpart, after_int) := span_digits body in
  let '(fracpart, after_frac) := parse_fraction after_int in
  match (intpart ++ fracpart)%string with
  | EmptyString =>
      if is_special body then Raise SpecialValue else Raise InvalidOperation
  | digits =>
      match parse_exponent after_frac with
      | Some exp =>
          Ok (mkDecimal sign (N_of_digits digits)
                (exp - Z.of_nat (String.length fracpart)))
      | None => Raise InvalidOperation
      end
  end.

Fixpoint zeros (n : nat) : string :=
  match n with
  | O => EmptyString
  | S k => String "0" (zeros k)
  end.

(** The format [%+d]. *)
Definition format_signed (z : Z) : string :=
  if z <? 0 then ("-" ++ digits_of_N (Z.to_N (- z)))%string
  else ("+" ++ digits_of_N (Z.to_N z))%string.

(** [str(d)]: the scientific string of the decimal arithmetic
    specification.  Plain notation is used when the exponent is at most
    zero and the number has more than -6 digits to the left of the point;
    otherwise one digit is put before the point and an exponent follows. *)
Definition Decimal_str (d : Decimal) : string :=
  let sign := if d_sign d then "-" else "" in
  let digits := digits_of_N (d_int d) in
  let len := Z.of_nat (String.length digits) in
  let leftdigits := d_exp d + len in
  let dotplace :=
    if (d_exp d <=? 0) && (-6 <? leftdigits) then leftdigits else 1 in
  let '(intpart, fracpart) :=
    if dotplace <=? 0 then
      ("0", ("." ++ zeros (Z.to_nat (- dotplace)) ++ digits)%string)
    else if len <=? dotplace then
      ((digits ++ zeros (Z.to_nat (dotplace - len)))%string, "")
    else
      (substring 0 (Z.to_nat dotplace) digits,
       ("." ++ substring (Z.to_nat dotplace) (Z.to_nat (len - dotplace)) digits)%string) in
  let exp :=
    if leftdigits =? dotplace then ""
    else ("E" ++ format_signed (leftdigits - dotplace))%string in
  (sign ++ intpart ++ fracpart ++ exp)%string.

(** The digits of an integer literal: digits, with single underscores
    allowed between two digits. *)
Fixpoint int_digits (s : string) (after_digit : bool) : option string :=
  match s with
  | EmptyString => if after_digit then Some EmptyString else None
  | String c r =>
      if is_digit c then
        match int_digits r true with
        | Some ds => Some (String c ds)
        | None => None
        end
      else if Ascii.eqb c "_" && after_digit then int_digits r false
      else None
  end.

(** [int(text)] in base 10. *)
Definition int_of_str (value : string) : option Z :=
  let '(neg, body) := split_sign (strip value) in
  match int_digits body false with
  | Some ds => let v := Z.of_N (N_of_digits ds) in Some (if neg then - v else v)
  | None => None
  end.

(** [int(x)] for a decoded JSON value. *)
Definition py_int (x : Any) : Result Z :=
  match x with
  | AInt z => Ok z
  | ABool b => Ok (if b then 1 else 0)
  | AStr s =>
      match int_of_str s with
      | Some z => Ok z
      | None => Raise ValueError
      end
  | ANone | ADict _ => Raise TypeError
  end.

(** [Decimal(x)] for a decoded JSON value. *)
Definition Decimal_ (x : Any) : Result Decimal :=
  match x with
  | AStr s => Decimal_of_str s
  | AInt z => Ok (Decimal_of_int z)
  | ABool b => Ok (Decimal_of_int (if b then 1 else 0))
  | ANone | ADict _ => Raise TypeError
  end.

(* ===================================================================== *)
(** ** Binary floating point                                              *)
(* ===================================================================== *)

(** A Python [float] is a binary64 number; a finite one is written here as
    the rational it denotes.  An operation on floats returns the binary64
    number nearest to the exact result, ties going to the even
    significand. *)

(** The integer nearest to [q], ties going to the even one. *)
Definition round_half_even (q : Q) : Z :=
  let f := Qfloor q in
  match Qcompare (q - inject_Z f) (1 # 2) with
  | Lt => f
  | Gt => f + 1
  | Eq => if Z.even f then f else f + 1
  end.

(** For [q > 0], the exponent [k] with [2^k <= q < 2^(k+1)]. *)
Definition Qlog2 (q : Q) : Z :=
  let g := Z.log2 (Qnum q) - Z.log2 (Zpos (Qden q)) in
  if Qle_bool (Qpower 2 g) q then g else g - 1.

(** The binary64 number nearest to [x], for [x] in the range of the normal
    numbers (the significand has 53 bits; the exponent range, which the
    values of this development stay far away from, is not modelled). *)
Definition binary64 (x : Q) : Q :=
  let q := Qred x in
  match Qnum q with
  | 0 => 0%Q
  | _ =>
      let e := Qlog2 (Qabs q) - 52 in
      let m := round_half_even (Qabs q / Qpower 2 e) in
      (inject_Z (Z.sgn (Qnum q) * m) * Qpower 2 e)%Q
  end.

(** [int(x)] for a float: the fraction is dropped. *)
Definition truncate (x : Q) : Z := Z.quot (Qnum x) (Zpos (Qden x)).

(* ===================================================================== *)
(** ** Canonical types ([data/types.py])                                  *)
(* ===================================================================== *)

(** A [datetime] instant, in microseconds since the epoch (the resolution
    of Python's [datetime]). *)
Definition datetime : Type := Z.

Record Trade : Type := mkTrade {
  symbol : string;
  price : Decimal;
  quantity : Decimal;
  timestamp : datetime;
  is_buyer_maker : Any
}.

(** The fields of the base class [Bar]. *)
Record Bar : Type := mkBar {
  bar_symbol : string;
  bar_open : Decimal;
  bar_high : Decimal;
  bar_low : Decimal;
  bar_close : Decimal;
  bar_volume : Decimal;
  bar_trade_count : Z;
  bar_timestamp : datetime;
  bar_close_time : datetime
}.

Record TimeBar : Type := mkTimeBar {
  time_bar :> Bar;
  interval_seconds : Z
}.

Record TickBar : Type := mkTickBar {
  tick_bar :> Bar;
  tick_threshold : Z
}.

Record VolumeBar : Type := mkVolumeBar {
  volume_bar :> Bar;
  volume_threshold : Decimal
}.

Record DollarBar : Type := mkDollarBar {
  dollar_bar :> Bar;
  dollar_threshold : Decimal
}.

Record FundingRate : Type := mkFundingRate {
  fr_symbol : Any;
  fr_funding_rate : Decimal;
  fr_mark_price : Decimal;
  fr_timestamp : datetime;
  fr_next_funding_time : option datetime
}.

(* ===================================================================== *)
(** ** Wire types ([data/connectors/types.py])                            *)
(* ===================================================================== *)

Inductive KlineInterval : Type :=
  | M1 | M3 | M5 | M15 | M30
  | H1 | H2 | H4 | H6 | H8 | H12
  | D1 | D3 | W1 | MO1.

(** [interval.value]. *)
Definition interval_value (i : KlineInterval) : string :=
  match i with
  | M1 => "1m" | M3 => "3m" | M5 => "5m" | M15 => "15m" | M30 => "30m"
  | H1 => "1h" | H2 => "2h" | H4 => "4h" | H6 => "6h" | H8 => "8h"
  | H12 => "12h" | D1 => "1d" | D3 => "3d" | W1 => "1w" | MO1 => "1M"
  end.

(** The raw records are built from unvalidated JSON values: a field
    annotated [str] or [bool] holds whatever value the payload had, a field
    that the parser passes through [int(...)] holds an integer. *)
Module RawKline.
Record t : Type := mk {
  open_time_ms : Z;
  open : Any;
  high : Any;
  low : Any;
  close : Any;
  volume : Any;
  close_time_ms : Z;
  quote_volume : Any;
  trade_count : Z;
  taker_buy_volume : Any;
  taker_buy_quote_volume : Any
}.
End RawKline.

Module RawTrade.
Record t : Type := mk {
  id : Any;
  price : Any;
  qty : Any;
  quote_qty : Any;
  time : Any;
  is_buyer_maker : Any
}.
End RawTrade.

Module RawFundingRate.
Record t : Type := mk {
  symbol : Any;
  funding_time_ms : Z;
  funding_rate : Any;
  mark_price : Any
}.
End RawFundingRate.

Module RawMarkPrice.
Record t : Type := mk {
  symbol : Any;
  mark_price : Any;
  index_price : Any;
  last_funding_rate : Any;
  next_funding_time_ms : Z;
  time_ms : Z
}.
End RawMarkPrice.

(* ===================================================================== *)
(** ** The transport and the runs of a generator                          *)
(* ===================================================================== *)

(** One REST request: the path and the query parameters that the
    connectors set ([None] for a parameter that is not sent). *)
Record Request : Type := mkRequest {
  path : string;
  param_symbol : string;
  param_interval : option string;
  startTime : option Z;
  endTime : option Z;
  limit : option Z
}.

(** The HTTP client, up to and including [response.json()]: the decoded
    body, or the exception of a failed request or of
    [raise_for_status]. *)
Definition Client (Body : Type) : Type := Request -> Result Body.

(** How the consumption of a generator ends. *)
Inductive Outcome : Type :=
  | Completed
  | Failed (e : Exn)
  | OutOfFuel.

(** A run of a paginating generator: the records it yielded, the requests
    it issued with their responses (oldest first), and how it ended. *)
Record Run (A Body : Type) : Type := mkRun {
  emitted : list A;
  exchanges : list (Request * Result Body);
  outcome : Outcome
}.
Arguments mkRun {A Body} _ _ _.
Arguments emitted {A Body} _.
Arguments exchanges {A Body} _.
Arguments outcome {A Body} _.

(** [for row in batch: yield parse(row)]: the records yielded, and the
    exception that interrupted the loop, if any. *)
Fixpoint yield_each {A B : Type} (parse : A -> Result B) (batch : list A)
  : list B * option Exn :=
  match batch with
  | [] => ([], None)
  | row :: rest =>
      match parse row with
      | Raise e => ([], Some e)
      | Ok x => let '(xs, err) := yield_each parse rest in (x :: xs, err)
      end
  end.

(** [batch[-1]]. *)
Definition list_last {A : Type} (batch : list A) : Result A :=
  match last batch with
  | Some row => Ok row
  | None => Raise IndexError
  end.

(* ===================================================================== *)
(** ** The bar aggregator ([data/normalizers/bars.py])                    *)
(* ===================================================================== *)

Module bars.

(** [trades[0]] raises [IndexError] on an empty bucket; [trades[-1]] is the
    last trade. *)
Definition _make_volume_bar (trades : list Trade) (threshold : Decimal)
  : Result VolumeBar :=
  match trades with
  | [] => Raise IndexError
  | t0 :: rest =>
      Ok {| volume_bar :=
              {| bar_symbol := symbol t0;
                 bar_open := price t0;
                 bar_high := max_from (price t0) (map price rest);
                 bar_low := min_from (price t0) (map price rest);
                 bar_close := price (List.last trades t0);
                 bar_volume := py_sum (map quantity trades) (Decimal_of_int 0);
                 bar_trade_count := Z.of_nat (length trades);
                 bar_timestamp := timestamp t0;
                 bar_close_time := timestamp (List.last trades t0) |};
            volume_threshold := threshold |}
  end.

Definition _make_tick_bar (trades : list Trade) (threshold : Z)
  : Result TickBar :=
  match trades with
  | [] => Raise IndexError
  | t0 :: rest =>
      Ok {| tick_bar :=
              {| bar_symbol := symbol t0;
                 bar_open := price t0;
                 bar_high := max_from (price t0) (map price rest);
                 bar_low := min_from (price t0) (map price rest);
                 bar_close := price (List.last trades t0);
                 bar_volume := py_sum (map quantity trades) (Decimal_of_int 0);
                 bar_trade_count := Z.of_nat (length trades);
                 bar_timestamp := timestamp t0;
                 bar_close_time := timestamp (List.last trades t0) |};
            tick_threshold := threshold |}
  end.

Definition _make_dollar_bar (trades : list Trade) (threshold : Decimal)
  : Result DollarBar :=
  match trades with
  | [] => Raise IndexError
  | t0 :: rest =>
      Ok {| dollar_bar :=
              {| bar_symbol := symbol t0;
                 bar_open := price t0;
                 bar_high := max_from (price t0) (map price rest);
                 bar_low := min_from (price t0) (map price rest);
                 bar_close := price (List.last trades t0);
                 bar_volume := py_sum (map quantity trades) (Decimal_of_int 0);
                 bar_trade_count := Z.of_nat (length trades);
                 bar_timestamp := timestamp t0;
                 bar_close_time := timestamp (List.last trades t0) |};
            dollar_threshold := threshold |}
  end.

(** The [for trade in trades] loop of [build_volume_bars], with the local
    variables [bars], [bucket] and [cum_volume] as arguments. *)
Fixpoint volume_loop (trades : list Trade) (threshold : Decimal)
    (bars : list VolumeBar) (bucket : list Trade) (cum_volume : Decimal)
  : Result (list VolumeBar) :=
  match trades with
  | [] => Ok bars
  | trade :: rest =>
      let bucket := bucket ++ [trade] in
      let cum_volume := Dadd cum_volume (quantity trade) in
      if Dgeb cum_volume threshold then
        let* bar := _make_volume_bar bucket threshold in
        volume_loop rest threshold (bars ++ [bar]) [] (Decimal_of_int 0)
      else volume_loop rest threshold bars bucket cum_volume
  end.

Definition build_volume_bars (trades : list Trade) (threshold : Decimal)
  : Result (list VolumeBar) :=
  volume_loop trades threshold [] [] (Decimal_of_int 0).

Fixpoint tick_loop (trades : list Trade) (threshold : Z)
    (bars : list TickBar) (bucket : list Trade) : Result (list TickBar) :=
  match trades with
  | [] => Ok bars
  | trade :: rest =>
      let bucket := bucket ++ [trade] in
      if Z.of_nat (length bucket) >=? threshold then
        let* bar := _make_tick_bar bucket threshold in
        tick_loop rest threshold (bars ++ [bar]) []
      else tick_loop rest threshold bars bucket
  end.

Definition build_tick_bars (trades : list Trade) (threshold : Z)
  : Result (list TickBar) :=
  tick_loop trades threshold [] [].

Fixpoint dollar_loop (trades : list Trade) (threshold : Decimal)
    (bars : list DollarBar) (bucket : list Trade) (cum_dollar : Decimal)
  : Result (list DollarBar) :=
  match trades with
  | [] => Ok bars
  | trade :: rest =>
      let bucket := bucket ++ [trade] in
      let cum_dollar := Dadd cum_dollar (Dmul (price trade) (quantity trade)) in
      if Dgeb cum_dollar threshold then
        let* bar := _make_dollar_bar bucket threshold in
        dollar_loop rest threshold (bars ++ [bar]) [] (Decimal_of_int 0)
      else dollar_loop rest threshold bars bucket cum_dollar
  end.

Definition build_dollar_bars (trades : list Trade) (threshold : Decimal)
  : Result (list DollarBar) :=
  dollar_loop trades threshold [] [] (Decimal_of_int 0).

End bars.

(* ===================================================================== *)
(** ** The connectors ([data/connectors/binance.py],
       [data/connectors/binance_futures.py])                              *)
(* ===================================================================== *)

(** The spot and the futures connector define the same kline and trade
    parsers, the same kline pagination and the same stream filters; they
    differ in the paths they request.  [connectors] holds these common
    bodies, with the path and the page capacity as parameters. *)
Module connectors.

Definition _parse_rest_kline (row : list Any) : Result RawKline.t :=
  let* x0 := list_getitem row 0 in
  let* open_time_ms := py_int x0 in
  let* open := list_getitem row 1 in
  let* high := list_getitem row 2 in
  let* low := list_getitem row 3 in
  let* close := list_getitem row 4 in
  let* volume := list_getitem row 5 in
  let* x6 := list_getitem row 6 in
  let* close_time_ms := py_int x6 in
  let* quote_volume := list_getitem row 7 in
  let* x8 := list_getitem row 8 in
  let* trade_count := py_int x8 in
  let* taker_buy_volume := list_getitem row 9 in
  let* taker_buy_quote_volume := list_getitem row 10 in
  Ok (RawKline.mk open_time_ms open high low close volume close_time_ms
        quote_volume trade_count taker_buy_volume taker_buy_quote_volume).

Definition _parse_ws_kline (k : Any) : Result RawKline.t :=
  let* xt := getitem k "t" in
  let* open_time_ms := py_int xt in
  let* open := getitem k "o" in
  let* high := getitem k "h" in
  let* low := getitem k "l" in
  let* close := getitem k "c" in
  let* volume := getitem k "v" in
  let* xT := getitem k "T" in
  let* close_time_ms := py_int xT in
  let* quote_volume := getitem k "q" in
  let* xn := getitem k "n" in
  let* trade_count := py_int xn in
  let* taker_buy_volume := getitem k "V" in
  let* taker_buy_quote_volume := getitem k "Q" in
  Ok (RawKline.mk open_time_ms open high low close volume close_time_ms
        quote_volume trade_count taker_buy_volume taker_buy_quote_volume).

Definition _parse_rest_trade (row : gmap string Any) : Result RawTrade.t :=
  let* id := dict_getitem row "id" in
  let* price := dict_getitem row "price" in
  let* qty := dict_getitem row "qty" in
  let* quote_qty := dict_getitem row "quoteQty" in
  let* time := dict_getitem row "time" in
  let* is_buyer_maker := dict_getitem row "isBuyerMaker" in
  Ok (RawTrade.mk id price qty quote_qty time is_buyer_maker).

(** The trade stream omits [quoteQty]; it is computed as price times
    quantity and written back as text. *)
Definition _parse_ws_trade (data : gmap string Any) : Result RawTrade.t :=
  let* p := dict_getitem data "p" in
  let* dp := Decimal_ p in
  let* q := dict_getitem data "q" in
  let* dq := Decimal_ q in
  let quote_qty := Decimal_str (Dmul dp dq) in
  let* id := dict_getitem data "t" in
  let* price := dict_getitem data "p" in
  let* qty := dict_getitem data "q" in
  let* time := dict_getitem data "T" in
  let* is_buyer_maker := dict_getitem data "m" in
  Ok (RawTrade.mk id price qty (AStr quote_qty) time is_buyer_maker).

Section Klines.

Variable rest_path : string.
Variable _KLINE_PAGE : Z.
Variable client : Client (list (list Any)).

(** The [while cursor < end_ms] loop of [fetch_klines]; [fuel] bounds the
    number of iterations. *)
Fixpoint klines_loop (fuel : nat) (symbol : string) (interval : KlineInterval)
    (end_ms cursor : Z) : Run RawKline.t (list (list Any)) :=
  match fuel with
  | O => mkRun [] [] OutOfFuel
  | S fuel' =>
      if cursor <? end_ms then
        let request :=
          {| path := rest_path;
             param_symbol := symbol;
             param_interval := Some (interval_value interval);
             startTime := Some cursor;
             endTime := Some end_ms;
             limit := Some _KLINE_PAGE |} in
        match client request with
        | Raise e => mkRun [] [(request, Raise e)] (Failed e)
        | Ok batch =>
            let exchange := (request, Ok batch) in
            match yield_each _parse_rest_kline batch with
            | (klines, Some e) => mkRun klines [exchange] (Failed e)
            | (klines, None) =>
                if Z.of_nat (length batch) <? _KLINE_PAGE then
                  mkRun klines [exchange] Completed
                else
                  match (let* row := list_last batch in
                         let* x6 := list_getitem row 6 in
                         py_int x6) with
                  | Raise e => mkRun klines [exchange] (Failed e)
                  | Ok close_time =>
                      let next :=
                        klines_loop fuel' symbol interval end_ms (close_time + 1) in
                      mkRun (klines ++ emitted next)
                            (exchange :: exchanges next)
                            (outcome next)
                  end
            end
        end
      else mkRun [] [] Completed
  end.

Definition fetch_klines (fuel : nat) (symbol : string) (interval : KlineInterval)
    (start_ms end_ms : Z) : Run RawKline.t (list (list Any)) :=
  klines_loop fuel symbol interval end_ms start_ms.

End Klines.

(** [async for message in ws] over the messages received so far, each
    already decoded by [json.loads]: the records yielded, and the exception
    that ended the stream, if any. *)
Fixpoint stream_klines (ws : list (gmap string Any))
  : list RawKline.t * option Exn :=
  match ws with
  | [] => ([], None)
  | data :: rest =>
      match (let* k := dict_getitem data "k" in
             let* x := getitem k "x" in
             if truthy x then
               let* kline := _parse_ws_kline k in Ok [kline]
             else Ok []) with
      | Raise e => ([], Some e)
      | Ok yielded =>
          let '(later, err) := stream_klines rest in (yielded ++ later, err)
      end
  end.

Definition stream_trades (ws : list (gmap string Any))
  : list RawTrade.t * option Exn :=
  yield_each _parse_ws_trade ws.

Section Trades.

Variable rest_path : string.
Variable client : Client (list (gmap string Any)).

(** [fetch_trades]: one request, whatever the number of rows it returns. *)
Definition fetch_trades (symbol : string) (limit : Z)
  : Run RawTrade.t (list (gmap string Any)) :=
  let request :=
    {| path := rest_path;
       param_symbol := symbol;
       param_interval := None;
       startTime := None;
       endTime := None;
       limit := Some limit |} in
  match client request with
  | Raise e => mkRun [] [(request, Raise e)] (Failed e)
  | Ok batch =>
      match yield_each _parse_rest_trade batch with
      | (trades, Some e) => mkRun trades [(request, Ok batch)] (Failed e)
      | (trades, None) => mkRun trades [(request, Ok batch)] Completed
      end
  end.

End Trades.

End connectors.

Module binance.

Definition _KLINE_PAGE : Z := 1000.

Definition _parse_rest_kline := connectors._parse_rest_kline.
Definition _parse_ws_kline := connectors._parse_ws_kline.
Definition _parse_rest_trade := connectors._parse_rest_trade.
Definition _parse_ws_trade := connectors._parse_ws_trade.

Definition fetch_klines (client : Client (list (list Any))) :=
  connectors.fetch_klines "/api/v3/klines" _KLINE_PAGE client.

Definition stream_klines := connectors.stream_klines.
Definition stream_trades := connectors.stream_trades.
Definition fetch_trades (client : Client (list (gmap string Any))) :=
  connectors.fetch_trades "/api/v3/trades" client.

End binance.

Module binance_futures.

Definition _KLINE_PAGE : Z := 1000.
Definition _FUNDING_PAGE : Z := 1000.

Definition _parse_rest_kline := connectors._parse_rest_kline.
Definition _parse_ws_kline := connectors._parse_ws_kline.
Definition _parse_rest_trade := connectors._parse_rest_trade.
Definition _parse_ws_trade := connectors._parse_ws_trade.

Definition _parse_funding_rate (row : gmap string Any)
  : Result RawFundingRate.t :=
  let* symbol := dict_getitem row "symbol" in
  let* x := dict_getitem row "fundingTime" in
  let* funding_time_ms := py_int x in
  let* funding_rate := dict_getitem row "fundingRate" in
  let mark_price := dict_get row "markPrice" (AStr "0") in
  Ok (RawFundingRate.mk symbol funding_time_ms funding_rate mark_price).

Definition _parse_mark_price (data : gmap string Any) : Result RawMarkPrice.t :=
  let* symbol := dict_getitem data "symbol" in
  let* mark_price := dict_getitem data "markPrice" in
  let* index_price := dict_getitem data "indexPrice" in
  let* last_funding_rate := dict_getitem data "lastFundingRate" in
  let* x1 := dict_getitem data "nextFundingTime" in
  let* next_funding_time_ms := py_int x1 in
  let* x2 := dict_getitem data "time" in
  let* time_ms := py_int x2 in
  Ok (RawMarkPrice.mk symbol mark_price index_price last_funding_rate
        next_funding_time_ms time_ms).

Definition _parse_ws_mark_price (data : gmap string Any)
  : Result RawMarkPrice.t :=
  let* symbol := dict_getitem data "s" in
  let* mark_price := dict_getitem data "p" in
  let* index_price := dict_getitem data "i" in
  let* last_funding_rate := dict_getitem data "r" in
  let* x1 := dict_getitem data "T" in
  let* next_funding_time_ms := py_int x1 in
  let* x2 := dict_getitem data "E" in
  let* time_ms := py_int x2 in
  Ok (RawMarkPrice.mk symbol mark_price index_price last_funding_rate
        next_funding_time_ms time_ms).

Definition fetch_klines (client : Client (list (list Any))) :=
  connectors.fetch_klines "/fapi/v1/klines" _KLINE_PAGE client.

(** The [while True] loop of [fetch_funding_rates]; [end_ms] is optional
    and is sent as [endTime] only when given. *)
Fixpoint funding_loop (page : Z) (client : Client (list (gmap string Any)))
    (fuel : nat) (symbol : string) (end_ms : option Z) (cursor : Z)
  : Run RawFundingRate.t (list (gmap string Any)) :=
  match fuel with
  | O => mkRun [] [] OutOfFuel
  | S fuel' =>
      let request :=
        {| path := "/fapi/v1/fundingRate";
           param_symbol := symbol;
           param_interval := None;
           startTime := Some cursor;
           endTime := end_ms;
           limit := Some page |} in
      match client request with
      | Raise e => mkRun [] [(request, Raise e)] (Failed e)
      | Ok batch =>
          let exchange := (request, Ok batch) in
          match yield_each _parse_funding_rate batch with
          | (rates, Some e) => mkRun rates [exchange] (Failed e)
          | (rates, None) =>
              if Z.of_nat (length batch) <? page then
                mkRun rates [exchange] Completed
              else
                match (let* row := list_last batch in
                       let* x := dict_getitem row "fundingTime" in
                       py_int x) with
                | Raise e => mkRun rates [exchange] (Failed e)
                | Ok funding_time =>
                    let next :=
                      funding_loop page client fuel' symbol end_ms (funding_time + 1) in
                    mkRun (rates ++ emitted next)
                          (exchange :: exchanges next)
                          (outcome next)
                end
          end
      end
  end.

Definition fetch_funding_rates (client : Client (list (gmap string Any)))
    (fuel : nat) (symbol : string) (start_ms : Z) (end_ms : option Z)
  : Run RawFundingRate.t (list (gmap string Any)) :=
  funding_loop _FUNDING_PAGE client fuel symbol end_ms start_ms.

Definition stream_klines := connectors.stream_klines.
Definition stream_trades := connectors.stream_trades.

Definition stream_mark_price (ws : list (gmap string Any))
  : list RawMarkPrice.t * option Exn :=
  yield_each _parse_ws_mark_price ws.
Definition fetch_trades (client : Client (list (gmap string Any))) :=
  connectors.fetch_trades "/fapi/v1/trades" client.

(** [fetch_current_funding_rate]: one request for the premium index of the
    symbol, parsed as a mark-price snapshot. *)
Definition fetch_current_funding_rate (client : Client (gmap string Any))
    (symbol : string) : Result RawMarkPrice.t :=
  let* data :=
    client {| path := "/fapi/v1/premiumIndex";
              param_symbol := symbol;
              param_interval := None;
              startTime := None;
              endTime := None;
              limit := None |} in
  _parse_mark_price data.

End binance_futures.

(* ===================================================================== *)
(** ** The normalizers ([data/normalizers/binance.py],
       [data/normalizers/binance_futures.py])                             *)
(* ===================================================================== *)

Module normalizers.

(** The table [_INTERVAL_SECONDS], the same in both modules. *)
Definition _INTERVAL_SECONDS (i : KlineInterval) : Z :=
  match i with
  | M1 => 60 | M3 => 180 | M5 => 300 | M15 => 900 | M30 => 1800
  | H1 => 3600 | H2 => 7200 | H4 => 14400 | H6 => 21600 | H8 => 28800
  | H12 => 43200 | D1 => 86400 | D3 => 259200 | W1 => 604800
  | MO1 => 2592000
  end.

(** [datetime.fromtimestamp(ms / 1_000, tz=UTC)], for the instants that a
    [datetime] can hold: the instant [ms] milliseconds after the epoch.
    Dividing a string, [None] or a dictionary raises [TypeError]. *)
Definition _ms_to_utc (ms : Any) : Result datetime :=
  match ms with
  | AInt z => Ok (z * 1000)
  | ABool b => Ok (if b then 1000 else 0)
  | AStr _ | ANone | ADict _ => Raise TypeError
  end.

Definition to_time_bar (raw : RawKline.t) (symbol : string)
    (interval : KlineInterval) : Result TimeBar :=
  let* open := Decimal_ (RawKline.open raw) in
  let* high := Decimal_ (RawKline.high raw) in
  let* low := Decimal_ (RawKline.low raw) in
  let* close := Decimal_ (RawKline.close raw) in
  let* volume := Decimal_ (RawKline.volume raw) in
  let trade_count := RawKline.trade_count raw in
  let* timestamp := _ms_to_utc (AInt (RawKline.open_time_ms raw)) in
  let* close_time := _ms_to_utc (AInt (RawKline.close_time_ms raw)) in
  Ok {| time_bar :=
          {| bar_symbol := symbol;
             bar_open := open;
             bar_high := high;
             bar_low := low;
             bar_close := close;
             bar_volume := volume;
             bar_trade_count := trade_count;
             bar_timestamp := timestamp;
             bar_close_time := close_time |};
        interval_seconds := _INTERVAL_SECONDS interval |}.

Definition to_trade (raw : RawTrade.t) (symbol : string) : Result Trade :=
  let* price := Decimal_ (RawTrade.price raw) in
  let* quantity := Decimal_ (RawTrade.qty raw) in
  let* timestamp := _ms_to_utc (RawTrade.time raw) in
  Ok {| symbol := symbol;
        price := price;
        quantity := quantity;
        timestamp := timestamp;
        is_buyer_maker := RawTrade.is_buyer_maker raw |}.

(** [to_futures_time_bar] mirrors [to_time_bar]. *)
Definition to_futures_time_bar (raw : RawKline.t) (symbol : string)
    (interval : KlineInterval) : Result TimeBar :=
  let* open := Decimal_ (RawKline.open raw) in
  let* high := Decimal_ (RawKline.high raw) in
  let* low := Decimal_ (RawKline.low raw) in
  let* close := Decimal_ (RawKline.close raw) in
  let* volume := Decimal_ (RawKline.volume raw) in
  let trade_count := RawKline.trade_count raw in
  let* timestamp := _ms_to_utc (AInt (RawKline.open_time_ms raw)) in
  let* close_time := _ms_to_utc (AInt (RawKline.close_time_ms raw)) in
  Ok {| time_bar :=
          {| bar_symbol := symbol;
             bar_open := open;
             bar_high := high;
             bar_low := low;
             bar_close := close;
             bar_volume := volume;
             bar_trade_count := trade_count;
             bar_timestamp := timestamp;
             bar_close_time := close_time |};
        interval_seconds := _INTERVAL_SECONDS interval |}.

Definition to_funding_rate (raw : RawFundingRate.t) : Result FundingRate :=
  let symbol := RawFundingRate.symbol raw in
  let* funding_rate := Decimal_ (RawFundingRate.funding_rate raw) in
  let* mark_price := Decimal_ (RawFundingRate.mark_price raw) in
  let* timestamp := _ms_to_utc (AInt (RawFundingRate.funding_time_ms raw)) in
  Ok {| fr_symbol := symbol;
        fr_funding_rate := funding_rate;
        fr_mark_price := mark_price;
        fr_timestamp := timestamp;
        fr_next_funding_time := None |}.

Definition to_current_funding_rate (raw : RawMarkPrice.t) : Result FundingRate :=
  let symbol := RawMarkPrice.symbol raw in
  let* funding_rate := Decimal_ (RawMarkPrice.last_funding_rate raw) in
  let* mark_price := Decimal_ (RawMarkPrice.mark_price raw) in
  let* timestamp := _ms_to_utc (AInt (RawMarkPrice.time_ms raw)) in
  let* next_funding_time :=
    _ms_to_utc (AInt (RawMarkPrice.next_funding_time_ms raw)) in
  Ok {| fr_symbol := symbol;
        fr_funding_rate := funding_rate;
        fr_mark_price := mark_price;
        fr_timestamp := timestamp;
        fr_next_funding_time := Some next_funding_time |}.

(** [_ms_to_utc] on an integer, as the interpreter computes it:
    [ms / 1_000] is the float nearest to the quotient; [fromtimestamp]
    splits it into its integer part and its fraction, multiplies the
    fraction by [1e6] and rounds the product to an integer number of
    microseconds, ties to even. *)
Definition _ms_to_utc_binary64 (ms : Z) : datetime :=
  let t := binary64 (ms # 1000) in
  let intpart := truncate t in
  let floatpart := binary64 ((t - inject_Z intpart) * 1000000) in
  intpart * 1000000 + round_half_even floatpart.

End normalizers.

(* ===================================================================== *)
(** ** The exchange as a page-bounded transport                           *)
(* ===================================================================== *)

(** The row that the exchange sends for a kline: the eleven fields that
    [_parse_rest_kline] reads and a twelfth, unused one. *)
Definition kline_row (k : RawKline.t) : list Any :=
  [ AInt (RawKline.open_time_ms k); RawKline.open k; RawKline.high k;
    RawKline.low k; RawKline.close k; RawKline.volume k;
    AInt (RawKline.close_time_ms k); RawKline.quote_volume k;
    AInt (RawKline.trade_count k); RawKline.taker_buy_volume k;
    RawKline.taker_buy_quote_volume k; AStr "0" ].

(** A kline is covered by the range [[start, end]] when its open time lies
    in it, both bounds included. *)
Definition covered (start_ms end_ms : Z) (k : RawKline.t) : Prop :=
  start_ms <= RawKline.open_time_ms k <= end_ms.

#[global] Instance covered_dec (start_ms end_ms : Z) (k : RawKline.t)
  : Decision (covered start_ms end_ms k).
Proof. unfold covered. apply _. Defined.

(** What one fetch without a page cap emits for the range
    [[start, end]]: every covered kline of the dataset, oldest first. *)
Definition unpaged_fetch (dataset : list RawKline.t) (start_ms end_ms : Z)
  : list RawKline.t :=
  filter (covered start_ms end_ms) dataset.

(** Modelled from the spec: the page-bounded transport [fetch_page] of the
    external interfaces (the exchange; it is no code of the repository),
    serving a finite dataset kept oldest first.  A request is answered with
    the rows of the klines covered by [[startTime, endTime]], oldest first
    and at most [limit] of them.  The connector always sends the three
    parameters; a request without one of them is answered with an error. *)
Definition serve_klines (dataset : list RawKline.t) : Client (list (list Any)) :=
  fun request =>
    match startTime request, endTime request, limit request with
    | Some start_ms, Some end_ms, Some page_cap =>
        Ok (map kline_row
              (take (Z.to_nat page_cap) (unpaged_fetch dataset start_ms end_ms)))
    | _, _, _ => Raise HTTPStatusError
    end.

(** The timestamps of a dataset are unique and ordered: every kline closes
    no earlier than it opens, and opens after the klines before it have
    closed. *)
Definition kline_chain (dataset : list RawKline.t) : Prop :=
  StronglySorted
    (fun a b => RawKline.close_time_ms a < RawKline.open_time_ms b) dataset
  /\ Forall (fun k => RawKline.open_time_ms k <= RawKline.close_time_ms k) dataset.

(** A transport for funding rates that has no record to send. *)
Definition no_funding_records : Client (list (gmap string Any)) :=
  fun _ => Ok [].

(* ===================================================================== *)
(** ** Specification-level notions for the aggregator                     *)
(* ===================================================================== *)

(** Trades in chronological order. *)
Definition chronological (trades : list Trade) : Prop :=
  StronglySorted (fun a b => timestamp a <= timestamp b) trades.

(** The invariants that the data model states for every bar, with the
    comparisons of the decimal type itself. *)
Definition bar_invariant (b : Bar) : Prop :=
  Dleb (bar_low b) (bar_open b) = true
  /\ Dleb (bar_open b) (bar_high b) = true
  /\ Dleb (bar_low b) (bar_close b) = true
  /\ Dleb (bar_close b) (bar_high b) = true
  /\ Dleb (Decimal_of_int 0) (bar_volume b) = true
  /\ 1 <= bar_trade_count b
  /\ bar_timestamp b <= bar_close_time b.




(** The base fields that the three bar constructors compute from a bucket
    with first trade [t0] and remaining trades [rest]. *)
Definition bucket_bar (t0 : Trade) (rest : list Trade) : Bar :=
  {| bar_symbol := symbol t0;
     bar_open := price t0;
     bar_high := max_from (price t0) (map price rest);
     bar_low := min_from (price t0) (map price rest);
     bar_close := price (List.last (t0 :: rest) t0);
     bar_volume := py_sum (map quantity (t0 :: rest)) (Decimal_of_int 0);
     bar_trade_count := Z.of_nat (length (t0 :: rest));
     bar_timestamp := timestamp t0;
     bar_close_time := timestamp (List.last (t0 :: rest) t0) |}.


(* ===================================================================== *)
(** ** Specification-level notions for the stream filter                  *)
(* ===================================================================== *)

(** The is-final indicator of a kline-stream message: the truth value of
    the field [x] of its [k] object (a boolean on the wire). *)
Definition is_final (data : gmap string Any) : bool :=
  match data !! "k" with
  | Some k =>
      match getitem k "x" with
      | Ok x => truthy x
      | Raise _ => false
      end
  | None => false
  end.

(** A well-formed kline-stream message: it has a [k] object with a field
    [x], and when [x] is true the object holds a kline that parses. *)
Definition kline_message (data : gmap string Any) : Prop :=
  exists (k x : Any),
    data !! "k" = Some k
    /\ getitem k "x" = Ok x
    /\ (truthy x = true ->
        exists kline, connectors._parse_ws_kline k = Ok kline).

(** The kline that a message carries. *)
Definition carries_kline (data : gmap string Any) (kline : RawKline.t) : Prop :=
  exists k, data !! "k" = Some k /\ connectors._parse_ws_kline k = Ok kline.

(* ===================================================================== *)
(** ** Specification-level notions for the parsers                        *)
(* ===================================================================== *)



(** The characters that occur in the texts that [Decimal] accepts: digits,
    whitespace, the signs, the point, the underscore, and the letters of the
    exponent mark and of the spellings of the special values.  A text with
    any other character is not numeric. *)
Definition numeric_char (c : ascii) : bool :=
  is_digit c || is_space c
  || existsb (Ascii.eqb c)
       (list_ascii_of_string "+-._eEiInNfFtTyYaAsS").

Fixpoint has_foreign_char (s : string) : bool :=
  match s with
  | EmptyString => false
  | String c r => negb (numeric_char c) || has_foreign_char r
  end.

(* ===================================================================== *)
(** ** Specification-level notions for decimal texts                      *)
(* ===================================================================== *)

(** A text made of digits only. *)
Fixpoint digits_only (s : string) : bool :=
  match s with
  | EmptyString => true
  | String c r => is_digit c && digits_only r
  end.

(** A text that does not start with a digit. *)
Definition starts_nondigit (s : string) : Prop :=
  match s with
  | EmptyString => True
  | String c _ => is_digit c = false
  end.

(** Texts without whitespace and underscores are left unchanged by the
    normalisation steps of the parser. *)
Fixpoint clean (s : string) : bool :=
  match s with
  | EmptyString => true
  | String c r => negb (is_space c) && negb (Ascii.eqb c "_") && clean r
  end.

(** A text of digits that starts with a digit other than zero. *)
Definition leading_nonzero (s : string) : bool :=
  match s with
  | EmptyString => false
  | String c r => is_digit c && negb (Ascii.eqb c "0") && digits_only r
  end.

(** The digits of a natural number as they are written: ["0"], or digits
    without a leading zero. *)
Definition canonical_digits (s : string) : Prop :=
  s = "0" \/ leading_nonzero s = true.

Definition sign_text (sign : bool) : string := if sign then "-" else "".

(** Plain canonical notation: an optional minus sign and an integer part
    without superfluous zeros, alone or followed by a point and fraction
    digits; when the integer part is ["0"], at most five zeros stand
    between the point and the canonical digits that end the text. *)
Inductive plain_canonical : string -> Prop :=
  | plain_integer (sign : bool) (ip : string) :
      canonical_digits ip ->
      plain_canonical (sign_text sign ++ ip)
  | plain_fraction (sign : bool) (ip fp : string) :
      leading_nonzero ip = true -> digits_only fp = true -> fp <> EmptyString ->
      plain_canonical (sign_text sign ++ ip ++ "." ++ fp)
  | plain_small (sign : bool) (k : nat) (tail : string) :
      (k <= 5)%nat -> canonical_digits tail ->
      plain_canonical (sign_text sign ++ "0" ++ "." ++ zeros k ++ tail).

(* ===================================================================== *)
(** ** Fixtures                                                           *)
(* ===================================================================== *)


(** The [i]-th kline of a synthetic ten-millisecond series: it opens at
    [10 * i] and closes at [10 * i + 9]. *)
Definition sample_kline (i : Z) : RawKline.t :=
  RawKline.mk (10 * i) (AStr "1.0") (AStr "2.0") (AStr "0.5") (AStr "1.5")
    (AStr "10") (10 * i + 9) (AStr "15") 3 (AStr "4") (AStr "6").

Definition sample_klines (count : nat) : list RawKline.t :=
  map (fun i => sample_kline (Z.of_nat i)) (seq 0 count).

(** A trade of the fixture: the [i]-th trade, at price [100 + i], with
    quantity [q], one second after the previous one. *)
Definition sample_trade (i q : Z) : Trade :=
  {| symbol := "BTCUSDT";
     price := Decimal_of_int (100 + i);
     quantity := Decimal_of_int q;
     timestamp := 1000000 * i;
     is_buyer_maker := ABool false |}.

(** The seven trades of the end-to-end scenario, with quantities
    1, 1, 1, 2, 1, 1, 1. *)
Definition scenario_trades : list Trade :=
  [sample_trade 0 1; sample_trade 1 1; sample_trade 2 1; sample_trade 3 2;
   sample_trade 4 1; sample_trade 5 1; sample_trade 6 1].

(** A message of the kline stream for the one-minute bar that opens at
    [t]: a partial update, or the final message of the bar. *)
Definition ws_kline_object (final : bool) (t : Z) : gmap string Any :=
  list_to_map
    [("t", AInt t); ("T", AInt (t + 59999)); ("s", AStr "BTCUSDT");
     ("i", AStr "1m"); ("o", AStr "1.0"); ("c", AStr "1.5"); ("h", AStr "2.0");
     ("l", AStr "0.5"); ("v", AStr "10"); ("n", AInt 3); ("x", ABool final);
     ("q", AStr "15"); ("V", AStr "4"); ("Q", AStr "6")].

Definition ws_kline_message (final : bool) (t : Z) : gmap string Any :=
  list_to_map
    [("e", AStr "kline"); ("E", AInt (t + 1)); ("s", AStr "BTCUSDT");
     ("k", ADict (ws_kline_object final t))].

(** A feed of five partial updates and three final messages. *)
Definition sample_feed : list (gmap string Any) :=
  [ws_kline_message false 0; ws_kline_message false 0;
   ws_kline_message true 0;
   ws_kline_message false 60000; ws_kline_message true 60000;
   ws_kline_message false 120000; ws_kline_message false 120000;
   ws_kline_message true 120000].

(* ===================================================================== *)
(** ** The clients ([clients/binance.py], [clients/binance_futures.py])   *)
(* ===================================================================== *)

(** [async for raw in source: yield convert(raw)]: the converted records,
    up to the first conversion that raises or to the end of the source,
    whichever comes first. *)
Definition relay {A B : Type} (convert : A -> Result B)
    (source : list A * option Exn) : list B * option Exn :=
  match yield_each convert (fst source) with
  | (out, Some e) => (out, Some e)
  | (out, None) => (out, snd source)
  end.

(** [async for raw in gen: out.append(convert(raw))], then [return out]:
    the call returns the list, or raises the first exception (of a
    conversion or of the generator), or is still running when the fuel of
    the generator is used up ([None]). *)
Definition consume {A B Body : Type} (convert : A -> Result B)
    (run : Run A Body) : option (Result (list B)) :=
  match yield_each convert (emitted run) with
  | (_, Some e) => Some (Raise e)
  | (out, None) =>
      match outcome run with
      | Completed => Some (Ok out)
      | Failed e => Some (Raise e)
      | OutOfFuel => None
      end
  end.

(** [await f(...)] followed by a computation on its result. *)
Definition then_ {A B : Type} (awaited : option (Result A)) (k : A -> Result B)
  : option (Result B) :=
  match awaited with
  | Some r => Some (bind r k)
  | None => None
  end.

Module clients.

(** [_to_ms], the same in both modules.  A [datetime] without time zone is
    read as UTC, so that in both cases [dt] is an instant; [timestamp()]
    is the float nearest to its number of seconds since the epoch, the
    product with [1_000] is a float again, and [int] drops its fraction. *)
Definition _to_ms (dt : datetime) : Z :=
  truncate (binary64 (binary64 (dt # 1000000) * 1000)).

End clients.

Module BinanceClient.

Section Methods.

(** The connector of the client, as the transport of each of its two REST
    endpoints. *)
Variable klines : Client (list (list Any)).
Variable trades : Client (list (gmap string Any)).

Definition time_bars (fuel : nat) (symbol : string) (interval : KlineInterval)
    (start end_ : datetime) : option (Result (list TimeBar)) :=
  consume (fun raw => normalizers.to_time_bar raw symbol interval)
    (binance.fetch_klines klines fuel symbol interval
       (clients._to_ms start) (clients._to_ms end_)).

Definition _recent_trades (symbol : string) (limit : Z)
  : option (Result (list Trade)) :=
  consume (fun raw => normalizers.to_trade raw symbol)
    (binance.fetch_trades trades symbol limit).

Definition volume_bars (symbol : string) (threshold : Decimal) (limit : Z)
  : option (Result (list VolumeBar)) :=
  then_ (_recent_trades symbol limit)
    (fun trades => bars.build_volume_bars trades threshold).

Definition tick_bars (symbol : string) (threshold : Z) (limit : Z)
  : option (Result (list TickBar)) :=
  then_ (_recent_trades symbol limit)
    (fun trades => bars.build_tick_bars trades threshold).

Definition dollar_bars (symbol : string) (threshold : Decimal) (limit : Z)
  : option (Result (list DollarBar)) :=
  then_ (_recent_trades symbol limit)
    (fun trades => bars.build_dollar_bars trades threshold).

End Methods.

(** The live methods, over the messages received so far. *)
Definition live_time_bars (ws : list (gmap string Any)) (symbol : string)
    (interval : KlineInterval) : list TimeBar * option Exn :=
  relay (fun raw => normalizers.to_time_bar raw symbol interval)
    (binance.stream_klines ws).

Definition live_trades (ws : list (gmap string Any)) (symbol : string)
  : list Trade * option Exn :=
  relay (fun raw => normalizers.to_trade raw symbol) (binance.stream_trades ws).

End BinanceClient.

Module BinanceFuturesClient.

Section Methods.

Variable klines : Client (list (list Any)).
Variable trades : Client (list (gmap string Any)).
Variable funding : Client (list (gmap string Any)).
Variable premium_index : Client (gmap string Any).

Definition time_bars (fuel : nat) (symbol : string) (interval : KlineInterval)
    (start end_ : datetime) : option (Result (list TimeBar)) :=
  consume (fun raw => normalizers.to_futures_time_bar raw symbol interval)
    (binance_futures.fetch_klines klines fuel symbol interval
       (clients._to_ms start) (clients._to_ms end_)).

Definition funding_rates (fuel : nat) (symbol : string) (start : datetime)
    (end_ : option datetime) : option (Result (list FundingRate)) :=
  consume normalizers.to_funding_rate
    (binance_futures.fetch_funding_rates funding fuel symbol
       (clients._to_ms start)
       (match end_ with
        | Some e => Some (clients._to_ms e)
        | None => None
        end)).

Definition current_funding_rate (symbol : string) : Result FundingRate :=
  let* raw := binance_futures.fetch_current_funding_rate premium_index symbol in
  normalizers.to_current_funding_rate raw.

Definition _recent_trades (symbol : string) (limit : Z)
  : option (Result (list Trade)) :=
  consume (fun raw => normalizers.to_trade raw symbol)
    (binance_futures.fetch_trades trades symbol limit).

Definition volume_bars (symbol : string) (threshold : Decimal) (limit : Z)
  : option (Result (list VolumeBar)) :=
  then_ (_recent_trades symbol limit)
    (fun trades => bars.build_volume_bars trades threshold).

Definition tick_bars (symbol : string) (threshold : Z) (limit : Z)
  : option (Result (list TickBar)) :=
  then_ (_recent_trades symbol limit)
    (fun trades => bars.build_tick_bars trades threshold).

Definition dollar_bars (symbol : string) (threshold : Decimal) (limit : Z)
  : option (Result (list DollarBar)) :=
  then_ (_recent_trades symbol limit)
    (fun trades => bars.build_dollar_bars trades threshold).

End Methods.

Definition live_time_bars (ws : list (gmap string Any)) (symbol : string)
    (interval : KlineInterval) : list TimeBar * option Exn :=
  relay (fun raw => normalizers.to_futures_time_bar raw symbol interval)
    (binance_futures.stream_klines ws).

Definition live_funding_rates (ws : list (gmap string Any))
  : list FundingRate * option Exn :=
  relay normalizers.to_current_funding_rate (binance_futures.stream_mark_price ws).

Definition live_trades (ws : list (gmap string Any)) (symbol : string)
  : list Trade * option Exn :=
  relay (fun raw => normalizers.to_trade raw symbol)
    (binance_futures.stream_trades ws).

End BinanceFuturesClient.

(* ===================================================================== *)
(** ** Orders and positions ([execution/types.py])                        *)
(* ===================================================================== *)

Module execution.

Inductive OrderSide : Type := BUY | SELL.

Inductive OrderType : Type :=
  | LIMIT | MARKET | STOP_LOSS | STOP_LOSS_LIMIT | TAKE_PROFIT
  | TAKE_PROFIT_LIMIT.

Inductive TimeInForce : Type := GTT | IOC | POST_ONLY.

(** The values of the three string enumerations. *)
Definition OrderSide_value (s : OrderSide) : string :=
  match s with BUY => "buy" | SELL => "sell" end.

Definition OrderType_value (t : OrderType) : string :=
  match t with
  | LIMIT => "limit"
  | MARKET => "market"
  | STOP_LOSS => "stop-loss"
  | STOP_LOSS_LIMIT => "stop-loss-limit"
  | TAKE_PROFIT => "take-profit"
  | TAKE_PROFIT_LIMIT => "take-profit-limit"
  end.

Definition TimeInForce_value (t : TimeInForce) : string :=
  match t with
  | GTT => "good-till-time"
  | IOC => "immediate-or-cancel"
  | POST_ONLY => "post-only"
  end.

Record Order : Type := mkOrder {
  symbol : string;
  side : OrderSide;
  order_type : OrderType;
  quantity : Decimal;
  price : Decimal;
  time_in_force : TimeInForce;
  client_order_id : option string
}.

Record PerpOrder : Type := mkPerpOrder {
  perp_order :> Order;
  reduce_only : bool;
  trigger_price : option Decimal;
  order_expiry : Z
}.

Record EquityOrder : Type := mkEquityOrder {
  equity_order :> Order;
  exchange : string;
  currency : string
}.

Record FXOrder : Type := mkFXOrder {
  fx_order :> Order;
  quantity_is_base : bool
}.

(** An instance of [Order] or of one of its subclasses. *)
Inductive AnyOrder : Type :=
  | IsOrder (o : Order)
  | IsPerpOrder (o : PerpOrder)
  | IsEquityOrder (o : EquityOrder)
  | IsFXOrder (o : FXOrder).

(** The text of [OrderResult.error]: what the exchange reported, or the
    message of a broker about an order id that it cannot read (the
    wording of that message is not modelled, the id it quotes is). *)
Inductive ErrorText : Type :=
  | Reported (err : string)
  | InvalidOrderIdFormat (order_id : string).

Record OrderResult : Type := mkOrderResult {
  order_id : option string;
  order : option AnyOrder;
  error : option ErrorText
}.

Definition ok (r : OrderResult) : bool :=
  match error r with
  | None => true
  | Some _ => false
  end.

Record Position : Type := mkPosition {
  pos_symbol : string;
  pos_quantity : Decimal;
  avg_entry_price : Decimal;
  unrealized_pnl : Decimal;
  realized_pnl : Decimal
}.

Record PerpPosition : Type := mkPerpPosition {
  perp_position :> Position;
  liquidation_price : option Decimal;
  funding_paid : option Decimal;
  mark_price : option Decimal
}.

End execution.

(* ===================================================================== *)
(** ** The Lighter broker ([execution/brokers/lighter.py])                *)
(* ===================================================================== *)

(** The decimal text of an integer. *)
Definition Z_str (n : Z) : string :=
  if n <? 0 then ("-" ++ digits_of_N (Z.to_N (- n)))%string
  else digits_of_N (Z.to_N n).

(** [str(n)] and [f"{n}"]: the interpreter refuses to write an integer of
    more than 4300 digits ([sys.int_max_str_digits]). *)
Definition int_str (n : Z) : Result string :=
  if 10 ^ 4300 <=? Z.abs n then Raise ValueError else Ok (Z_str n).

(** [s.split(sep, 1)] when it has two parts: the text before the first
    separator and the text after it; [None] when [s] has no separator (the
    result then has one part only). *)
Fixpoint split_once (sep : ascii) (s : string) : option (string * string) :=
  match s with
  | EmptyString => None
  | String c r =>
      if Ascii.eqb c sep then Some (EmptyString, r)
      else match split_once sep r with
           | Some (before, after) => Some (String c before, after)
           | None => None
           end
  end.

(** [int(d)] for a decimal: the fraction is dropped. *)
Definition Decimal_int (d : Decimal) : Z :=
  if 0 <=? d_exp d then signed d * 10 ^ d_exp d
  else Z.quot (signed d) (10 ^ (- d_exp d)).

(** The default context of [decimal]: 28 digits of precision and exponents
    from [Emin = -999999] to [Emax = 999999].  The result of an operation
    whose coefficient has at most 28 digits and whose exponent lies between
    [Emin] and [Emax - 27] is not rounded. *)
Definition fits_context (d : Decimal) : bool :=
  (d_int d <? 10 ^ 28)%N && (-999999 <=? d_exp d) && (d_exp d <=? 999972).

(** The truth value of a decimal: it is not zero. *)
Definition Decimal_bool (d : Decimal) : bool := negb (d_int d =? 0)%N.

(** [d[key]] and [d.get(key)] on a dictionary written as the list of its
    items, in insertion order (a dictionary holds one item per key). *)
Fixpoint items_get {A : Type} (items : list (string * A)) (key : string)
  : option A :=
  match items with
  | [] => None
  | (k, v) :: rest => if String.eqb k key then Some v else items_get rest key
  end.

(** [[f(x) for x in l]], which raises as soon as one call does. *)
Fixpoint map_result {A B : Type} (f : A -> Result B) (l : list A)
  : Result (list B) :=
  match l with
  | [] => Ok []
  | x :: rest =>
      let* y := f x in
      let* ys := map_result f rest in
      Ok (y :: ys)
  end.

(** The parts of the Lighter SDK that the broker uses.  The models of the
    SDK declare their fields with strict types, so a field holds a text, an
    integer or a boolean as annotated. *)
Module lighter_sdk.

Record Order : Type := mkOrder {
  order_index : Z;
  market_index : Z;
  initial_base_amount : string;
  price : string;
  is_ask : bool;
  type : string;
  time_in_force : string;
  reduce_only : bool;
  trigger_price : string;
  order_expiry : Z
}.

Record AccountPosition : Type := mkAccountPosition {
  market_id : Z;
  sign : Z;
  position : string;
  avg_entry_price : string;
  unrealized_pnl : string;
  realized_pnl : string;
  liquidation_price : string;
  total_funding_paid_out : option string
}.

Record Account : Type := mkAccount {
  positions : option (list AccountPosition)
}.

(** The prices of the two sides of an order book, best first. *)
Record OrderBookOrders : Type := mkOrderBookOrders {
  bids : list string;
  asks : list string
}.

(** A transaction that the signer signs and sends, with its arguments in
    the order of the call. *)
Inductive Transaction : Type :=
  | create_order (market_index client_order_index base_amount price : Z)
      (is_ask : bool) (order_type time_in_force : Z) (reduce_only : bool)
      (trigger_price order_expiry : Z)
  | cancel_order (market_index order_index : Z)
  | cancel_all_orders (time_in_force timestamp_ms : Z).

(** What the signer returns besides the transaction: the hash of the
    response, if there is a response, and the error, if there is one. *)
Record Reply : Type := mkReply {
  tx_hash : option string;
  err : option string
}.

(** The signer: its constants and the answer of the exchange to each
    transaction. *)
Record SignerClient : Type := mkSignerClient {
  ORDER_TYPE_LIMIT : Z;
  ORDER_TYPE_MARKET : Z;
  ORDER_TYPE_STOP_LOSS : Z;
  ORDER_TYPE_STOP_LOSS_LIMIT : Z;
  ORDER_TYPE_TAKE_PROFIT : Z;
  ORDER_TYPE_TAKE_PROFIT_LIMIT : Z;
  ORDER_TIME_IN_FORCE_IMMEDIATE_OR_CANCEL : Z;
  ORDER_TIME_IN_FORCE_GOOD_TILL_TIME : Z;
  ORDER_TIME_IN_FORCE_POST_ONLY : Z;
  NIL_TRIGGER_PRICE : Z;
  CANCEL_ALL_TIF_IMMEDIATE : Z;
  send : Transaction -> Reply
}.

(** The two read-only interfaces: the active orders of an account on a
    market, the first orders of the book of a market, and the accounts
    found for a key and a value. *)
Record OrderApi : Type := mkOrderApi {
  account_active_orders : Z -> Z -> list Order;
  order_book_orders : Z -> Z -> OrderBookOrders
}.

Record AccountApi : Type := mkAccountApi {
  account : string -> string -> list Account
}.

End lighter_sdk.

Module lighter.

Import execution.

Definition _ORDER_TYPE (signer : lighter_sdk.SignerClient) (t : OrderType) : Z :=
  match t with
  | LIMIT => lighter_sdk.ORDER_TYPE_LIMIT signer
  | MARKET => lighter_sdk.ORDER_TYPE_MARKET signer
  | STOP_LOSS => lighter_sdk.ORDER_TYPE_STOP_LOSS signer
  | STOP_LOSS_LIMIT => lighter_sdk.ORDER_TYPE_STOP_LOSS_LIMIT signer
  | TAKE_PROFIT => lighter_sdk.ORDER_TYPE_TAKE_PROFIT signer
  | TAKE_PROFIT_LIMIT => lighter_sdk.ORDER_TYPE_TAKE_PROFIT_LIMIT signer
  end.

Definition _TIF (signer : lighter_sdk.SignerClient) (t : TimeInForce) : Z :=
  match t with
  | IOC => lighter_sdk.ORDER_TIME_IN_FORCE_IMMEDIATE_OR_CANCEL signer
  | GTT => lighter_sdk.ORDER_TIME_IN_FORCE_GOOD_TILL_TIME signer
  | POST_ONLY => lighter_sdk.ORDER_TIME_IN_FORCE_POST_ONLY signer
  end.

Definition _LIGHTER_TYPE_MAP : list (string * OrderType) :=
  [("limit", LIMIT); ("market", MARKET); ("stop-loss", STOP_LOSS);
   ("stop-loss-limit", STOP_LOSS_LIMIT); ("take-profit", TAKE_PROFIT);
   ("take-profit-limit", TAKE_PROFIT_LIMIT)].

Definition _LIGHTER_TIF_MAP : list (string * TimeInForce) :=
  [("good-till-time", GTT); ("immediate-or-cancel", IOC);
   ("post-only", POST_ONLY)].

(** The state of a broker. *)
Record LighterBroker : Type := mkLighterBroker {
  _signer : lighter_sdk.SignerClient;
  _order_api : lighter_sdk.OrderApi;
  _account_api : lighter_sdk.AccountApi;
  _account_index : Z;
  _symbol_map : list (string * Z);
  _index_map : gmap Z string;
  _price_scale : Z;
  _base_scale : Z
}.

(** [__init__], given the three handles that it builds from the address
    and the keys.  [price_decimals] is a natural number: the scale is an
    integer. *)
Definition __init__ (signer : lighter_sdk.SignerClient)
    (order_api : lighter_sdk.OrderApi) (account_api : lighter_sdk.AccountApi)
    (account_index : Z) (symbol_map : list (string * Z))
    (price_decimals : N) (base_scale : Z) : LighterBroker :=
  {| _signer := signer;
     _order_api := order_api;
     _account_api := account_api;
     _account_index := account_index;
     _symbol_map := symbol_map;
     _index_map := foldl (fun m kv => <[ snd kv := fst kv ]> m) ∅ symbol_map;
     _price_scale := 10 ^ Z.of_N price_decimals;
     _base_scale := base_scale |}.

Definition _to_int (value : Decimal) (scale : Z) : Z :=
  Decimal_int (Dmul value (Decimal_of_int scale)).

Definition _to_perp_order (raw : lighter_sdk.Order) (symbol : string)
    (price_scale base_scale : Z) : Result PerpOrder :=
  let* trigger_raw := Decimal_of_str (lighter_sdk.trigger_price raw) in
  let* quantity := Decimal_of_str (lighter_sdk.initial_base_amount raw) in
  let* price := Decimal_of_str (lighter_sdk.price raw) in
  let* market_str := int_str (lighter_sdk.market_index raw) in
  let* index_str := int_str (lighter_sdk.order_index raw) in
  Ok {| perp_order :=
          {| symbol := symbol;
             side := if lighter_sdk.is_ask raw then SELL else BUY;
             order_type :=
               default LIMIT (items_get _LIGHTER_TYPE_MAP (lighter_sdk.type raw));
             quantity := quantity;
             price := price;
             time_in_force :=
               default GTT
                 (items_get _LIGHTER_TIF_MAP (lighter_sdk.time_in_force raw));
             client_order_id := Some (market_str ++ ":" ++ index_str)%string |};
        reduce_only := lighter_sdk.reduce_only raw;
        trigger_price :=
          if Decimal_bool trigger_raw then Some trigger_raw else None;
        order_expiry := lighter_sdk.order_expiry raw |}.

(** [Decimal(text) if text else None]. *)
Definition Decimal_if_given (text : string) : Result (option Decimal) :=
  if String.eqb text "" then Ok None
  else let* d := Decimal_of_str text in Ok (Some d).

Definition _to_perp_position (raw : lighter_sdk.AccountPosition) (symbol : string)
  : Result PerpPosition :=
  let* position := Decimal_of_str (lighter_sdk.position raw) in
  let signed_qty := Dmul position (Decimal_of_int (lighter_sdk.sign raw)) in
  let* avg_entry_price := Decimal_of_str (lighter_sdk.avg_entry_price raw) in
  let* unrealized_pnl := Decimal_of_str (lighter_sdk.unrealized_pnl raw) in
  let* realized_pnl := Decimal_of_str (lighter_sdk.realized_pnl raw) in
  let* liquidation_price :=
    Decimal_if_given (lighter_sdk.liquidation_price raw) in
  let* funding_paid :=
    match lighter_sdk.total_funding_paid_out raw with
    | Some text => Decimal_if_given text
    | None => Ok None
    end in
  Ok {| perp_position :=
          {| pos_symbol := symbol;
             pos_quantity := signed_qty;
             avg_entry_price := avg_entry_price;
             unrealized_pnl := unrealized_pnl;
             realized_pnl := realized_pnl |};
        liquidation_price := liquidation_price;
        funding_paid := funding_paid;
        mark_price := None |}.

Section Methods.

Variable self : LighterBroker.

Definition _resolve (symbol : string) : Result Z :=
  match items_get (_symbol_map self) symbol with
  | Some market_index => Ok market_index
  | None => Raise ValueError
  end.

(** The end of the three trading methods: the result for the reply of the
    signer, with the order to echo. *)
Definition result_of (reply : lighter_sdk.Reply) (order : option AnyOrder)
  : OrderResult :=
  match lighter_sdk.err reply with
  | Some err =>
      if String.eqb err "" then
        {| order_id := lighter_sdk.tx_hash reply; order := order; error := None |}
      else {| order_id := None; order := order; error := Some (Reported err) |}
  | None =>
      {| order_id := lighter_sdk.tx_hash reply; order := order; error := None |}
  end.

(** The trading methods return, with their result, the transactions that
    they have sent to the signer. *)
Definition place_order (order : AnyOrder)
  : list lighter_sdk.Transaction * Result OrderResult :=
  match order with
  | IsPerpOrder o =>
      match (let* market_index := _resolve (symbol o) in
             let* client_idx :=
               match client_order_id o with
               | Some text =>
                   if String.eqb text "" then Ok 0 else py_int (AStr text)
               | None => Ok 0
               end in
             Ok (market_index, client_idx)) with
      | Raise e => ([], Raise e)
      | Ok (market_index, client_idx) =>
          let trigger :=
            match trigger_price o with
            | Some p => _to_int p (_price_scale self)
            | None => lighter_sdk.NIL_TRIGGER_PRICE (_signer self)
            end in
          let tx :=
            lighter_sdk.create_order market_index client_idx
              (_to_int (quantity o) (_base_scale self))
              (_to_int (price o) (_price_scale self))
              (match side o with SELL => true | BUY => false end)
              (_ORDER_TYPE (_signer self) (order_type o))
              (_TIF (_signer self) (time_in_force o))
              (reduce_only o) trigger (order_expiry o) in
          ([tx], Ok (result_of (lighter_sdk.send (_signer self) tx) (Some order)))
      end
  | _ => ([], Raise TypeError)
  end.

(** The two integers that [cancel_order] reads in an order id. *)
Definition parse_order_id (order_id : string) : Result (Z * Z) :=
  match split_once ":" order_id with
  | Some (market_str, index_str) =>
      let* market_index := py_int (AStr market_str) in
      let* order_index := py_int (AStr index_str) in
      Ok (market_index, order_index)
  | None => Raise ValueError
  end.

Definition cancel_order (order_id : string)
  : list lighter_sdk.Transaction * Result OrderResult :=
  match parse_order_id order_id with
  | Ok (market_index, order_index) =>
      let tx := lighter_sdk.cancel_order market_index order_index in
      ([tx], Ok (result_of (lighter_sdk.send (_signer self) tx) None))
  | Raise ValueError =>
      ([], Ok {| order_id := None;
                 order := None;
                 error := Some (InvalidOrderIdFormat order_id) |})
  | Raise e => ([], Raise e)
  end.

(** [cancel_all_orders], with the reading [now] of the clock (a float, in
    seconds). *)
Definition cancel_all_orders (symbol : option string) (now : Q)
  : list lighter_sdk.Transaction * Result OrderResult :=
  let timestamp_ms := truncate (binary64 (now * 1000)) in
  let tx :=
    lighter_sdk.cancel_all_orders
      (lighter_sdk.CANCEL_ALL_TIF_IMMEDIATE (_signer self)) timestamp_ms in
  ([tx], Ok (result_of (lighter_sdk.send (_signer self) tx) None)).

(** The loop of [open_orders] over the markets. *)
Fixpoint orders_of (markets : list (string * Z)) : Result (list PerpOrder) :=
  match markets with
  | [] => Ok []
  | (sym, market_index) :: rest =>
      let resp :=
        lighter_sdk.account_active_orders (_order_api self)
          (_account_index self) market_index in
      let* here :=
        map_result
          (fun raw => _to_perp_order raw sym (_price_scale self) (_base_scale self))
          resp in
      let* later := orders_of rest in
      Ok (here ++ later)
  end.

Definition open_orders (symbol : option string) : Result (list PerpOrder) :=
  let* markets :=
    match symbol with
    | Some s => let* market_index := _resolve s in Ok [(s, market_index)]
    | None => Ok (_symbol_map self)
    end in
  orders_of markets.

(** The loop of [position] over the positions of the first account. *)
Fixpoint position_of (positions : list lighter_sdk.AccountPosition)
    (market_index : Z) (symbol : string) : Result (option PerpPosition) :=
  match positions with
  | [] => Ok None
  | raw :: rest =>
      if lighter_sdk.market_id raw =? market_index then
        let* p := _to_perp_position raw symbol in Ok (Some p)
      else position_of rest market_index symbol
  end.

Definition position (symbol : string) : Result (option PerpPosition) :=
  let* market_index := _resolve symbol in
  let* value := int_str (_account_index self) in
  match lighter_sdk.account (_account_api self) "index" value with
  | [] => Ok None
  | first :: _ =>
      position_of (default [] (lighter_sdk.positions first)) market_index symbol
  end.

Definition best_bid (symbol : string) : Result Decimal :=
  let* market_index := _resolve symbol in
  match lighter_sdk.bids
          (lighter_sdk.order_book_orders (_order_api self) market_index 1) with
  | [] => Raise IndexError
  | best :: _ => Decimal_of_str best
  end.

Definition best_ask (symbol : string) : Result Decimal :=
  let* market_index := _resolve symbol in
  match lighter_sdk.asks
          (lighter_sdk.order_book_orders (_order_api self) market_index 1) with
  | [] => Raise IndexError
  | best :: _ => Decimal_of_str best
  end.

End Methods.

End lighter.

(* ===================================================================== *)
(** ** Specification-level notions for the further properties             *)
(* ===================================================================== *)





(** The rows of the responses of a run, in the order received. *)
Definition rows_received {Row : Type}
    (exchanges : list (Request * Result (list Row))) : list Row :=
  concat (map (fun ex => match snd ex with
                         | Ok batch => batch
                         | Raise _ => []
                         end) exchanges).

(** A response that is a page of at least [page] rows. *)
Definition full_page {Row : Type} (page : Z)
    (exchange : Request * Result (list Row)) : Prop :=
  exists batch, snd exchange = Ok batch /\ page <= Z.of_nat (length batch).

(** The exception of a response. *)
Definition transport_error {Row : Type} (e : Exn)
    (exchange : Request * Result (list Row)) : Prop :=
  snd exchange = Raise e.

(** A stream followed by another one: the records of [first], and those of
    [later] unless [first] has ended with an exception. *)
Definition stream_then {A : Type} (first later : list A * option Exn)
  : list A * option Exn :=
  match snd first with
  | Some _ => first
  | None => (fst first ++ fst later, snd later)
  end.

(** The duration in seconds that the text of an interval denotes: a number
    of minutes ([m]), hours ([h]), days ([d]), weeks ([w]) or months ([M],
    counted as thirty days). *)
Definition unit_seconds (unit : string) : option Z :=
  if String.eqb unit "m" then Some 60
  else if String.eqb unit "h" then Some 3600
  else if String.eqb unit "d" then Some 86400
  else if String.eqb unit "w" then Some 604800
  else if String.eqb unit "M" then Some 2592000
  else None.

Definition denoted_seconds (text : string) : option Z :=
  let '(count, unit) := span_digits text in
  match count, unit_seconds unit with
  | String _ _, Some s => Some (Z.of_N (N_of_digits count) * s)
  | _, _ => None
  end.

(* ===================================================================== *)
(** ** Further fixtures                                                   *)
(* ===================================================================== *)

(** A message of the trade stream. *)
Definition ws_trade_message : gmap string Any :=
  list_to_map
    [("e", AStr "trade"); ("E", AInt 1672515782136); ("s", AStr "BTCUSDT");
     ("t", AInt 12345); ("p", AStr "0.00100000"); ("q", AStr "100.5");
     ("T", AInt 1672515782136); ("m", ABool true); ("M", ABool true)].

(** The [i]-th row of a response of the recent-trades endpoint: a trade of
    quantity [q] at price [100 + i], one second after the previous one. *)
Definition rest_trade_row (i q : Z) : gmap string Any :=
  list_to_map
    [("id", AInt i); ("price", AStr (Z_str (100 + i)));
     ("qty", AStr (Z_str q)); ("quoteQty", AStr (Z_str ((100 + i) * q)));
     ("time", AInt (1000 * i)); ("isBuyerMaker", ABool false)].

(** An exchange with seven recent trades, of quantities 1, 1, 1, 2, 1, 1, 1. *)
Definition seven_recent_trades : Client (list (gmap string Any)) :=
  fun _ =>
    Ok [rest_trade_row 0 1; rest_trade_row 1 1; rest_trade_row 2 1;
        rest_trade_row 3 2; rest_trade_row 4 1; rest_trade_row 5 1;
        rest_trade_row 6 1].

(** An exchange with one funding settlement, at time 100. *)
Definition one_funding_record : Client (list (gmap string Any)) :=
  fun request =>
    match startTime request with
    | Some cursor =>
        if cursor <=? 100 then
          Ok [list_to_map
                [("symbol", AStr "BTCUSDT"); ("fundingTime", AInt 100);
                 ("fundingRate", AStr "0.00010000"); ("markPrice", AStr "42000.5")]]
        else Ok []
    | None => Raise HTTPStatusError
    end.

(** A signer whose exchange accepts every transaction (the values of the
    constants stand for those of the SDK), an order as the exchange lists
    it, and a broker for one market. *)
Definition accepting_signer : lighter_sdk.SignerClient :=
  {| lighter_sdk.ORDER_TYPE_LIMIT := 0;
     lighter_sdk.ORDER_TYPE_MARKET := 1;
     lighter_sdk.ORDER_TYPE_STOP_LOSS := 2;
     lighter_sdk.ORDER_TYPE_STOP_LOSS_LIMIT := 3;
     lighter_sdk.ORDER_TYPE_TAKE_PROFIT := 4;
     lighter_sdk.ORDER_TYPE_TAKE_PROFIT_LIMIT := 5;
     lighter_sdk.ORDER_TIME_IN_FORCE_IMMEDIATE_OR_CANCEL := 0;
     lighter_sdk.ORDER_TIME_IN_FORCE_GOOD_TILL_TIME := 1;
     lighter_sdk.ORDER_TIME_IN_FORCE_POST_ONLY := 2;
     lighter_sdk.NIL_TRIGGER_PRICE := 0;
     lighter_sdk.CANCEL_ALL_TIF_IMMEDIATE := 0;
     lighter_sdk.send :=
       fun _ => {| lighter_sdk.tx_hash := Some "0xabc"; lighter_sdk.err := None |} |}.

Definition listed_order : lighter_sdk.Order :=
  {| lighter_sdk.order_index := 42;
     lighter_sdk.market_index := 1;
     lighter_sdk.initial_base_amount := "0.1";
     lighter_sdk.price := "2500.50";
     lighter_sdk.is_ask := false;
     lighter_sdk.type := "limit";
     lighter_sdk.time_in_force := "good-till-time";
     lighter_sdk.reduce_only := false;
     lighter_sdk.trigger_price := "0";
     lighter_sdk.order_expiry := -1 |}.

Definition sample_broker : lighter.LighterBroker :=
  lighter.__init__ accepting_signer
    {| lighter_sdk.account_active_orders := fun _ _ => [listed_order];
       lighter_sdk.order_book_orders :=
         fun _ _ => {| lighter_sdk.bids := ["2500.00"];
                       lighter_sdk.asks := ["2500.50"] |} |}
    {| lighter_sdk.account := fun _ _ => [] |}
    123 [("ETH-USDC", 1)] 2 100000000.

(** The order of the docstring of the broker: a limit order to buy 0.1 ETH
    at 2500.00. *)
Definition docstring_order : execution.PerpOrder :=
  {| execution.perp_order :=
       {| execution.symbol := "ETH-USDC";
          execution.side := execution.BUY;
          execution.order_type := execution.LIMIT;
          execution.quantity := mkDecimal false 1 (-1);
          execution.price := mkDecimal false 250000 (-2);
          execution.time_in_force := execution.GTT;
          execution.client_order_id := None |};
     execution.reduce_only := false;
     execution.trigger_price := None;
     execution.order_expiry := -1 |}.

(** An exchange with one kline, which opens at 0 and closes at 9. *)
Definition one_kline : Client (list (list Any)) :=
  fun request =>
    match startTime request with
    | Some cursor =>
        if cursor <=? 0 then Ok [kline_row (sample_kline 0)] else Ok []
    | None => Raise HTTPStatusError
    end.
(* ===================================================================== *)
(** * Properties                                                          *)
(* ===================================================================== *)

(** ** Decimal arithmetic denotes rational arithmetic *)

Section DecimalFacts.

Local Open Scope Q_scope.

Lemma ten_pow_pos (e : Z) : 0 < Qpower 10 e.
Proof. apply Qpower_0_lt. reflexivity. Qed.

Lemma aligned_val (d : Decimal) (e : Z) :
  (e <= d_exp d)%Z -> inject_Z (aligned d e) * Qpower 10 e == Dval d.
Proof.
  intros He. unfold aligned, Dval.
  rewrite inject_Z_mult, Zpower_Qpower by lia.
  rewrite <- Qmult_assoc, <- Qpower_plus by discriminate.
  replace (d_exp d - e + e)%Z with (d_exp d) by lia. reflexivity.
Qed.

Lemma signed_of_signed (z e : Z) : signed (of_signed z e) = z.
Proof.
  unfold signed, of_signed; simpl.
  rewrite Z2N.id by lia. destruct (Z.ltb_spec z 0); lia.
Qed.

Lemma Dval_of_signed (z e : Z) : Dval (of_signed z e) = inject_Z z * Qpower 10 e.
Proof. unfold Dval. rewrite signed_of_signed. reflexivity. Qed.

Lemma Dval_of_int_0 : Dval (Decimal_of_int 0) == 0.
Proof. reflexivity. Qed.

Lemma signed_zero (d : Decimal) : d_int d = 0%N -> signed d = 0%Z.
Proof. unfold signed. intros ->. destruct (d_sign d); reflexivity. Qed.

Lemma Dval_zero (d : Decimal) : d_int d = 0%N -> Dval d == 0.
Proof. intros H. unfold Dval. rewrite (signed_zero d H). apply Qmult_0_l. Qed.

Lemma Dval_add (a b : Decimal) : Dval (Dadd a b) == Dval a + Dval b.
Proof.
  unfold Dadd.
  destruct (N.eqb_spec (d_int a) 0) as [Ha|Ha]; simpl.
  - destruct (N.eqb_spec (d_int b) 0) as [Hb|Hb]; simpl.
    + rewrite (Dval_zero a Ha), (Dval_zero b Hb).
      unfold Dval, signed; simpl. destruct (d_sign a && d_sign b); apply Qmult_0_l.
    + rewrite Dval_of_signed, inject_Z_plus, Qmult_plus_distr_l.
      rewrite !aligned_val by lia. reflexivity.
  - rewrite Dval_of_signed, inject_Z_plus, Qmult_plus_distr_l.
    rewrite !aligned_val by lia. reflexivity.
Qed.

Lemma signed_mul (a b : Decimal) : signed (Dmul a b) = (signed a * signed b)%Z.
Proof.
  unfold signed, Dmul; simpl. rewrite N2Z.inj_mul.
  destruct (d_sign a), (d_sign b); simpl; lia.
Qed.

Lemma Dval_mul (a b : Decimal) : Dval (Dmul a b) == Dval a * Dval b.
Proof.
  unfold Dval at 1. rewrite signed_mul, inject_Z_mult. simpl d_exp.
  rewrite Qpower_plus by discriminate. unfold Dval. ring.
Qed.

Lemma Dleb_spec (a b : Decimal) : Dleb a b = true <-> Dval a <= Dval b.
Proof.
  unfold Dleb. set (e := Z.min (d_exp a) (d_exp b)).
  rewrite <- (aligned_val a e), <- (aligned_val b e) by lia.
  rewrite Qmult_le_r by apply ten_pow_pos.
  rewrite <- Zle_Qle. apply Z.leb_le.
Qed.

Lemma Dltb_spec (a b : Decimal) : Dltb a b = true <-> Dval a < Dval b.
Proof.
  unfold Dltb. set (e := Z.min (d_exp a) (d_exp b)).
  rewrite <- (aligned_val a e), <- (aligned_val b e) by lia.
  rewrite Qmult_lt_r by apply ten_pow_pos.
  rewrite <- Zlt_Qlt. apply Z.ltb_lt.
Qed.

Lemma Dgeb_false (a b : Decimal) : Dgeb a b = false <-> Dval a < Dval b.
Proof.
  unfold Dgeb. rewrite <- not_true_iff_false, Dleb_spec. split.
  - apply Qnot_le_lt.
  - apply Qlt_not_le.
Qed.

Lemma Dltb_false (a b : Decimal) : Dltb a b = false <-> Dval b <= Dval a.
Proof.
  rewrite <- not_true_iff_false, Dltb_spec. split.
  - apply Qnot_lt_le.
  - apply Qle_not_lt.
Qed.

End DecimalFacts.

(** ** Tick bars *)

Section TickBars.

Import bars.




End TickBars.

(** ** The seven-trade scenario *)

Section Scenario.

Import bars.
Local Open Scope Q_scope.

Lemma make_volume_bar_ok (bucket : list Trade) (threshold : Decimal) :
  bucket <> [] ->
  exists bar, _make_volume_bar bucket threshold = Ok bar
    /\ bar_trade_count bar = Z.of_nat (length bucket)
    /\ bar_volume bar = py_sum (map quantity bucket) (Decimal_of_int 0).
Proof.
  destruct bucket as [|t0 rest]; [congruence|].
  intros _. eexists. repeat split.
Qed.

(** Decides one closure test of the volume loop from the values of the
    quantities seen so far. *)
Local Ltac volume_test H1 H2 H3 H4 H5 H6 H7 Hthr :=
  match goal with
  | |- context [Dgeb ?c ?t] =>
      let E := fresh "E" in
      destruct (Dgeb c t) eqn:E;
      [ apply Dleb_spec in E | apply Dgeb_false in E ];
      rewrite ?Dval_add, ?Dval_of_int_0 in E;
      rewrite ?H1, ?H2, ?H3, ?H4, ?H5, ?H6, ?H7, Hthr in E;
      try (exfalso; lra); clear E
  end.

(** C8. Seven trades with quantities 1,1,1,2,1,1,1 and a volume threshold
    of 4 give exactly one bar; it is the bar of the first four trades
    (cumulative volume 5, trade count 4), and the last three trades
    (cumulative volume 3, below the threshold) end up in no bar. *)
Theorem volume_scenario_seven_trades
    (t1 t2 t3 t4 t5 t6 t7 : Trade) (threshold : Decimal) :
  Dval (quantity t1) == 1 -> Dval (quantity t2) == 1 ->
  Dval (quantity t3) == 1 -> Dval (quantity t4) == 2 ->
  Dval (quantity t5) == 1 -> Dval (quantity t6) == 1 ->
  Dval (quantity t7) == 1 -> Dval threshold == 4 ->
  exists bar,
    build_volume_bars [t1; t2; t3; t4; t5; t6; t7] threshold = Ok [bar]
    /\ _make_volume_bar [t1; t2; t3; t4] threshold = Ok bar
    /\ bar_trade_count bar = 4%Z
    /\ Dval (bar_volume bar) == 5
    /\ 4 <= Dval (bar_volume bar)
    /\ Dval (py_sum (map quantity [t5; t6; t7]) (Decimal_of_int 0)) == 3.
Proof.
  intros H1 H2 H3 H4 H5 H6 H7 Hthr.
  destruct (make_volume_bar_ok [t1; t2; t3; t4] threshold) as (bar & Hbar & Hcnt & Hvol);
    [discriminate|].
  assert (Hv : Dval (bar_volume bar) == 5).
  { rewrite Hvol. unfold py_sum; simpl fold_left.
    rewrite !Dval_add, Dval_of_int_0, H1, H2, H3, H4. reflexivity. }
  exists bar. split.
  - unfold build_volume_bars. cbn [volume_loop app].
    do 3 volume_test H1 H2 H3 H4 H5 H6 H7 Hthr.
    volume_test H1 H2 H3 H4 H5 H6 H7 Hthr.
    rewrite Hbar. cbn [bind app].
    do 3 volume_test H1 H2 H3 H4 H5 H6 H7 Hthr.
    reflexivity.
  - split; [exact Hbar|]. split; [exact Hcnt|]. split; [exact Hv|].
    split; [rewrite Hv; lra|].
    unfold py_sum; simpl fold_left.
    rewrite !Dval_add, Dval_of_int_0, H5, H6, H7. reflexivity.
Qed.

End Scenario.

(** ** The invariants of a synthesised bar *)

Section BarInvariants.

Import bars.
Local Open Scope Q_scope.

Lemma max_from_ge_cur (l : list Decimal) :
  forall cur, Dval cur <= Dval (max_from cur l).
Proof.
  induction l as [|x r IH]; intros cur; simpl.
  - apply Qle_refl.
  - unfold Dgtb. destruct (Dltb cur x) eqn:E.
    + apply Dltb_spec in E. specialize (IH x). lra.
    + apply IH.
Qed.

Lemma max_from_ge_elem (l : list Decimal) :
  forall cur x, x ∈ l -> Dval x <= Dval (max_from cur l).
Proof.
  induction l as [|y r IH]; intros cur x Hx; [inversion Hx|].
  simpl. unfold Dgtb. apply elem_of_cons in Hx as [->|Hx]; [|apply IH, Hx].
  destruct (Dltb cur y) eqn:E.
  - apply max_from_ge_cur.
  - apply Dltb_false in E. pose proof (max_from_ge_cur r cur). lra.
Qed.

Lemma min_from_le_cur (l : list Decimal) :
  forall cur, Dval (min_from cur l) <= Dval cur.
Proof.
  induction l as [|x r IH]; intros cur; simpl.
  - apply Qle_refl.
  - destruct (Dltb x cur) eqn:E.
    + apply Dltb_spec in E. specialize (IH x). lra.
    + apply IH.
Qed.

Lemma min_from_le_elem (l : list Decimal) :
  forall cur x, x ∈ l -> Dval (min_from cur l) <= Dval x.
Proof.
  induction l as [|y r IH]; intros cur x Hx; [inversion Hx|].
  simpl. apply elem_of_cons in Hx as [->|Hx]; [|apply IH, Hx].
  destruct (Dltb y cur) eqn:E.
  - apply min_from_le_cur.
  - apply Dltb_false in E. pose proof (min_from_le_cur r cur). lra.
Qed.

Lemma last_elem {A : Type} (l : list A) (d : A) :
  l <> [] -> List.last l d ∈ l.
Proof.
  induction l as [|x r IH]; [congruence|]. intros _.
  destruct r as [|y r'].
  - apply elem_of_cons. left. reflexivity.
  - apply elem_of_cons. right. apply IH. discriminate.
Qed.

Lemma py_sum_ge_start (l : list Decimal) :
  Forall (fun d => 0 <= Dval d) l ->
  forall start, Dval start <= Dval (py_sum l start).
Proof.
  unfold py_sum. induction 1 as [|x r Hx _ IH]; intros start; simpl.
  - apply Qle_refl.
  - specialize (IH (Dadd start x)). rewrite Dval_add in IH. lra.
Qed.

Lemma make_tick_bar_cons (t0 : Trade) (rest : list Trade) (threshold : Z) :
  _make_tick_bar (t0 :: rest) threshold
  = Ok (mkTickBar (bucket_bar t0 rest) threshold).
Proof. reflexivity. Qed.

Lemma make_volume_bar_cons (t0 : Trade) (rest : list Trade) (threshold : Decimal) :
  _make_volume_bar (t0 :: rest) threshold
  = Ok (mkVolumeBar (bucket_bar t0 rest) threshold).
Proof. reflexivity. Qed.

Lemma make_dollar_bar_cons (t0 : Trade) (rest : list Trade) (threshold : Decimal) :
  _make_dollar_bar (t0 :: rest) threshold
  = Ok (mkDollarBar (bucket_bar t0 rest) threshold).
Proof. reflexivity. Qed.

Lemma bucket_bar_invariant (t0 : Trade) (rest : list Trade) :
  chronological (t0 :: rest) ->
  Forall (fun t => Dleb (Decimal_of_int 0) (quantity t) = true) (t0 :: rest) ->
  bar_invariant (bucket_bar t0 rest).
Proof.
  intros Hchron Hqty.
  assert (Hlast : List.last (t0 :: rest) t0 ∈ t0 :: rest)
    by (apply last_elem; discriminate).
  unfold bar_invariant, bucket_bar; cbn [bar_low bar_open bar_high bar_close
    bar_volume bar_trade_count bar_timestamp bar_close_time].
  rewrite !Dleb_spec.
  split; [apply min_from_le_cur|]. split; [apply max_from_ge_cur|].
  split; [|split; [|split; [|split]]].
  - apply elem_of_cons in Hlast as [->|Hlast]; [apply min_from_le_cur|].
    apply min_from_le_elem, list_elem_of_fmap. eauto.
  - apply elem_of_cons in Hlast as [->|Hlast]; [apply max_from_ge_cur|].
    apply max_from_ge_elem, list_elem_of_fmap. eauto.
  - apply py_sum_ge_start.
    apply Forall_fmap. eapply Forall_impl; [exact Hqty|].
    intros t Ht; simpl. apply Dleb_spec in Ht. rewrite Dval_of_int_0 in Ht. exact Ht.
  - simpl length. lia.
  - apply StronglySorted_cons in Hchron as [Hfirst _].
    apply elem_of_cons in Hlast as [->|Hlast]; [lia|].
    rewrite Forall_forall in Hfirst. apply Hfirst, Hlast.
Qed.


(** The same invariants for the bars that the three aggregators return:
    each bucket they close is a non-empty run of consecutive trades. *)
Lemma chronological_snoc_rest (bucket : list Trade) (trade : Trade)
    (rest : list Trade) :
  chronological (bucket ++ trade :: rest) ->
  chronological (bucket ++ [trade]) /\ chronological ([] ++ rest).
Proof.
  unfold chronological. intros H.
  replace (bucket ++ trade :: rest) with ((bucket ++ [trade]) ++ rest) in H
    by (rewrite <- app_assoc; reflexivity).
  split.
  - eapply StronglySorted_app_1_l, H.
  - eapply StronglySorted_app_1_r, H.
Qed.

Lemma nonneg_snoc_rest (bucket : list Trade) (trade : Trade) (rest : list Trade) :
  Forall (fun t => Dleb (Decimal_of_int 0) (quantity t) = true)
         (bucket ++ trade :: rest) ->
  Forall (fun t => Dleb (Decimal_of_int 0) (quantity t) = true) (bucket ++ [trade])
  /\ Forall (fun t => Dleb (Decimal_of_int 0) (quantity t) = true) ([] ++ rest).
Proof.
  intros H.
  replace (bucket ++ trade :: rest) with ((bucket ++ [trade]) ++ rest) in H
    by (rewrite <- app_assoc; reflexivity).
  apply Forall_app in H. exact H.
Qed.

Lemma snoc_bucket_bar_invariant (bucket : list Trade) (trade : Trade) :
  chronological (bucket ++ [trade]) ->
  Forall (fun t => Dleb (Decimal_of_int 0) (quantity t) = true) (bucket ++ [trade]) ->
  exists t0 rest,
    bucket ++ [trade] = t0 :: rest /\ bar_invariant (bucket_bar t0 rest).
Proof.
  intros Hc Hq. destruct (bucket ++ [trade]) as [|t0 rest] eqn:E.
  - destruct bucket; discriminate.
  - exists t0, rest. split; [reflexivity|]. apply bucket_bar_invariant; assumption.
Qed.

Lemma tick_loop_invariants (threshold : Z) (trades : list Trade) :
  forall (acc : list TickBar) (bucket : list Trade) (out : list TickBar),
  chronological (bucket ++ trades) ->
  Forall (fun t => Dleb (Decimal_of_int 0) (quantity t) = true) (bucket ++ trades) ->
  Forall (fun bar : TickBar => bar_invariant bar) acc ->
  tick_loop trades threshold acc bucket = Ok out ->
  Forall (fun bar : TickBar => bar_invariant bar) out.
Proof.
  induction trades as [|trade rest IH]; intros acc bucket out Hc Hq Hacc Hloop.
  - simpl in Hloop. injection Hloop as <-. exact Hacc.
  - cbn [tick_loop] in Hloop.
    destruct (chronological_snoc_rest _ _ _ Hc) as [Hc1 Hc2].
    destruct (nonneg_snoc_rest _ _ _ Hq) as [Hq1 Hq2].
    destruct (Z.of_nat (length (bucket ++ [trade])) >=? threshold).
    + destruct (snoc_bucket_bar_invariant bucket trade Hc1 Hq1) as (t0 & r & E & Hinv).
      rewrite E, make_tick_bar_cons in Hloop. cbn [bind] in Hloop.
      apply (IH _ [] _ Hc2 Hq2) in Hloop; [exact Hloop|].
      apply Forall_app. split; [exact Hacc|]. constructor; [exact Hinv|constructor].
    + apply (IH acc (bucket ++ [trade]) out); try assumption;
        rewrite <- app_assoc; assumption.
Qed.

Lemma volume_loop_invariants (threshold : Decimal) (trades : list Trade) :
  forall (acc : list VolumeBar) (bucket : list Trade) (cum : Decimal)
         (out : list VolumeBar),
  chronological (bucket ++ trades) ->
  Forall (fun t => Dleb (Decimal_of_int 0) (quantity t) = true) (bucket ++ trades) ->
  Forall (fun bar : VolumeBar => bar_invariant bar) acc ->
  volume_loop trades threshold acc bucket cum = Ok out ->
  Forall (fun bar : VolumeBar => bar_invariant bar) out.
Proof.
  induction trades as [|trade rest IH]; intros acc bucket cum out Hc Hq Hacc Hloop.
  - simpl in Hloop. injection Hloop as <-. exact Hacc.
  - cbn [volume_loop] in Hloop.
    destruct (chronological_snoc_rest _ _ _ Hc) as [Hc1 Hc2].
    destruct (nonneg_snoc_rest _ _ _ Hq) as [Hq1 Hq2].
    destruct (Dgeb (Dadd cum (quantity trade)) threshold).
    + destruct (snoc_bucket_bar_invariant bucket trade Hc1 Hq1) as (t0 & r & E & Hinv).
      rewrite E, make_volume_bar_cons in Hloop. cbn [bind] in Hloop.
      eapply (IH _ []); [exact Hc2|exact Hq2| |exact Hloop].
      apply Forall_app. split; [exact Hacc|]. constructor; [exact Hinv|constructor].
    + eapply (IH acc (bucket ++ [trade])); [| |exact Hacc|exact Hloop];
        rewrite <- app_assoc; assumption.
Qed.

Lemma dollar_loop_invariants (threshold : Decimal) (trades : list Trade) :
  forall (acc : list DollarBar) (bucket : list Trade) (cum : Decimal)
         (out : list DollarBar),
  chronological (bucket ++ trades) ->
  Forall (fun t => Dleb (Decimal_of_int 0) (quantity t) = true) (bucket ++ trades) ->
  Forall (fun bar : DollarBar => bar_invariant bar) acc ->
  dollar_loop trades threshold acc bucket cum = Ok out ->
  Forall (fun bar : DollarBar => bar_invariant bar) out.
Proof.
  induction trades as [|trade rest IH]; intros acc bucket cum out Hc Hq Hacc Hloop.
  - simpl in Hloop. injection Hloop as <-. exact Hacc.
  - cbn [dollar_loop] in Hloop.
    destruct (chronological_snoc_rest _ _ _ Hc) as [Hc1 Hc2].
    destruct (nonneg_snoc_rest _ _ _ Hq) as [Hq1 Hq2].
    destruct (Dgeb (Dadd cum (Dmul (price trade) (quantity trade))) threshold).
    + destruct (snoc_bucket_bar_invariant bucket trade Hc1 Hq1) as (t0 & r & E & Hinv).
      rewrite E, make_dollar_bar_cons in Hloop. cbn [bind] in Hloop.
      eapply (IH _ []); [exact Hc2|exact Hq2| |exact Hloop].
      apply Forall_app. split; [exact Hacc|]. constructor; [exact Hinv|constructor].
    + eapply (IH acc (bucket ++ [trade])); [| |exact Hacc|exact Hloop];
        rewrite <- app_assoc; assumption.
Qed.

(** Every bar that the aggregators return for chronologically ordered
    trades with non-negative quantities satisfies the invariants. *)
Corollary built_bars_invariants (trades : list Trade)
    (tick_thr : Z) (volume_thr dollar_thr : Decimal) :
  chronological trades ->
  Forall (fun t => Dleb (Decimal_of_int 0) (quantity t) = true) trades ->
  (forall out, build_tick_bars trades tick_thr = Ok out ->
     Forall (fun bar : TickBar => bar_invariant bar) out)
  /\ (forall out, build_volume_bars trades volume_thr = Ok out ->
        Forall (fun bar : VolumeBar => bar_invariant bar) out)
  /\ (forall out, build_dollar_bars trades dollar_thr = Ok out ->
        Forall (fun bar : DollarBar => bar_invariant bar) out).
Proof.
  intros Hc Hq. split; [|split]; intros out Hout.
  - eapply (tick_loop_invariants tick_thr trades [] []); eauto.
  - eapply (volume_loop_invariants volume_thr trades [] []); eauto.
  - eapply (dollar_loop_invariants dollar_thr trades [] []); eauto.
Qed.

End BarInvariants.

(** ** Threshold crossing of volume and dollar bars *)

Section ThresholdCrossing.

Import bars.
Local Open Scope Q_scope.

Variable contribution : Trade -> Decimal.
Variable threshold : Decimal.
Hypothesis threshold_pos : Dltb (Decimal_of_int 0) threshold = true.





End ThresholdCrossing.

Section ThresholdCrossingBars.

Import bars.






End ThresholdCrossingBars.

(** ** Pagination over a dataset *)

Section ListFacts.

Context {A : Type}.

Lemma filter_all (P : A -> Prop) `{!forall x, Decision (P x)} (l : list A) :
  Forall P l -> filter P l = l.
Proof.
  induction 1 as [|x l Hx _ IH]; [reflexivity|].
  rewrite filter_cons_True by exact Hx. rewrite IH. reflexivity.
Qed.

Lemma filter_none (P : A -> Prop) `{!forall x, Decision (P x)} (l : list A) :
  Forall (fun x => ~ P x) l -> filter P l = [].
Proof.
  induction 1 as [|x l Hx _ IH]; [reflexivity|].
  rewrite filter_cons_False by exact Hx. exact IH.
Qed.

Lemma StronglySorted_filter_keep (R : A -> A -> Prop) (P : A -> Prop)
    `{!forall x, Decision (P x)} (l : list A) :
  StronglySorted R l -> StronglySorted R (filter P l).
Proof.
  induction 1 as [|x l _ IH Hx]; [constructor|].
  rewrite filter_cons. destruct (decide (P x)); [|exact IH].
  constructor; [exact IH|].
  rewrite Forall_forall in *. intros y [_ Hy]%list_elem_of_filter. apply Hx, Hy.
Qed.

Lemma Forall_filter_keep (Q : A -> Prop) (P : A -> Prop)
    `{!forall x, Decision (P x)} (l : list A) :
  Forall Q l -> Forall Q (filter P l).
Proof.
  rewrite !Forall_forall. intros HQ x [_ Hx]%list_elem_of_filter. apply HQ, Hx.
Qed.

End ListFacts.

(** In a chained list every kline closes no later than the last one. *)
Lemma chain_close_le_last (l : list RawKline.t) (r : RawKline.t) :
  StronglySorted
    (fun a b => RawKline.close_time_ms a < RawKline.open_time_ms b) l ->
  Forall (fun k => RawKline.open_time_ms k <= RawKline.close_time_ms k) l ->
  last l = Some r ->
  Forall (fun a => RawKline.close_time_ms a <= RawKline.close_time_ms r) l.
Proof.
  intros Hs Hoc [front ->]%last_Some.
  apply StronglySorted_app in Hs as (Hcross & _ & _).
  apply Forall_app in Hoc as [_ Hr]. apply Forall_inv in Hr.
  apply Forall_app. split.
  - apply Forall_forall. intros a Ha.
    assert (RawKline.close_time_ms a < RawKline.open_time_ms r).
    { apply Hcross; [exact Ha|]. apply list_elem_of_singleton. reflexivity. }
    lia.
  - constructor; [lia|constructor].
Qed.

Section Pagination.

Import connectors.

Variable rest_path : string.
Variable page : Z.
Hypothesis page_pos : 1 <= page.
Variable dataset : list RawKline.t.
Hypothesis chain : kline_chain dataset.
Variable symbol : string.
Variable interval : KlineInterval.
Variable end_ms : Z.

Lemma parse_kline_row (k : RawKline.t) : _parse_rest_kline (kline_row k) = Ok k.
Proof. destruct k; reflexivity. Qed.

Lemma yield_each_kline_rows (l : list RawKline.t) :
  yield_each _parse_rest_kline (map kline_row l) = (l, None).
Proof.
  induction l as [|k l IH]; [reflexivity|].
  cbn [map yield_each]. rewrite parse_kline_row, IH. reflexivity.
Qed.

Lemma last_kline_row_close (l : list RawKline.t) (r : RawKline.t) :
  last l = Some r ->
  (let* row := list_last (map kline_row l) in
   let* x6 := list_getitem row 6 in py_int x6) = Ok (RawKline.close_time_ms r).
Proof.
  intros Hlast. unfold list_last.
  assert (Hl : last (map kline_row l) = Some (kline_row r)).
  { apply last_Some in Hlast as [l' ->]. rewrite map_app. apply last_snoc. }
  rewrite Hl. reflexivity.
Qed.

(** The klines covered from a cursor on, within a chained dataset. *)
Lemma unpaged_chain (cursor : Z) :
  StronglySorted
    (fun a b => RawKline.close_time_ms a < RawKline.open_time_ms b)
    (unpaged_fetch dataset cursor end_ms)
  /\ Forall (fun k => RawKline.open_time_ms k <= RawKline.close_time_ms k)
       (unpaged_fetch dataset cursor end_ms)
  /\ Forall (covered cursor end_ms) (unpaged_fetch dataset cursor end_ms).
Proof.
  destruct chain as [Hs Hoc]. unfold unpaged_fetch. split; [|split].
  - apply StronglySorted_filter_keep, Hs.
  - apply Forall_filter_keep, Hoc.
  - apply Forall_forall. intros k [Hk _]%list_elem_of_filter. exact Hk.
Qed.

(** Advancing the cursor past the close time of the last kline of a page
    leaves exactly the klines after that page. *)
Lemma window_after_page (cursor : Z) (n : nat) (r : RawKline.t) :
  last (take n (unpaged_fetch dataset cursor end_ms)) = Some r ->
  unpaged_fetch dataset (RawKline.close_time_ms r + 1) end_ms
  = drop n (unpaged_fetch dataset cursor end_ms).
Proof.
  intros Hlast.
  destruct (unpaged_chain cursor) as (Hs & Hoc & Hcov).
  set (rem := unpaged_fetch dataset cursor end_ms) in *.
  apply last_Some in Hlast as [front Hfront].
  assert (Hsplit : rem = (front ++ [r]) ++ drop n rem)
    by (rewrite <- Hfront; symmetry; apply take_drop).
  assert (Hr : r ∈ rem).
  { rewrite Hsplit. apply elem_of_app. left. apply elem_of_app. right.
    apply list_elem_of_singleton. reflexivity. }
  rewrite Forall_forall in Hoc, Hcov.
  pose proof (Hoc r Hr) as Hr_oc. pose proof (Hcov r Hr) as Hr_cov.
  unfold covered in Hr_cov.
  transitivity (filter (fun k => RawKline.close_time_ms r + 1 <= RawKline.open_time_ms k) rem).
  { unfold rem, unpaged_fetch. rewrite list_filter_filter.
    apply list_filter_iff. intros k. unfold covered. lia. }
  rewrite Hsplit at 1. rewrite filter_app.
  rewrite Hsplit in Hs. apply StronglySorted_app in Hs as (Hcross & Hfr & _).
  rewrite filter_none, filter_all; [reflexivity| |].
  - apply Forall_forall. intros b Hb.
    assert (RawKline.close_time_ms r < RawKline.open_time_ms b).
    { apply Hcross; [|exact Hb]. apply elem_of_app. right.
      apply list_elem_of_singleton. reflexivity. }
    lia.
  - apply Forall_forall. intros a Ha.
    apply elem_of_app in Ha as [Ha|Ha%list_elem_of_singleton].
    + apply StronglySorted_app in Hfr as (Hfr & _ & _).
      assert (RawKline.close_time_ms a < RawKline.open_time_ms r).
      { apply Hfr; [exact Ha|]. apply list_elem_of_singleton. reflexivity. }
      assert (a ∈ rem).
      { rewrite Hsplit. apply elem_of_app. left. apply elem_of_app. left. exact Ha. }
      pose proof (Hoc a ltac:(assumption)). lia.
    + subst a. lia.
Qed.

Let n : nat := Z.to_nat page.

Let request (cursor : Z) : Request :=
  {| path := rest_path;
     param_symbol := symbol;
     param_interval := Some (interval_value interval);
     startTime := Some cursor;
     endTime := Some end_ms;
     limit := Some page |}.

Let loop (fuel : nat) (cursor : Z) : Run RawKline.t (list (list Any)) :=
  klines_loop rest_path page (serve_klines dataset) fuel symbol interval
    end_ms cursor.


Lemma loop_short (fuel : nat) (cursor : Z) :
  cursor < end_ms ->
  (length (unpaged_fetch dataset cursor end_ms) < n)%nat ->
  loop (S fuel) cursor
  = mkRun (unpaged_fetch dataset cursor end_ms)
      [(request cursor, Ok (map kline_row (unpaged_fetch dataset cursor end_ms)))]
      Completed.
Proof.
  intros Hlt Hshort. unfold loop. cbn [klines_loop].
  destruct (Z.ltb_spec cursor end_ms); [|lia].
  cbn [serve_klines startTime endTime limit]. fold n.
  rewrite take_ge by lia. rewrite yield_each_kline_rows, length_map.
  destruct (Z.ltb_spec (Z.of_nat (length (unpaged_fetch dataset cursor end_ms))) page);
    [reflexivity|lia].
Qed.

Lemma loop_full (fuel : nat) (cursor : Z) (r : RawKline.t) :
  cursor < end_ms ->
  (n <= length (unpaged_fetch dataset cursor end_ms))%nat ->
  last (take n (unpaged_fetch dataset cursor end_ms)) = Some r ->
  loop (S fuel) cursor
  = mkRun
      (take n (unpaged_fetch dataset cursor end_ms)
         ++ emitted (loop fuel (RawKline.close_time_ms r + 1)))
      ((request cursor,
        Ok (map kline_row (take n (unpaged_fetch dataset cursor end_ms))))
         :: exchanges (loop fuel (RawKline.close_time_ms r + 1)))
      (outcome (loop fuel (RawKline.close_time_ms r + 1))).
Proof.
  intros Hlt Hfull Hlast. unfold loop. cbn [klines_loop].
  destruct (Z.ltb_spec cursor end_ms); [|lia].
  cbn [serve_klines startTime endTime limit]. fold n.
  rewrite yield_each_kline_rows, length_map, length_take.
  destruct (Z.ltb_spec
              (Z.of_nat (n `min` length (unpaged_fetch dataset cursor end_ms))) page);
    [lia|].
  rewrite (last_kline_row_close _ r Hlast). reflexivity.
Qed.

Lemma full_page_has_last (cursor : Z) :
  (n <= length (unpaged_fetch dataset cursor end_ms))%nat ->
  exists r, last (take n (unpaged_fetch dataset cursor end_ms)) = Some r
            /\ r ∈ unpaged_fetch dataset cursor end_ms.
Proof.
  intros Hfull.
  destruct (last (take n (unpaged_fetch dataset cursor end_ms))) as [r|] eqn:E.
  - exists r. split; [reflexivity|].
    apply last_Some in E as [front Hfront].
    rewrite <- (take_drop n (unpaged_fetch dataset cursor end_ms)), Hfront.
    apply elem_of_app. left. apply elem_of_app. right.
    apply list_elem_of_singleton. reflexivity.
  - apply last_None in E. apply (f_equal length) in E.
    rewrite length_take in E. simpl in E. unfold n in *. lia.
Qed.


(** With [k] full pages covered and the range still open after each of
    them, the loop issues [k + 1] requests and the last response is
    empty. *)
Lemma loop_exact_pages (k : nat) :
  forall (fuel : nat) (cursor : Z),
  length (unpaged_fetch dataset cursor end_ms) = (k * n)%nat ->
  cursor < end_ms ->
  Forall (fun r => RawKline.close_time_ms r + 1 < end_ms)
         (unpaged_fetch dataset cursor end_ms) ->
  (k < fuel)%nat ->
  emitted (loop fuel cursor) = unpaged_fetch dataset cursor end_ms
  /\ outcome (loop fuel cursor) = Completed
  /\ length (exchanges (loop fuel cursor)) = S k
  /\ exists req, last (exchanges (loop fuel cursor)) = Some (req, Ok []).
Proof.
  assert (Hn : (1 <= n)%nat) by (unfold n; lia).
  induction k as [|k IH]; intros fuel cursor Hlen Hlt Hopen Hfuel;
    (destruct fuel as [|fuel]; [lia|]).
  - rewrite loop_short by (try assumption; lia).
    cbn [emitted outcome exchanges].
    assert (Hnil : unpaged_fetch dataset cursor end_ms = [])
      by (apply nil_length_inv; lia).
    rewrite Hnil. repeat split. exists (request cursor). reflexivity.
  - assert (Hfull : (n <= length (unpaged_fetch dataset cursor end_ms))%nat)
      by (rewrite Hlen; simpl; lia).
    destruct (full_page_has_last cursor Hfull) as (r & Hlast & Hr).
    rewrite (loop_full fuel cursor r Hlt Hfull Hlast).
    cbn [emitted outcome exchanges].
    pose proof (window_after_page cursor n r Hlast) as Hwin.
    destruct (IH fuel (RawKline.close_time_ms r + 1)) as (Hem & Hout & Hex & req & Hreq).
    + rewrite Hwin, length_drop, Hlen. simpl. lia.
    + rewrite Forall_forall in Hopen. apply Hopen, Hr.
    + rewrite Hwin. apply Forall_drop, Hopen.
    + lia.
    + rewrite Hem, Hout, Hwin, take_drop. split; [reflexivity|].
      split; [reflexivity|]. split; [simpl; rewrite Hex; reflexivity|].
      exists req.
      destruct (exchanges (loop fuel (RawKline.close_time_ms r + 1))) as [|x xs] eqn:E;
        [discriminate|].
      rewrite last_cons_cons. exact Hreq.
Qed.

End Pagination.

Section PaginationClaims.

Import connectors.

Lemma sample_klines_from_chain (count : nat) :
  forall first : nat,
  kline_chain (map (fun i => sample_kline (Z.of_nat i)) (seq first count)).
Proof.
  unfold kline_chain.
  induction count as [|count IH]; intros first; simpl.
  - split; constructor.
  - destruct (IH (S first)) as [Hs Hoc]. split.
    + constructor; [exact Hs|].
      apply Forall_forall. intros k Hk.
      apply list_elem_of_fmap in Hk as (i & -> & Hi).
      apply elem_of_seq in Hi. simpl. lia.
    + constructor; [simpl; lia|exact Hoc].
Qed.

Lemma sample_klines_chain (count : nat) : kline_chain (sample_klines count).
Proof. apply sample_klines_from_chain. Qed.

(** A page cap of 3 against a ten-record fixture. *)
Example paged_fixture_three_by_ten :
  emitted (fetch_klines "/api/v3/klines" 3 (serve_klines (sample_klines 10))
             5 "BTCUSDT" M1 0 1000)
  = sample_klines 10
  /\ length (exchanges (fetch_klines "/api/v3/klines" 3
                          (serve_klines (sample_klines 10))
                          5 "BTCUSDT" M1 0 1000)) = 4%nat.
Proof. split; vm_compute; reflexivity. Qed.



(** C6. When the number of klines covered by [[start_ms, end_ms]] is a
    positive multiple of the page capacity and the range is still open
    after the last of them ([close time + 1 < end_ms]), [fetch_klines]
    issues exactly [size / page + 1] requests, and the response to the last
    one holds no record. *)
Theorem exact_multiple_costs_one_empty_page
    (rest_path : string) (page : Z) (dataset : list RawKline.t)
    (symbol : string) (interval : KlineInterval) (start_ms end_ms : Z)
    (fuel : nat) :
  1 <= page ->
  kline_chain dataset ->
  let size := length (unpaged_fetch dataset start_ms end_ms) in
  (0 < size)%nat ->
  (size mod Z.to_nat page = 0)%nat ->
  (exists r, last (unpaged_fetch dataset start_ms end_ms) = Some r
             /\ RawKline.close_time_ms r + 1 < end_ms) ->
  (size / Z.to_nat page < fuel)%nat ->
  let run := fetch_klines rest_path page (serve_klines dataset) fuel symbol
               interval start_ms end_ms in
  outcome run = Completed
  /\ emitted run = unpaged_fetch dataset start_ms end_ms
  /\ length (exchanges run) = (size / Z.to_nat page + 1)%nat
  /\ exists req, last (exchanges run) = Some (req, Ok []).
Proof.
  intros Hpage Hchain size Hpos Hmod (r & Hlast & Hopen) Hfuel run.
  assert (Hn : Z.to_nat page <> 0%nat) by lia.
  destruct (unpaged_chain dataset Hchain end_ms start_ms) as (Hs & Hoc & Hcov).
  pose proof (chain_close_le_last _ r Hs Hoc Hlast) as Hle.
  assert (Hr : r ∈ unpaged_fetch dataset start_ms end_ms).
  { apply last_Some in Hlast as [front ->]. apply elem_of_app. right.
    apply list_elem_of_singleton. reflexivity. }
  assert (Hstart : start_ms < end_ms).
  { rewrite Forall_forall in Hoc, Hcov.
    pose proof (Hoc r Hr). pose proof (Hcov r Hr) as Hc. unfold covered in Hc. lia. }
  destruct (loop_exact_pages rest_path page Hpage dataset Hchain symbol interval
              end_ms (size / Z.to_nat page) fuel start_ms)
    as (Hem & Hout & Hex & Hreq).
  - fold size. rewrite Nat.mul_comm. apply Nat.Div0.div_exact. exact Hmod.
  - exact Hstart.
  - eapply Forall_impl; [exact Hle|]. intros a Ha. simpl in Ha. lia.
  - exact Hfuel.
  - subst run. unfold fetch_klines. rewrite Hout, Hem, Hex.
    split; [reflexivity|]. split; [reflexivity|]. split; [lia|exact Hreq].
Qed.

(** C4, as stated, fails for funding rates: with [start_ms = end_ms] the
    generator still issues a request. *)
Lemma funding_rates_request_on_empty_range :
  5 >= 5
  /\ length (exchanges (binance_futures.fetch_funding_rates no_funding_records
                          1 "BTCUSDT" 5 (Some 5))) = 1%nat.
Proof. split; [lia|reflexivity]. Qed.

(** C4, amended.  [fetch_klines], for spot and for futures, yields nothing
    and issues no request when [start_ms >= end_ms].
    [fetch_funding_rates] has no such guard: whatever the range, it issues a
    first request, from [start_ms] and with the given end. *)
Theorem empty_range_issues_no_kline_request
    (rest_path : string) (page : Z) (client : Client (list (list Any)))
    (funding_client : Client (list (gmap string Any)))
    (symbol : string) (interval : KlineInterval) (start_ms end_ms : Z)
    (funding_end : option Z) (fuel : nat) :
  end_ms <= start_ms ->
  (0 < fuel)%nat ->
  fetch_klines rest_path page client fuel symbol interval start_ms end_ms
  = mkRun [] [] Completed
  /\ binance.fetch_klines client fuel symbol interval start_ms end_ms
     = mkRun [] [] Completed
  /\ binance_futures.fetch_klines client fuel symbol interval start_ms end_ms
     = mkRun [] [] Completed
  /\ exists request response later,
       exchanges (binance_futures.fetch_funding_rates funding_client fuel
                    symbol start_ms funding_end)
       = (request, response) :: later
       /\ startTime request = Some start_ms
       /\ endTime request = funding_end.
Proof.
  intros Hrange Hfuel. destruct fuel as [|fuel]; [lia|].
  assert (Hk : forall path p,
             fetch_klines path p client (S fuel) symbol interval start_ms end_ms
             = mkRun [] [] Completed).
  { intros path p. unfold fetch_klines. cbn [klines_loop].
    destruct (Z.ltb_spec start_ms end_ms); [lia|reflexivity]. }
  split; [apply Hk|]. split; [apply Hk|]. split; [apply Hk|].
  unfold binance_futures.fetch_funding_rates. cbn [binance_futures.funding_loop].
  destruct (funding_client _) as [batch|e] eqn:Eresp.
  - destruct (yield_each binance_futures._parse_funding_rate batch) as [rates [e|]].
    + eexists _, _, _. split; [reflexivity|]. split; reflexivity.
    + destruct (Z.of_nat (length batch) <? binance_futures._FUNDING_PAGE).
      * eexists _, _, _. split; [reflexivity|]. split; reflexivity.
      * destruct (let* row := list_last batch in
                  let* x := dict_getitem row "fundingTime" in py_int x);
          eexists _, _, _; (split; [reflexivity|]; split; reflexivity).
  - eexists _, _, _. split; [reflexivity|]. split; reflexivity.
Qed.

End PaginationClaims.

(** ** The stream filter *)

Section StreamFilter.

Import connectors.

Lemma yield_each_all {A B : Type} (parse : A -> Result B) (ws : list A) :
  Forall (fun data => exists x, parse data = Ok x) ws ->
  exists out,
    yield_each parse ws = (out, None)
    /\ Forall2 (fun data x => parse data = Ok x) ws out.
Proof.
  induction 1 as [|data ws [x Hx] _ (out & Hout & Hall)].
  - exists []. split; [reflexivity|constructor].
  - exists (x :: out). cbn [yield_each]. rewrite Hx, Hout.
    split; [reflexivity|]. constructor; assumption.
Qed.

Lemma stream_klines_final (ws : list (gmap string Any)) :
  Forall kline_message ws ->
  exists out,
    stream_klines ws = (out, None)
    /\ Forall2 carries_kline (filter (fun data => is_final data = true) ws) out.
Proof.
  induction 1 as [|data ws (k & x & Hk & Hx & Hparse) _ (out & Hout & Hall)].
  - exists []. split; [reflexivity|constructor].
  - cbn [stream_klines]. unfold dict_getitem. rewrite Hk.
    cbn [bind]. rewrite Hx. cbn [bind].
    assert (Hfinal : is_final data = truthy x)
      by (unfold is_final; rewrite Hk, Hx; reflexivity).
    destruct (truthy x).
    + destruct (Hparse eq_refl) as [kline Hkline]. rewrite Hkline. cbn [bind].
      rewrite Hout. exists (kline :: out). split; [reflexivity|].
      rewrite filter_cons_True by exact Hfinal.
      constructor; [|exact Hall]. exists k. split; assumption.
    + rewrite Hout. exists out. split; [reflexivity|].
      rewrite filter_cons_False by (rewrite Hfinal; discriminate). exact Hall.
Qed.

(** C10. On a feed of well-formed kline messages the stream filter yields
    the klines of exactly the messages whose indicator [x] is true, in
    arrival order, and nothing for the partial updates; so it yields as many
    records as there are final messages.  The trade stream and the
    mark-price stream yield one record for every message. *)
Theorem stream_filter_forwards_final_only :
  (forall ws : list (gmap string Any),
     Forall kline_message ws ->
     exists out,
       stream_klines ws = (out, None)
       /\ Forall2 carries_kline (filter (fun data => is_final data = true) ws) out
       /\ length out = length (filter (fun data => is_final data = true) ws))
  /\ (forall ws : list (gmap string Any),
        Forall (fun data => exists t, _parse_ws_trade data = Ok t) ws ->
        exists out,
          stream_trades ws = (out, None)
          /\ Forall2 (fun data t => _parse_ws_trade data = Ok t) ws out
          /\ length out = length ws)
  /\ (forall ws : list (gmap string Any),
        Forall (fun data =>
                  exists m, binance_futures._parse_ws_mark_price data = Ok m) ws ->
        exists out,
          binance_futures.stream_mark_price ws = (out, None)
          /\ Forall2 (fun data m =>
                        binance_futures._parse_ws_mark_price data = Ok m) ws out
          /\ length out = length ws).
Proof.
  split; [|split].
  - intros ws Hws. destruct (stream_klines_final ws Hws) as (out & Hout & Hall).
    exists out. split; [exact Hout|]. split; [exact Hall|].
    symmetry. eapply Forall2_length, Hall.
  - intros ws Hws. destruct (yield_each_all _parse_ws_trade ws Hws) as (out & Hout & Hall).
    exists out. split; [exact Hout|]. split; [exact Hall|].
    symmetry. eapply Forall2_length, Hall.
  - intros ws Hws.
    destruct (yield_each_all binance_futures._parse_ws_mark_price ws Hws)
      as (out & Hout & Hall).
    exists out. split; [exact Hout|]. split; [exact Hall|].
    symmetry. eapply Forall2_length, Hall.
Qed.

End StreamFilter.

(** ** Missing fields and failing conversions *)

Section MissingFields.

Import connectors.

Lemma dict_getitem_missing (row : gmap string Any) (key : string) :
  row !! key = None -> dict_getitem row key = Raise (KeyError key).
Proof. unfold dict_getitem. intros ->. reflexivity. Qed.









(** *** Texts with a character that no numeric string has *)











Lemma has_foreign_nonempty (s : string) :
  has_foreign_char s = true -> s <> EmptyString.
Proof. destruct s; [discriminate|congruence]. Qed.




Lemma substring_whole (s : string) : substring 0 (String.length s) s = s.
Proof. induction s as [|c r IH]; [reflexivity|]. simpl. rewrite IH. reflexivity. Qed.



Lemma substring_after (p rest : string) :
  substring (String.length p) (String.length (p ++ rest) - String.length p)
    (p ++ rest)
  = rest.
Proof.
  induction p as [|a p IH]; simpl.
  - rewrite Nat.sub_0_r. apply substring_whole.
  - exact IH.
Qed.




End MissingFields.

Section ConversionFailures.

Import connectors.








End ConversionFailures.

(** ** Decimal texts *)

Section DecimalText.

Lemma span_digits_app (ds rest : string) :
  digits_only ds = true -> starts_nondigit rest ->
  span_digits (ds ++ rest) = (ds, rest).
Proof.
  induction ds as [|c r IH]; intros Hd Hr.
  - destruct rest as [|c r]; [reflexivity|]. simpl in *. rewrite Hr. reflexivity.
  - simpl in Hd. apply andb_true_iff in Hd as [Hc Hd].
    simpl. rewrite Hc, (IH Hd Hr). reflexivity.
Qed.

Lemma digits_only_uint (u : Decimal.uint) :
  digits_only (NilEmpty.string_of_uint u) = true.
Proof. induction u; simpl; try assumption; reflexivity. Qed.

Lemma digits_of_N_uint (n : N) :
  digits_of_N n = NilEmpty.string_of_uint (N.to_uint n)
  /\ N.to_uint n <> Decimal.Nil.
Proof.
  unfold digits_of_N, NilZero.string_of_uint.
  destruct n as [|p]; [split; [reflexivity|discriminate]|].
  pose proof (DecimalPos.Unsigned.to_uint_nonnil p) as Hp.
  simpl. destruct (Pos.to_uint p); [congruence|..]; split; (reflexivity || discriminate).
Qed.

Lemma digits_only_digits_of_N (n : N) : digits_only (digits_of_N n) = true.
Proof. rewrite (proj1 (digits_of_N_uint n)). apply digits_only_uint. Qed.

Lemma digits_of_N_nonempty (n : N) : digits_of_N n <> EmptyString.
Proof.
  destruct (digits_of_N_uint n) as [-> Hn].
  destruct (N.to_uint n); [congruence|..]; discriminate.
Qed.

Lemma N_of_digits_of_N (n : N) : N_of_digits (digits_of_N n) = n.
Proof.
  unfold N_of_digits. rewrite (proj1 (digits_of_N_uint n)), NilEmpty.usu.
  apply DecimalN.Unsigned.of_to.
Qed.

Lemma N_of_digits_zero (s : string) : N_of_digits (String "0" s) = N_of_digits s.
Proof.
  unfold N_of_digits. simpl.
  destruct (NilEmpty.uint_of_string s); reflexivity.
Qed.

Lemma string_app_cons (c : ascii) (r s : string) :
  (String c r ++ s)%string = String c (r ++ s).
Proof. reflexivity. Qed.

Lemma string_app_nil_l (s : string) : ("" ++ s)%string = s.
Proof. reflexivity. Qed.

Lemma N_of_digits_zeros (k : nat) (s : string) :
  N_of_digits (zeros k ++ s) = N_of_digits s.
Proof.
  induction k as [|k IH]; [reflexivity|].
  cbn [zeros]. rewrite string_app_cons, N_of_digits_zero. exact IH.
Qed.

Lemma digits_only_zeros (k : nat) : digits_only (zeros k) = true.
Proof. induction k; [reflexivity|exact IHk]. Qed.

Lemma digits_only_app (a b : string) :
  digits_only (a ++ b) = digits_only a && digits_only b.
Proof.
  induction a as [|c r IH]; [reflexivity|].
  simpl. rewrite IH. apply andb_assoc.
Qed.

Lemma length_zeros (k : nat) : String.length (zeros k) = k.
Proof. induction k; simpl; congruence. Qed.

Lemma string_length_app (a b : string) :
  String.length (a ++ b) = (String.length a + String.length b)%nat.
Proof.
  induction a as [|x a IH]; [reflexivity|].
  rewrite !string_app_cons. simpl. rewrite IH. reflexivity.
Qed.

Lemma string_app_nil_r (a : string) : (a ++ "")%string = a.
Proof.
  induction a as [|x a IH]; [reflexivity|].
  rewrite !string_app_cons. simpl. rewrite IH. reflexivity.
Qed.

Lemma string_app_assoc (a b c : string) : ((a ++ b) ++ c = a ++ (b ++ c))%string.
Proof.
  induction a as [|x a IH]; [reflexivity|].
  rewrite !string_app_cons. simpl. rewrite IH. reflexivity.
Qed.

Lemma substring_split (s : string) :
  forall k : nat, (k <= String.length s)%nat ->
  (substring 0 k s ++ substring k (String.length s - k) s)%string = s
  /\ String.length (substring 0 k s) = k.
Proof.
  induction s as [|c r IH]; intros k Hk.
  - destruct k; [split; reflexivity|simpl in Hk; lia].
  - destruct k as [|k].
    + simpl. rewrite substring_whole. split; reflexivity.
    + simpl in Hk. destruct (IH k ltac:(lia)) as [H1 H2].
      simpl. rewrite string_app_cons, H1, H2. split; reflexivity.
Qed.

Lemma digits_only_substring (s : string) :
  digits_only s = true ->
  forall k : nat, (k <= String.length s)%nat ->
  digits_only (substring 0 k s) = true
  /\ digits_only (substring k (String.length s - k) s) = true.
Proof.
  intros Hs k Hk. destruct (substring_split s k Hk) as [Hsplit _].
  rewrite <- Hsplit, digits_only_app in Hs. apply andb_true_iff in Hs. exact Hs.
Qed.


Lemma clean_app (a b : string) : clean (a ++ b) = clean a && clean b.
Proof.
  induction a as [|c r IH]; [reflexivity|].
  rewrite string_app_cons. simpl. rewrite IH. apply andb_assoc.
Qed.

Lemma digit_is_clean (c : ascii) :
  is_digit c = true -> negb (is_space c) && negb (Ascii.eqb c "_") = true.
Proof. destruct c as [[] [] [] [] [] [] [] []]; vm_compute; congruence. Qed.

Lemma digits_clean (s : string) : digits_only s = true -> clean s = true.
Proof.
  induction s as [|c r IH]; [reflexivity|]. simpl.
  intros [Hc Hr]%andb_true_iff. rewrite (digit_is_clean c Hc), (IH Hr). reflexivity.
Qed.

Lemma clean_lstrip (s : string) : clean s = true -> lstrip s = s.
Proof.
  destruct s as [|c r]; [reflexivity|]. simpl.
  destruct (is_space c); [discriminate|reflexivity].
Qed.

Lemma clean_rstrip (s : string) : clean s = true -> rstrip s = s.
Proof.
  induction s as [|c r IH]; [reflexivity|]. simpl.
  destruct (is_space c) eqn:Ec; [discriminate|]. simpl.
  intros [_ Hr]%andb_true_iff. rewrite (IH Hr). destruct r; reflexivity.
Qed.

Lemma clean_remove_underscores (s : string) :
  clean s = true -> remove_underscores s = s.
Proof.
  induction s as [|c r IH]; [reflexivity|]. simpl.
  destruct (Ascii.eqb c "_"); [rewrite andb_false_r; discriminate|].
  intros [_ Hr]%andb_true_iff. rewrite (IH Hr). reflexivity.
Qed.

Lemma split_sign_digit (c : ascii) (r : string) :
  is_digit c = true -> split_sign (String c r) = (false, String c r).
Proof. destruct c as [[] [] [] [] [] [] [] []]; vm_compute; congruence. Qed.

Lemma parse_exponent_format (z : Z) :
  parse_exponent ("E" ++ format_signed z) = Some z.
Proof.
  unfold format_signed. rewrite string_app_cons, string_app_nil_l.
  cbn [parse_exponent]. change (Ascii.eqb (lower "E") "e") with true. cbv iota.
  destruct (Z.ltb_spec z 0).
  - rewrite string_app_cons, string_app_nil_l. cbn [split_sign].
    pose proof (span_digits_app (digits_of_N (Z.to_N (- z))) ""
                  (digits_only_digits_of_N _) I) as Hspan.
    rewrite string_app_nil_r in Hspan. rewrite Hspan.
    destruct (digits_of_N (Z.to_N (- z))) as [|d ds] eqn:E;
      [exfalso; eapply digits_of_N_nonempty; exact E|].
    rewrite <- E, N_of_digits_of_N. f_equal. lia.
  - rewrite string_app_cons, string_app_nil_l. cbn [split_sign].
    pose proof (span_digits_app (digits_of_N (Z.to_N z)) ""
                  (digits_only_digits_of_N _) I) as Hspan.
    rewrite string_app_nil_r in Hspan. rewrite Hspan.
    destruct (digits_of_N (Z.to_N z)) as [|d ds] eqn:E;
      [exfalso; eapply digits_of_N_nonempty; exact E|].
    rewrite <- E, N_of_digits_of_N. f_equal. lia.
Qed.

Lemma clean_format_signed (z : Z) : clean (format_signed z) = true.
Proof.
  unfold format_signed.
  destruct (z <? 0);
    rewrite clean_app, (digits_clean (digits_of_N _) (digits_only_digits_of_N _));
    reflexivity.
Qed.

Lemma starts_nondigit_exponent (ex : string) (expv : Z) :
  ex = EmptyString /\ expv = 0 \/ ex = ("E" ++ format_signed expv)%string ->
  starts_nondigit ex /\ clean ex = true /\ parse_exponent ex = Some expv
  /\ parse_fraction ex = (EmptyString, ex).
Proof.
  intros [[-> ->] | ->].
  - repeat split.
  - split; [reflexivity|]. split.
    + rewrite clean_app, clean_format_signed. reflexivity.
    + split; [apply parse_exponent_format|reflexivity].
Qed.

(** Parsing a text assembled from a sign, integer digits, an optional
    fraction and an optional exponent. *)
Lemma parse_assembled (sign : bool) (ip fp pt ex : string) (expv : Z) :
  digits_only ip = true -> ip <> EmptyString -> digits_only fp = true ->
  pt = EmptyString /\ fp = EmptyString \/ pt = ("." ++ fp)%string ->
  ex = EmptyString /\ expv = 0 \/ ex = ("E" ++ format_signed expv)%string ->
  Decimal_of_str ((if sign then "-" else "") ++ ip ++ pt ++ ex)
  = Ok (mkDecimal sign (N_of_digits (ip ++ fp))
          (expv - Z.of_nat (String.length fp))).
Proof.
  intros Hip Hne Hfp Hpt Hex.
  destruct (starts_nondigit_exponent ex expv Hex) as (Hnd & Hcl & Hpe & Hpf).
  assert (Hclean_pt : clean pt = true).
  { destruct Hpt as [[-> _] | ->]; [reflexivity|].
    rewrite clean_app, (digits_clean fp Hfp). reflexivity. }
  assert (Hclean : clean ((if sign then "-" else "") ++ ip ++ pt ++ ex) = true).
  { rewrite !clean_app, (digits_clean ip Hip), Hclean_pt, Hcl.
    destruct sign; reflexivity. }
  unfold Decimal_of_str, strip.
  rewrite (clean_lstrip _ Hclean), (clean_rstrip _ Hclean),
    (clean_remove_underscores _ Hclean).
  assert (Hsign : split_sign ((if sign then "-" else "") ++ ip ++ pt ++ ex)
                  = (sign, (ip ++ pt ++ ex)%string)).
  { destruct sign; [reflexivity|]. rewrite string_app_nil_l.
    destruct ip as [|c r]; [congruence|].
    rewrite string_app_cons. apply split_sign_digit.
    simpl in Hip. apply andb_true_iff in Hip. apply Hip. }
  rewrite Hsign.
  assert (Hnd_pt : starts_nondigit (pt ++ ex)).
  { destruct Hpt as [[-> _] | ->]; [exact Hnd|reflexivity]. }
  rewrite (span_digits_app ip (pt ++ ex) Hip Hnd_pt).
  assert (Hfrac : parse_fraction (pt ++ ex) = (fp, ex)).
  { destruct Hpt as [[-> ->] | ->]; [exact Hpf|].
    rewrite string_app_cons, string_app_nil_l, string_app_cons.
    cbn [parse_fraction]. apply span_digits_app; assumption. }
  rewrite Hfrac, Hpe.
  destruct ip as [|c r]; [congruence|]. rewrite string_app_cons. reflexivity.
Qed.

(** Rewrites the text of the goal into the assembled form and parses it. *)
Local Ltac parse_as sign ip fp pt ex expv :=
  match goal with
  | |- Decimal_of_str ?t = _ =>
      replace t with ((if sign then "-" else "") ++ ip ++ pt ++ ex)%string
        by (rewrite ?string_app_nil_r; reflexivity);
      rewrite (parse_assembled sign ip fp pt ex expv)
  end.

Lemma Decimal_of_str_str (d : Decimal) : Decimal_of_str (Decimal_str d) = Ok d.
Proof.
  destruct d as [sign n e]. unfold Decimal_str. cbn [d_sign d_int d_exp].
  pose proof (digits_only_digits_of_N n) as HD.
  pose proof (digits_of_N_nonempty n) as HDne.
  pose proof (N_of_digits_of_N n) as HDval.
  set (D := digits_of_N n) in *.
  assert (Hlen : (1 <= String.length D)%nat)
    by (destruct D; [congruence|simpl; lia]).
  set (len := Z.of_nat (String.length D)).
  set (L := e + len).
  destruct ((e <=? 0) && (-6 <? L)) eqn:Eplain.
  - apply andb_true_iff in Eplain as [He HL].
    apply Z.leb_le in He. apply Z.ltb_lt in HL.
    rewrite Z.eqb_refl.
    destruct (Z.leb_spec L 0) as [HL0|HL0].
    + (* 0.000ddd *)
      cbv beta iota zeta.
      parse_as sign "0" (zeros (Z.to_nat (- L)) ++ D)%string
        ("." ++ zeros (Z.to_nat (- L)) ++ D)%string "" 0;
        [| reflexivity | discriminate
         | rewrite digits_only_app, digits_only_zeros; exact HD
         | right; reflexivity | left; split; reflexivity].
      f_equal. f_equal.
      * rewrite string_app_cons, string_app_nil_l, N_of_digits_zero,
          N_of_digits_zeros. exact HDval.
      * rewrite string_length_app, length_zeros. unfold L, len in *. lia.
    + destruct (Z.leb_spec len L) as [HlenL|HlenL].
      * (* ddd *)
        cbv beta iota zeta.
        replace (Z.to_nat (L - len)) with 0%nat by (unfold L, len in *; lia).
        cbn [zeros].
        parse_as sign D "" "" "" 0;
          [| exact HD | exact HDne | reflexivity
           | left; split; reflexivity | left; split; reflexivity].
        f_equal. f_equal.
        -- rewrite string_app_nil_r. exact HDval.
        -- simpl. unfold L, len in *. lia.
      * (* dd.ddd *)
        cbv beta iota zeta.
        assert (Hk : (Z.to_nat L <= String.length D)%nat) by (unfold len in *; lia).
        destruct (substring_split D (Z.to_nat L) Hk) as [Hsplit Hklen].
        destruct (digits_only_substring D HD (Z.to_nat L) Hk) as [Hd1 Hd2].
        replace (Z.to_nat (len - L)) with (String.length D - Z.to_nat L)%nat
          by (unfold len in *; lia).
        parse_as sign (substring 0 (Z.to_nat L) D)
          (substring (Z.to_nat L) (String.length D - Z.to_nat L) D)
          ("." ++ substring (Z.to_nat L) (String.length D - Z.to_nat L) D)%string
          "" 0;
          [| exact Hd1
           | intros E; rewrite E in Hklen; simpl in Hklen; lia
           | exact Hd2 | right; reflexivity | left; split; reflexivity].
        f_equal. f_equal.
        -- rewrite Hsplit. exact HDval.
        -- apply (f_equal String.length) in Hsplit.
           rewrite string_length_app, Hklen in Hsplit. unfold L, len in *. lia.
  - assert (Hsci : 0 < e \/ L <= -6).
    { apply andb_false_iff in Eplain as [H|H];
        [apply Z.leb_gt in H|apply Z.ltb_ge in H]; lia. }
    assert (HL1 : L <> 1) by (unfold L, len in *; lia).
    destruct (Z.eqb_spec L 1) as [|_]; [contradiction|].
    change (1 <=? 0) with false. cbv beta iota zeta.
    destruct (Z.leb_spec len 1) as [Hlen1|Hlen1].
    + (* dE+x *)
      cbv beta iota zeta.
      replace (Z.to_nat (1 - len)) with 0%nat by (unfold len in *; lia).
      cbn [zeros].
      parse_as sign D "" "" ("E" ++ format_signed (L - 1))%string (L - 1);
        [| exact HD | exact HDne | reflexivity
         | left; split; reflexivity | right; reflexivity].
      f_equal. f_equal.
      * rewrite string_app_nil_r. exact HDval.
      * simpl. unfold L, len in *. lia.
    + (* d.dddE+x *)
      cbv beta iota zeta.
      assert (Hk : (Z.to_nat 1 <= String.length D)%nat) by lia.
      destruct (substring_split D (Z.to_nat 1) Hk) as [Hsplit Hklen].
      destruct (digits_only_substring D HD (Z.to_nat 1) Hk) as [Hd1 Hd2].
      replace (Z.to_nat (len - 1)) with (String.length D - Z.to_nat 1)%nat
        by (unfold len in *; lia).
      parse_as sign (substring 0 (Z.to_nat 1) D)
        (substring (Z.to_nat 1) (String.length D - Z.to_nat 1) D)
        ("." ++ substring (Z.to_nat 1) (String.length D - Z.to_nat 1) D)%string
        ("E" ++ format_signed (L - 1))%string (L - 1);
        [| exact Hd1
         | intros E; rewrite E in Hklen; simpl in Hklen; lia
         | exact Hd2 | right; reflexivity | right; reflexivity].
      f_equal. f_equal.
      * rewrite Hsplit. exact HDval.
      * apply (f_equal String.length) in Hsplit.
        rewrite string_length_app, Hklen in Hsplit. unfold L, len in *. lia.
Qed.

Lemma digits_only_uint_of_string (s : string) :
  digits_only s = true -> exists u, NilEmpty.uint_of_string s = Some u.
Proof.
  induction s as [|c r IH]; [exists Decimal.Nil; reflexivity|].
  simpl. intros [Hc Hr]%andb_true_iff. destruct (IH Hr) as [u Hu].
  rewrite Hu. revert Hc.
  destruct c as [[] [] [] [] [] [] [] []]; vm_compute; try congruence;
    intros _; eexists; reflexivity.
Qed.

Lemma digit_cases (c : ascii) :
  is_digit c = true ->
  (c = "0" \/ c = "1" \/ c = "2" \/ c = "3" \/ c = "4" \/ c = "5" \/ c = "6"
   \/ c = "7" \/ c = "8" \/ c = "9")%char.
Proof.
  destruct c as [[] [] [] [] [] [] [] []]; intros H; vm_compute in H;
    try discriminate; clear H; tauto.
Qed.

Lemma leading_nonzero_round (s : string) :
  leading_nonzero s = true -> digits_of_N (N_of_digits s) = s.
Proof.
  destruct s as [|c r]; [discriminate|]. simpl.
  intros [[Hc Hz]%andb_true_iff Hr]%andb_true_iff.
  destruct (digits_only_uint_of_string r Hr) as [u Hu].
  pose proof (NilEmpty.sus r u Hu) as Hsus.
  unfold digits_of_N, N_of_digits. simpl. rewrite Hu.
  destruct (digit_cases c Hc) as [->|Hd]; [discriminate|].
  repeat (destruct Hd as [->|Hd]; [|]); try subst c;
    cbn [DecimalString.uint_of_char];
    rewrite DecimalN.Unsigned.to_of; cbn [Decimal.unorm Decimal.nzhead];
    cbn [NilZero.string_of_uint NilEmpty.string_of_uint]; rewrite Hsus; reflexivity.
Qed.

Lemma canonical_digits_round (s : string) :
  canonical_digits s ->
  digits_of_N (N_of_digits s) = s /\ digits_only s = true /\ s <> EmptyString.
Proof.
  intros [->|H].
  - repeat split. discriminate.
  - split; [apply leading_nonzero_round, H|].
    destruct s as [|c r]; [discriminate|]. split; [|discriminate].
    simpl in *. apply andb_true_iff in H as [[Hc _]%andb_true_iff Hr].
    rewrite Hc, Hr. reflexivity.
Qed.

Lemma substring_prefix (p rest : string) :
  substring 0 (String.length p) (p ++ rest) = p.
Proof.
  induction p as [|a p IH]; [destruct rest; reflexivity|].
  rewrite string_app_cons. simpl. rewrite IH. reflexivity.
Qed.

Lemma leading_nonzero_app (ip fp : string) :
  leading_nonzero ip = true -> digits_only fp = true ->
  leading_nonzero (ip ++ fp) = true.
Proof.
  destruct ip as [|c r]; [discriminate|]. rewrite string_app_cons. simpl.
  intros [Hc Hr]%andb_true_iff Hfp. rewrite Hc, digits_only_app, Hr, Hfp. reflexivity.
Qed.

(** A plain canonical text is the text that [str] produces for the decimal
    it denotes. *)
Lemma plain_canonical_is_str (text : string) :
  plain_canonical text -> exists d, text = Decimal_str d.
Proof.
  intros [sign ip Hip | sign ip fp Hip Hfp Hne | sign k tail Hk Htail].
  - destruct (canonical_digits_round ip Hip) as (Hround & _ & Hnonempty).
    exists (mkDecimal sign (N_of_digits ip) 0).
    unfold Decimal_str. cbn [d_sign d_int d_exp]. rewrite Hround.
    assert (Hlen : (1 <= String.length ip)%nat)
      by (destruct ip; [congruence|simpl; lia]).
    set (len := Z.of_nat (String.length ip)).
    replace (0 + len) with len by lia.
    destruct (Z.ltb_spec (-6) len); [|lia]. cbn [Z.leb andb Z.compare].
    rewrite Z.eqb_refl.
    destruct (Z.leb_spec len 0); [lia|].
    rewrite Z.leb_refl, Z.sub_diag. cbn [Z.to_nat zeros].
    unfold sign_text. rewrite !string_app_nil_r. reflexivity.
  - pose proof (leading_nonzero_app ip fp Hip Hfp) as Hlead.
    exists (mkDecimal sign (N_of_digits (ip ++ fp)) (- Z.of_nat (String.length fp))).
    unfold Decimal_str. cbn [d_sign d_int d_exp].
    rewrite (leading_nonzero_round _ Hlead), string_length_app.
    assert (Hli : (1 <= String.length ip)%nat)
      by (destruct ip; [discriminate|simpl; lia]).
    assert (Hlf : (1 <= String.length fp)%nat)
      by (destruct fp; [congruence|simpl; lia]).
    set (li := String.length ip) in *. set (lf := String.length fp) in *.
    replace (- Z.of_nat lf + Z.of_nat (li + lf)) with (Z.of_nat li) by lia.
    destruct (Z.leb_spec (- Z.of_nat lf) 0); [|lia].
    destruct (Z.ltb_spec (-6) (Z.of_nat li)); [|lia]. cbn [andb].
    rewrite Z.eqb_refl.
    destruct (Z.leb_spec (Z.of_nat li) 0); [lia|].
    destruct (Z.leb_spec (Z.of_nat (li + lf)) (Z.of_nat li)); [lia|].
    rewrite Nat2Z.id.
    replace (Z.to_nat (Z.of_nat (li + lf) - Z.of_nat li))
      with (String.length (ip ++ fp) - String.length ip)%nat
      by (rewrite string_length_app; fold li lf; lia).
    unfold li. rewrite substring_prefix, substring_after.
    unfold sign_text. rewrite !string_app_nil_r. reflexivity.
  - destruct (canonical_digits_round tail Htail) as (Hround & _ & Hnonempty).
    exists (mkDecimal sign (N_of_digits tail)
              (- Z.of_nat (k + String.length tail))).
    unfold Decimal_str. cbn [d_sign d_int d_exp]. rewrite Hround.
    set (lt := String.length tail).
    replace (- Z.of_nat (k + lt) + Z.of_nat lt) with (- Z.of_nat k) by lia.
    destruct (Z.leb_spec (- Z.of_nat (k + lt)) 0); [|lia].
    destruct (Z.ltb_spec (-6) (- Z.of_nat k)); [|lia]. cbn [andb].
    rewrite Z.eqb_refl.
    destruct (Z.leb_spec (- Z.of_nat k) 0); [|lia].
    rewrite Z.opp_involutive, Nat2Z.id.
    unfold sign_text. rewrite !string_app_nil_r. reflexivity.
Qed.

(** The conversions on some texts. *)
Example Decimal_of_str_examples :
  map Decimal_of_str
    ["123.4500"; "-0.0"; " 1_000.5 "; ".5"; "5."; "1e3"; "12E-3"; "+7"]
  = map Ok
      [mkDecimal false 1234500 (-4); mkDecimal true 0 (-1);
       mkDecimal false 10005 (-1); mkDecimal false 5 (-1); mkDecimal false 5 0;
       mkDecimal false 1 3; mkDecimal false 12 (-3); mkDecimal false 7 0].
Proof. vm_compute. reflexivity. Qed.

Example Decimal_of_str_refused :
  map Decimal_of_str [""; "."; "abc"; "1.2.3"; "12,5"; "1e"; "1 000"; "--1"]
  = repeat (Raise InvalidOperation) 8.
Proof. vm_compute. reflexivity. Qed.

Example Decimal_str_examples :
  map Decimal_str
    [mkDecimal false 1234500 (-4); mkDecimal true 0 (-1); mkDecimal false 5 0;
     mkDecimal false 1 3; mkDecimal false 1 (-6); mkDecimal false 1 (-7);
     mkDecimal false 10 (-8); mkDecimal true 12345 (-12)]
  = ["123.4500"; "-0.0"; "5"; "1E+3"; "0.000001"; "1E-7"; "1.0E-7";
     "-1.2345E-8"].
Proof. vm_compute. reflexivity. Qed.

Example int_of_str_examples :
  map int_of_str [" 42 "; "-7"; "1_000"; "007"; ""; "1__0"; "_1"; "1_"; "4.2"]
  = [Some 42; Some (-7); Some 1000; Some 7; None; None; None; None; None].
Proof. vm_compute. reflexivity. Qed.

(** C9, as stated, fails: the text ["0.00000000"], which the exchange
    sends for a zero quantity, parses to the decimal with coefficient 0 and
    exponent -8, and that decimal is serialized as ["0E-8"]; likewise
    ["0.00000001"] comes back as ["1E-8"]. *)
Lemma text_round_trip_fails_for_small_values :
  Decimal_of_str "0.00000000" = Ok (mkDecimal false 0 (-8))
  /\ Decimal_str (mkDecimal false 0 (-8)) = "0E-8"
  /\ Decimal_str (mkDecimal false 0 (-8)) <> "0.00000000"
  /\ Decimal_of_str "0.00000001" = Ok (mkDecimal false 1 (-8))
  /\ Decimal_str (mkDecimal false 1 (-8)) = "1E-8".
Proof. repeat split; try (vm_compute; reflexivity). vm_compute. discriminate. Qed.

(** The example of the specification. *)
Example round_trip_example :
  Decimal_of_str "0.00010000" = Ok (mkDecimal false 10000 (-8))
  /\ Decimal_str (mkDecimal false 10000 (-8)) = "0.00010000".
Proof. split; vm_compute; reflexivity. Qed.

(** C9, amended.  When a text parses to a decimal, the serialization of
    that decimal parses back to the very same decimal: same sign, same
    coefficient (trailing zeros included) and same exponent, so nothing is
    lost or rounded.  The text itself is reproduced exactly when it is a
    text that [str] produces for some decimal, and in particular when it is
    in plain canonical notation. *)
Theorem decimal_round_trip (text : string) (d : Decimal) :
  Decimal_of_str text = Ok d ->
  Decimal_of_str (Decimal_str d) = Ok d
  /\ ((exists d', text = Decimal_str d') -> Decimal_str d = text)
  /\ (plain_canonical text -> Decimal_str d = text).
Proof.
  intros Hparse.
  assert (Himage : (exists d', text = Decimal_str d') -> Decimal_str d = text).
  { intros [d' ->]. rewrite Decimal_of_str_str in Hparse.
    injection Hparse as ->. reflexivity. }
  split; [apply Decimal_of_str_str|]. split; [exact Himage|].
  intros Hplain. apply Himage, plain_canonical_is_str, Hplain.
Qed.

End DecimalText.

(** ** The theorems at the fixtures *)

Section Instances.

Import bars connectors.


Lemma volume_scenario_seven_trades_witness :
  (Dval (quantity (sample_trade 3 2)) == 2)%Q
  /\ (Dval (Decimal_of_int 4) == 4)%Q
  /\ exists bar,
       build_volume_bars scenario_trades (Decimal_of_int 4) = Ok [bar]
       /\ bar_trade_count bar = 4.
Proof.
  split; [reflexivity|]. split; [reflexivity|].
  destruct (volume_scenario_seven_trades
              (sample_trade 0 1) (sample_trade 1 1) (sample_trade 2 1)
              (sample_trade 3 2) (sample_trade 4 1) (sample_trade 5 1)
              (sample_trade 6 1) (Decimal_of_int 4))
    as (bar & Hout & _ & Hcount & _); try reflexivity.
  exists bar. split; [exact Hout|exact Hcount].
Defined.






Lemma exact_multiple_costs_one_empty_page_witness :
  1 <= 3
  /\ length (unpaged_fetch (sample_klines 6) 0 1000) = 6%nat
  /\ length (exchanges (fetch_klines "/api/v3/klines" 3
                          (serve_klines (sample_klines 6))
                          5 "BTCUSDT" M1 0 1000)) = 3%nat.
Proof.
  split; [lia|]. split; [reflexivity|].
  refine (proj1 (proj2 (proj2
            (exact_multiple_costs_one_empty_page "/api/v3/klines" 3
               (sample_klines 6) "BTCUSDT" M1 0 1000 5 _ _ _ _ _ _)))).
  - lia.
  - apply sample_klines_chain.
  - vm_compute. lia.
  - reflexivity.
  - exists (sample_kline 5). split; [reflexivity|simpl; lia].
  - vm_compute. lia.
Defined.

Lemma empty_range_issues_no_kline_request_witness :
  5 <= 5
  /\ binance.fetch_klines (serve_klines (sample_klines 3)) 1 "BTCUSDT" M1 5 5
     = mkRun [] [] Completed.
Proof.
  split; [lia|].
  refine (proj1 (proj2
            (empty_range_issues_no_kline_request "/api/v3/klines" 1000
               (serve_klines (sample_klines 3)) no_funding_records
               "BTCUSDT" M1 5 5 (Some 5) 1 _ _))); lia.
Defined.


Lemma decimal_round_trip_witness :
  Decimal_of_str "0.00010000" = Ok (mkDecimal false 10000 (-8))
  /\ Decimal_str (mkDecimal false 10000 (-8)) = "0.00010000".
Proof.
  split; [reflexivity|].
  apply (decimal_round_trip "0.00010000" (mkDecimal false 10000 (-8)) eq_refl).
  apply (plain_small false 3 "10000"); [lia|right; reflexivity].
Defined.

Lemma sample_feed_well_formed : Forall kline_message sample_feed.
Proof.
  unfold sample_feed.
  repeat (constructor;
          [eexists (ADict (ws_kline_object _ _)), (ABool _);
           split; [reflexivity|];
           split; [reflexivity|];
           intros _; eexists; vm_compute; reflexivity|]).
  constructor.
Qed.

(** What the filter yields on the feed: the three closed bars, in order. *)
Example stream_klines_sample_feed :
  stream_klines sample_feed
  = ([RawKline.mk 0 (AStr "1.0") (AStr "2.0") (AStr "0.5") (AStr "1.5")
        (AStr "10") 59999 (AStr "15") 3 (AStr "4") (AStr "6");
      RawKline.mk 60000 (AStr "1.0") (AStr "2.0") (AStr "0.5") (AStr "1.5")
        (AStr "10") 119999 (AStr "15") 3 (AStr "4") (AStr "6");
      RawKline.mk 120000 (AStr "1.0") (AStr "2.0") (AStr "0.5") (AStr "1.5")
        (AStr "10") 179999 (AStr "15") 3 (AStr "4") (AStr "6")],
     None).
Proof. vm_compute. reflexivity. Qed.

(** Five partial updates and three final messages: three records. *)
Lemma stream_filter_forwards_final_only_witness :
  length sample_feed = 8%nat
  /\ exists out, stream_klines sample_feed = (out, None) /\ length out = 3%nat.
Proof.
  split; [reflexivity|].
  destruct (proj1 stream_filter_forwards_final_only sample_feed
              sample_feed_well_formed) as (out & Hout & _ & Hlen).
  exists out. split; [exact Hout|]. rewrite Hlen. reflexivity.
Defined.

End Instances.

(* ===================================================================== *)
(** * Further properties of the code                                      *)
(* ===================================================================== *)

(** ** The aggregators: totality, buckets and order *)

Section AggregatorBuckets.

Import bars.
Local Open Scope Q_scope.



































End AggregatorBuckets.

(** ** Pagination against any exchange *)

Section YieldEach.

Context {A B : Type}.
Variable parse : A -> Result B.

Lemma yield_each_prefix (l : list A) :
  forall out err,
  yield_each parse l = (out, err) ->
  Forall2 (fun row x => parse row = Ok x) (take (length out) l) out
  /\ (length out <= length l)%nat
  /\ (err = None -> length out = length l)
  /\ (forall e, err = Some e ->
        exists row, l !! length out = Some row /\ parse row = Raise e).
Proof.
  induction l as [|row rest IH]; intros out err H; simpl in H.
  - injection H as <- <-. repeat split; try constructor. discriminate.
  - destruct (parse row) as [x|e] eqn:E.
    + destruct (yield_each parse rest) as [xs err'] eqn:E'.
      injection H as <- <-.
      destruct (IH xs err' eq_refl) as (H1 & H2 & H3 & H4).
      simpl. split; [constructor; assumption|]. split; [lia|].
      split; [intros ->; rewrite H3; reflexivity|exact H4].
    + injection H as <- <-. simpl. split; [constructor|]. split; [lia|].
      split; [discriminate|]. intros e' [= <-]. exists row. split; [reflexivity|exact E].
Qed.

Lemma yield_each_app (l1 l2 : list A) (out1 : list B) :
  yield_each parse l1 = (out1, None) ->
  yield_each parse (l1 ++ l2)
  = (out1 ++ fst (yield_each parse l2), snd (yield_each parse l2)).
Proof.
  revert out1. induction l1 as [|row rest IH]; intros out1 H; simpl in *.
  - injection H as <-. destruct (yield_each parse l2). reflexivity.
  - destruct (parse row) as [x|e]; [|discriminate].
    destruct (yield_each parse rest) as [xs err] eqn:E.
    injection H as <- ->. rewrite (IH xs eq_refl). reflexivity.
Qed.

Lemma yield_each_stops (l1 l2 : list A) (out1 : list B) (e : Exn) :
  yield_each parse l1 = (out1, Some e) ->
  yield_each parse (l1 ++ l2) = (out1, Some e).
Proof.
  revert out1. induction l1 as [|row rest IH]; intros out1 H; simpl in *.
  - discriminate.
  - destruct (parse row) as [x|e']; [|exact H].
    destruct (yield_each parse rest) as [xs err] eqn:E.
    injection H as <- ->. rewrite (IH xs eq_refl). reflexivity.
Qed.

End YieldEach.

Section KlinePagesOfAnyExchange.

Import connectors.

Variable rest_path : string.
Variable page : Z.
Hypothesis page_pos : 1 <= page.
Variable client : Client (list (list Any)).
Variable symbol : string.
Variable interval : KlineInterval.
Variable end_ms : Z.

Let loop (fuel : nat) (cursor : Z) : Run RawKline.t (list (list Any)) :=
  klines_loop rest_path page client fuel symbol interval end_ms cursor.

Let request (cursor : Z) : Request :=
  {| path := rest_path;
     param_symbol := symbol;
     param_interval := Some (interval_value interval);
     startTime := Some cursor;
     endTime := Some end_ms;
     limit := Some page |}.

(** A row that parses has a close time that [int] reads. *)
Lemma parsed_row_close (row : list Any) (k : RawKline.t) :
  _parse_rest_kline row = Ok k ->
  (let* x6 := list_getitem row 6 in py_int x6) = Ok (RawKline.close_time_ms k).
Proof.
  unfold _parse_rest_kline. intros H.
  repeat match type of H with
         | bind ?m _ = Ok _ =>
             let E := fresh "E" in
             destruct m eqn:E; cbn [bind] in H; [|discriminate]
         end.
  injection H as <-. cbn [bind RawKline.close_time_ms]. assumption.
Qed.

(** After a page whose rows all parse, the cursor can be advanced. *)
Lemma advance_after_page (batch : list (list Any)) (klines : list RawKline.t) :
  yield_each _parse_rest_kline batch = (klines, None) ->
  page <= Z.of_nat (length batch) ->
  exists row k,
    last batch = Some row /\ last klines = Some k
    /\ _parse_rest_kline row = Ok k
    /\ (let* row := list_last batch in
        let* x6 := list_getitem row 6 in py_int x6)
       = Ok (RawKline.close_time_ms k).
Proof.
  intros Hy Hfull.
  destruct (yield_each_prefix _ _ _ _ Hy) as (Hall & _ & Hlen & _).
  specialize (Hlen eq_refl). rewrite Hlen, firstn_all in Hall.
  destruct (last batch) as [row|] eqn:Hrow.
  - apply last_Some in Hrow as [front ->].
    apply Forall2_app_inv_l in Hall as (ks & kl & Hks & Hkl & ->).
    inversion Hkl as [|? k ? ? Hk Hnil]; subst. inversion Hnil; subst.
    exists row, k. rewrite !last_snoc. repeat split; try assumption.
    unfold list_last. rewrite last_snoc. cbn [bind].
    apply parsed_row_close, Hk.
  - apply last_None in Hrow. subst batch. simpl in Hfull. lia.
Qed.

(** One iteration of the loop, case by case. *)
Lemma loop_unfold (fuel : nat) (cursor : Z) :
  loop (S fuel) cursor
  = if cursor <? end_ms then
      match client (request cursor) with
      | Raise e => mkRun [] [(request cursor, Raise e)] (Failed e)
      | Ok batch =>
          match yield_each _parse_rest_kline batch with
          | (klines, Some e) => mkRun klines [(request cursor, Ok batch)] (Failed e)
          | (klines, None) =>
              if Z.of_nat (length batch) <? page then
                mkRun klines [(request cursor, Ok batch)] Completed
              else
                match last klines with
                | Some k =>
                    let next := loop fuel (RawKline.close_time_ms k + 1) in
                    mkRun (klines ++ emitted next)
                      ((request cursor, Ok batch) :: exchanges next)
                      (outcome next)
                | None => mkRun klines [(request cursor, Ok batch)] (Failed IndexError)
                end
          end
      end
    else mkRun [] [] Completed.
Proof.
  unfold loop. cbn [klines_loop]. fold (request cursor).
  destruct (cursor <? end_ms); [|reflexivity].
  destruct (client (request cursor)) as [batch|e]; [|reflexivity].
  destruct (yield_each _parse_rest_kline batch) as [klines [e|]] eqn:Hy;
    [reflexivity|].
  destruct (Z.ltb_spec (Z.of_nat (length batch)) page) as [|Hfull]; [reflexivity|].
  destruct (advance_after_page batch klines Hy Hfull) as (row & k & _ & Hk & _ & Hadv).
  rewrite Hadv, Hk. reflexivity.
Qed.

Lemma loop_requests (fuel : nat) :
  forall cursor,
  Forall (fun ex => exists c, fst ex = request c /\ c < end_ms)
         (exchanges (loop fuel cursor))
  /\ (forall front ex, exchanges (loop fuel cursor) = front ++ [ex] ->
        Forall (full_page page) front)
  /\ (forall ex rest, exchanges (loop fuel cursor) = ex :: rest ->
        fst ex = request cursor).
Proof.
  induction fuel as [|fuel IH]; intros cursor.
  - simpl. split; [constructor|]. split.
    + intros front ex H. destruct front; discriminate.
    + discriminate.
  - rewrite loop_unfold.
    assert (Hone : forall (r : Result (list (list Any))) front ex,
              [(request cursor, r)] = front ++ [ex] -> Forall (full_page page) front).
    { intros r front ex H. destruct front as [|? [|? ?]]; try discriminate.
      constructor. }
    destruct (Z.ltb_spec cursor end_ms) as [Hlt|Hge].
    2:{ simpl. split; [constructor|]. split; [|discriminate].
        intros front ex H. destruct front; discriminate. }
    assert (Hreq : exists c, request cursor = request c /\ c < end_ms) by eauto.
    destruct (client (request cursor)) as [batch|e].
    2:{ cbn [exchanges]. split; [repeat constructor; exact Hreq|].
        split; [apply Hone|]. intros ex rest [= <- <-]. reflexivity. }
    destruct (yield_each _parse_rest_kline batch) as [klines [e|]] eqn:Hy.
    { cbn [exchanges]. split; [repeat constructor; exact Hreq|].
      split; [apply Hone|]. intros ex rest [= <- <-]. reflexivity. }
    destruct (Z.ltb_spec (Z.of_nat (length batch)) page) as [Hshort|Hfull].
    { cbn [exchanges]. split; [repeat constructor; exact Hreq|].
      split; [apply Hone|]. intros ex rest [= <- <-]. reflexivity. }
    destruct (last klines) as [k|].
    2:{ cbn [exchanges]. split; [repeat constructor; exact Hreq|].
        split; [apply Hone|]. intros ex rest [= <- <-]. reflexivity. }
    cbn [exchanges].
    destruct (IH (RawKline.close_time_ms k + 1)) as (IH1 & IH2 & _).
    split; [constructor; [exact Hreq|exact IH1]|].
    split; [|intros ex rest [= <- <-]; reflexivity].
    intros front ex H. destruct front as [|f front].
    + constructor.
    + injection H as <- H. constructor; [|apply (IH2 _ _ H)].
      exists batch. split; [reflexivity|lia].
Qed.

Lemma loop_rows (fuel : nat) :
  forall cursor,
  let run := loop fuel cursor in
  let rows := rows_received (exchanges run) in
  Forall2 (fun row k => _parse_rest_kline row = Ok k)
          (take (length (emitted run)) rows) (emitted run)
  /\ (outcome run = Completed -> length (emitted run) = length rows)
  /\ (forall e, outcome run = Failed e ->
        (exists ex, last (exchanges run) = Some ex /\ transport_error e ex)
        \/ (exists row, rows !! length (emitted run) = Some row
                        /\ _parse_rest_kline row = Raise e)).
Proof.
  unfold rows_received.
  induction fuel as [|fuel IH]; intros cursor.
  - simpl. split; [constructor|]. split; [reflexivity|discriminate].
  - cbv zeta. rewrite loop_unfold.
    destruct (Z.ltb_spec cursor end_ms) as [Hlt|Hge].
    2:{ simpl. split; [constructor|]. split; [reflexivity|discriminate]. }
    destruct (client (request cursor)) as [batch|e].
    2:{ simpl. split; [constructor|]. split; [discriminate|].
        intros e' [= <-]. left. eexists. split; reflexivity. }
    destruct (yield_each _parse_rest_kline batch) as [klines err] eqn:Hy.
    destruct (yield_each_prefix _ _ _ _ Hy) as (Hall & Hle & Hlen & Herr).
    destruct err as [e|].
    { cbn [emitted exchanges outcome map snd concat]. rewrite app_nil_r.
      split; [exact Hall|]. split; [discriminate|].
      intros e' [= <-]. right. apply Herr. reflexivity. }
    specialize (Hlen eq_refl).
    destruct (Z.ltb_spec (Z.of_nat (length batch)) page) as [Hshort|Hfull].
    { cbn [emitted exchanges outcome map snd concat]. rewrite app_nil_r.
      split; [exact Hall|]. split; [intros _; exact Hlen|discriminate]. }
    destruct (advance_after_page batch klines Hy Hfull) as (_ & k & _ & Hk & _).
    rewrite Hk. cbv zeta. cbn [emitted exchanges outcome map snd concat].
    destruct (IH (RawKline.close_time_ms k + 1)) as (IH1 & IH2 & IH3).
    cbv zeta in IH1, IH2, IH3.
    set (next := loop fuel (RawKline.close_time_ms k + 1)) in *.
    rewrite length_app, Hlen.
    split; [|split].
    + rewrite take_app_add'; [|reflexivity].
      apply Forall2_app; [|exact IH1].
      rewrite Hlen, firstn_all in Hall. exact Hall.
    + intros Hc. rewrite length_app, (IH2 Hc). reflexivity.
    + intros e He. destruct (IH3 e He) as [(ex & Hex & Herr')|(row & Hrow & Hraise)].
      * left. exists ex. split; [|exact Herr'].
        destruct (exchanges next) as [|x xs]; [discriminate|].
        rewrite last_cons_cons. exact Hex.
      * right. exists row. split; [|exact Hraise].
        rewrite lookup_app_r by lia.
        replace (length batch + length (emitted next) - length batch)%nat
          with (length (emitted next)) by lia.
        exact Hrow.
Qed.

(** With an exchange that answers a request with klines that close at or
    after the requested start, the cursor advances at every page. *)
Hypothesis progress :
  forall cursor batch row k,
  client (request cursor) = Ok batch ->
  last batch = Some row ->
  _parse_rest_kline row = Ok k ->
  cursor <= RawKline.close_time_ms k.

Lemma loop_terminates (fuel : nat) :
  forall cursor,
  (Z.to_nat (end_ms - cursor) < fuel)%nat ->
  outcome (loop fuel cursor) <> OutOfFuel
  /\ (length (exchanges (loop fuel cursor)) <= Z.to_nat (end_ms - cursor))%nat.
Proof.
  induction fuel as [|fuel IH]; intros cursor Hfuel; [lia|].
  rewrite loop_unfold.
  destruct (Z.ltb_spec cursor end_ms) as [Hlt|Hge].
  2:{ simpl. split; [discriminate|lia]. }
  destruct (client (request cursor)) as [batch|e] eqn:Hc.
  2:{ simpl. split; [discriminate|lia]. }
  destruct (yield_each _parse_rest_kline batch) as [klines [e|]] eqn:Hy.
  { simpl. split; [discriminate|lia]. }
  destruct (Z.ltb_spec (Z.of_nat (length batch)) page) as [Hshort|Hfull].
  { simpl. split; [discriminate|lia]. }
  destruct (advance_after_page batch klines Hy Hfull) as (row & k & Hrow & Hk & Hp & _).
  rewrite Hk. cbv zeta. cbn [outcome exchanges length].
  pose proof (progress cursor batch row k Hc Hrow Hp) as Hadv.
  destruct (IH (RawKline.close_time_ms k + 1)) as [IH1 IH2]; [lia|].
  split; [exact IH1|lia].
Qed.

End KlinePagesOfAnyExchange.

Section FundingPagesOfAnyExchange.

Import binance_futures.

Variable page : Z.
Hypothesis page_pos : 1 <= page.
Variable client : Client (list (gmap string Any)).
Variable symbol : string.
Variable end_ms : option Z.

Let loop (fuel : nat) (cursor : Z) : Run RawFundingRate.t (list (gmap string Any)) :=
  funding_loop page client fuel symbol end_ms cursor.

Let request (cursor : Z) : Request :=
  {| path := "/fapi/v1/fundingRate";
     param_symbol := symbol;
     param_interval := None;
     startTime := Some cursor;
     endTime := end_ms;
     limit := Some page |}.

Lemma parsed_row_funding_time (row : gmap string Any) (r : RawFundingRate.t) :
  _parse_funding_rate row = Ok r ->
  (let* x := dict_getitem row "fundingTime" in py_int x)
  = Ok (RawFundingRate.funding_time_ms r).
Proof.
  unfold _parse_funding_rate. intros H.
  repeat match type of H with
         | bind ?m _ = Ok _ =>
             let E := fresh "E" in
             destruct m eqn:E; cbn [bind] in H; [|discriminate]
         end.
  injection H as <-. cbn [bind RawFundingRate.funding_time_ms]. assumption.
Qed.

Lemma advance_after_funding_page (batch : list (gmap string Any))
    (rates : list RawFundingRate.t) :
  yield_each _parse_funding_rate batch = (rates, None) ->
  page <= Z.of_nat (length batch) ->
  exists row r,
    last batch = Some row /\ last rates = Some r
    /\ _parse_funding_rate row = Ok r
    /\ (let* row := list_last batch in
        let* x := dict_getitem row "fundingTime" in py_int x)
       = Ok (RawFundingRate.funding_time_ms r).
Proof.
  intros Hy Hfull.
  destruct (yield_each_prefix _ _ _ _ Hy) as (Hall & _ & Hlen & _).
  specialize (Hlen eq_refl). rewrite Hlen, firstn_all in Hall.
  destruct (last batch) as [row|] eqn:Hrow.
  - apply last_Some in Hrow as [front ->].
    apply Forall2_app_inv_l in Hall as (ks & kl & Hks & Hkl & ->).
    inversion Hkl as [|? r ? ? Hr Hnil]; subst. inversion Hnil; subst.
    exists row, r. rewrite !last_snoc. repeat split; try assumption.
    unfold list_last. rewrite last_snoc. cbn [bind].
    apply parsed_row_funding_time, Hr.
  - apply last_None in Hrow. subst batch. simpl in Hfull. lia.
Qed.

Lemma funding_loop_unfold (fuel : nat) (cursor : Z) :
  loop (S fuel) cursor
  = match client (request cursor) with
    | Raise e => mkRun [] [(request cursor, Raise e)] (Failed e)
    | Ok batch =>
        match yield_each _parse_funding_rate batch with
        | (rates, Some e) => mkRun rates [(request cursor, Ok batch)] (Failed e)
        | (rates, None) =>
            if Z.of_nat (length batch) <? page then
              mkRun rates [(request cursor, Ok batch)] Completed
            else
              match last rates with
              | Some r =>
                  let next := loop fuel (RawFundingRate.funding_time_ms r + 1) in
                  mkRun (rates ++ emitted next)
                    ((request cursor, Ok batch) :: exchanges next)
                    (outcome next)
              | None => mkRun rates [(request cursor, Ok batch)] (Failed IndexError)
              end
        end
    end.
Proof.
  unfold loop. cbn [funding_loop]. fold (request cursor).
  destruct (client (request cursor)) as [batch|e]; [|reflexivity].
  destruct (yield_each _parse_funding_rate batch) as [rates [e|]] eqn:Hy;
    [reflexivity|].
  destruct (Z.ltb_spec (Z.of_nat (length batch)) page) as [|Hfull]; [reflexivity|].
  destruct (advance_after_funding_page batch rates Hy Hfull)
    as (row & r & _ & Hr & _ & Hadv).
  rewrite Hadv, Hr. reflexivity.
Qed.

Lemma funding_loop_requests (fuel : nat) :
  forall cursor,
  Forall (fun ex => exists c, fst ex = request c) (exchanges (loop fuel cursor))
  /\ (forall front ex, exchanges (loop fuel cursor) = front ++ [ex] ->
        Forall (full_page page) front)
  /\ (forall ex rest, exchanges (loop fuel cursor) = ex :: rest ->
        fst ex = request cursor)
  /\ (0 < fuel -> exchanges (loop fuel cursor) <> [])%nat.
Proof.
  induction fuel as [|fuel IH]; intros cursor.
  - simpl. split; [constructor|]. split.
    + intros front ex H. destruct front; discriminate.
    + split; [discriminate|lia].
  - rewrite funding_loop_unfold.
    assert (Hone : forall (r : Result (list (gmap string Any))) front ex,
              [(request cursor, r)] = front ++ [ex] -> Forall (full_page page) front).
    { intros r front ex H. destruct front as [|? [|? ?]]; try discriminate.
      constructor. }
    assert (Hreq : exists c, request cursor = request c) by eauto.
    destruct (client (request cursor)) as [batch|e].
    2:{ cbn [exchanges]. split; [repeat constructor; exact Hreq|].
        split; [apply Hone|]. split; [|discriminate].
        intros ex rest [= <- <-]. reflexivity. }
    destruct (yield_each _parse_funding_rate batch) as [rates [e|]] eqn:Hy.
    { cbn [exchanges]. split; [repeat constructor; exact Hreq|].
      split; [apply Hone|]. split; [|discriminate].
      intros ex rest [= <- <-]. reflexivity. }
    destruct (Z.ltb_spec (Z.of_nat (length batch)) page) as [Hshort|Hfull].
    { cbn [exchanges]. split; [repeat constructor; exact Hreq|].
      split; [apply Hone|]. split; [|discriminate].
      intros ex rest [= <- <-]. reflexivity. }
    destruct (last rates) as [r|].
    2:{ cbn [exchanges]. split; [repeat constructor; exact Hreq|].
        split; [apply Hone|]. split; [|discriminate].
        intros ex rest [= <- <-]. reflexivity. }
    cbn [exchanges].
    destruct (IH (RawFundingRate.funding_time_ms r + 1)) as (IH1 & IH2 & _).
    split; [constructor; [exact Hreq|exact IH1]|].
    split; [|split; [intros ex rest [= <- <-]; reflexivity|discriminate]].
    intros front ex H. destruct front as [|f front].
    + constructor.
    + injection H as <- H. constructor; [|apply (IH2 _ _ H)].
      exists batch. split; [reflexivity|lia].
Qed.

Lemma funding_loop_rows (fuel : nat) :
  forall cursor,
  let run := loop fuel cursor in
  let rows := rows_received (exchanges run) in
  Forall2 (fun row r => _parse_funding_rate row = Ok r)
          (take (length (emitted run)) rows) (emitted run)
  /\ (outcome run = Completed -> length (emitted run) = length rows)
  /\ (forall e, outcome run = Failed e ->
        (exists ex, last (exchanges run) = Some ex /\ transport_error e ex)
        \/ (exists row, rows !! length (emitted run) = Some row
                        /\ _parse_funding_rate row = Raise e)).
Proof.
  unfold rows_received.
  induction fuel as [|fuel IH]; intros cursor.
  - simpl. split; [constructor|]. split; [reflexivity|discriminate].
  - cbv zeta. rewrite funding_loop_unfold.
    destruct (client (request cursor)) as [batch|e].
    2:{ simpl. split; [constructor|]. split; [discriminate|].
        intros e' [= <-]. left. eexists. split; reflexivity. }
    destruct (yield_each _parse_funding_rate batch) as [rates err] eqn:Hy.
    destruct (yield_each_prefix _ _ _ _ Hy) as (Hall & Hle & Hlen & Herr).
    destruct err as [e|].
    { cbn [emitted exchanges outcome map snd concat]. rewrite app_nil_r.
      split; [exact Hall|]. split; [discriminate|].
      intros e' [= <-]. right. apply Herr. reflexivity. }
    specialize (Hlen eq_refl).
    destruct (Z.ltb_spec (Z.of_nat (length batch)) page) as [Hshort|Hfull].
    { cbn [emitted exchanges outcome map snd concat]. rewrite app_nil_r.
      split; [exact Hall|]. split; [intros _; exact Hlen|discriminate]. }
    destruct (advance_after_funding_page batch rates Hy Hfull) as (_ & r & _ & Hr & _).
    rewrite Hr. cbv zeta. cbn [emitted exchanges outcome map snd concat].
    destruct (IH (RawFundingRate.funding_time_ms r + 1)) as (IH1 & IH2 & IH3).
    cbv zeta in IH1, IH2, IH3.
    set (next := loop fuel (RawFundingRate.funding_time_ms r + 1)) in *.
    rewrite length_app, Hlen.
    split; [|split].
    + rewrite take_app_add'; [|reflexivity].
      apply Forall2_app; [|exact IH1].
      rewrite Hlen, firstn_all in Hall. exact Hall.
    + intros Hc. rewrite length_app, (IH2 Hc). reflexivity.
    + intros e He. destruct (IH3 e He) as [(ex & Hex & Herr')|(row & Hrow & Hraise)].
      * left. exists ex. split; [|exact Herr'].
        destruct (exchanges next) as [|x xs]; [discriminate|].
        rewrite last_cons_cons. exact Hex.
      * right. exists row. split; [|exact Hraise].
        rewrite lookup_app_r by lia.
        replace (length batch + length (emitted next) - length batch)%nat
          with (length (emitted next)) by lia.
        exact Hrow.
Qed.

(** With an exchange whose full pages end with a record settled at or
    after the requested start and no later than [latest], the loop ends. *)
Variable latest : Z.
Hypothesis progress :
  forall cursor batch row r,
  client (request cursor) = Ok batch ->
  last batch = Some row ->
  _parse_funding_rate row = Ok r ->
  cursor <= RawFundingRate.funding_time_ms r <= latest.

Lemma funding_loop_terminates (fuel : nat) :
  forall cursor,
  (Z.to_nat (latest + 1 - cursor) < fuel)%nat ->
  outcome (loop fuel cursor) <> OutOfFuel
  /\ (length (exchanges (loop fuel cursor)) <= S (Z.to_nat (latest + 1 - cursor)))%nat.
Proof.
  induction fuel as [|fuel IH]; intros cursor Hfuel; [lia|].
  rewrite funding_loop_unfold.
  destruct (client (request cursor)) as [batch|e] eqn:Hc.
  2:{ simpl. split; [discriminate|lia]. }
  destruct (yield_each _parse_funding_rate batch) as [rates [e|]] eqn:Hy.
  { simpl. split; [discriminate|lia]. }
  destruct (Z.ltb_spec (Z.of_nat (length batch)) page) as [Hshort|Hfull].
  { simpl. split; [discriminate|lia]. }
  destruct (advance_after_funding_page batch rates Hy Hfull)
    as (row & r & Hrow & Hr & Hp & _).
  rewrite Hr. cbv zeta. cbn [outcome exchanges length].
  pose proof (progress cursor batch row r Hc Hrow Hp) as Hadv.
  destruct (IH (RawFundingRate.funding_time_ms r + 1)) as [IH1 IH2]; [lia|].
  split; [exact IH1|lia].
Qed.

End FundingPagesOfAnyExchange.

Section PaginationAgainstAnyExchange.

(** X8. Whatever the exchange answers, [fetch_klines] only sends requests
    for its own path, symbol and interval, with the end of the range as
    [endTime], a limit of 1000 and a start before the end of the range, the
    first one at [start_ms]; [fetch_funding_rates] only sends requests with
    a limit of 1000 and the [endTime] it was given (none when omitted), the
    first one at [start_ms].  A request is followed by another one only
    after a response of at least 1000 rows. *)
Theorem requests_stay_within_the_range
    (klines : Client (list (list Any))) (funding : Client (list (gmap string Any)))
    (fuel : nat) (symbol : string) (interval : KlineInterval)
    (start_ms end_ms : Z) (funding_end : option Z) :
  let kline_request path cursor :=
    {| path := path;
       param_symbol := symbol;
       param_interval := Some (interval_value interval);
       startTime := Some cursor;
       endTime := Some end_ms;
       limit := Some 1000 |} in
  let funding_request cursor :=
    {| path := "/fapi/v1/fundingRate";
       param_symbol := symbol;
       param_interval := None;
       startTime := Some cursor;
       endTime := funding_end;
       limit := Some 1000 |} in
  let spot := binance.fetch_klines klines fuel symbol interval start_ms end_ms in
  let futures :=
    binance_futures.fetch_klines klines fuel symbol interval start_ms end_ms in
  let rates :=
    binance_futures.fetch_funding_rates funding fuel symbol start_ms funding_end in
  (Forall (fun ex => exists c, fst ex = kline_request "/api/v3/klines" c
                               /\ c < end_ms) (exchanges spot)
   /\ head (map fst (exchanges spot))
      = (if (start_ms <? end_ms) && negb (Nat.eqb fuel 0)
         then Some (kline_request "/api/v3/klines" start_ms) else None)
   /\ Forall (full_page 1000) (removelast (exchanges spot)))
  /\ (Forall (fun ex => exists c, fst ex = kline_request "/fapi/v1/klines" c
                                  /\ c < end_ms) (exchanges futures)
      /\ head (map fst (exchanges futures))
         = (if (start_ms <? end_ms) && negb (Nat.eqb fuel 0)
            then Some (kline_request "/fapi/v1/klines" start_ms) else None)
      /\ Forall (full_page 1000) (removelast (exchanges futures)))
  /\ (Forall (fun ex => exists c, fst ex = funding_request c) (exchanges rates)
      /\ head (map fst (exchanges rates))
         = (if Nat.eqb fuel 0 then None else Some (funding_request start_ms))
      /\ Forall (full_page 1000) (removelast (exchanges rates))).
Proof.
  cbv zeta.
  assert (Hremove : forall (Row : Type) (exs : list (Request * Result (list Row))),
            (forall front ex, exs = front ++ [ex] -> Forall (full_page 1000) front) ->
            Forall (full_page 1000) (removelast exs)).
  { intros Row exs H. destruct exs as [|x xs] using rev_ind; [constructor|].
    rewrite removelast_last. eapply H. reflexivity. }
  assert (Hkl : forall path,
            let run := connectors.fetch_klines path 1000 klines fuel symbol interval
                         start_ms end_ms in
            Forall (fun ex => exists c,
                      fst ex = {| path := path;
                                  param_symbol := symbol;
                                  param_interval := Some (interval_value interval);
                                  startTime := Some c;
                                  endTime := Some end_ms;
                                  limit := Some 1000 |} /\ c < end_ms)
                   (exchanges run)
            /\ head (map fst (exchanges run))
               = (if (start_ms <? end_ms) && negb (Nat.eqb fuel 0)
                  then Some {| path := path;
                               param_symbol := symbol;
                               param_interval := Some (interval_value interval);
                               startTime := Some start_ms;
                               endTime := Some end_ms;
                               limit := Some 1000 |}
                  else None)
            /\ Forall (full_page 1000) (removelast (exchanges run))).
  { intros path run.
    destruct (loop_requests path 1000 ltac:(lia) klines symbol interval end_ms fuel
                start_ms) as (H1 & H2 & H3).
    fold (connectors.fetch_klines path 1000 klines fuel symbol interval start_ms end_ms)
      in H1, H2, H3. fold run in H1, H2, H3.
    split; [exact H1|]. split; [|apply Hremove, H2].
    destruct (exchanges run) as [|ex rest] eqn:E.
    - destruct fuel as [|fuel']; [rewrite andb_false_r; reflexivity|].
      unfold run, connectors.fetch_klines in E.
      rewrite loop_unfold in E by lia.
      destruct (start_ms <? end_ms); [|reflexivity].
      exfalso. revert E.
      repeat match goal with
             | |- context [match ?x with _ => _ end] => destruct x
             | |- context [if ?x then _ else _] => destruct x
             end; discriminate.
    - cbn [map head]. rewrite (H3 ex rest eq_refl).
      apply Forall_inv in H1 as (c & Hc & Hlt). rewrite (H3 ex rest eq_refl) in Hc.
      injection Hc as <-.
      destruct (Z.ltb_spec start_ms end_ms); [|lia].
      destruct fuel; [discriminate|]. reflexivity. }
  split; [exact (Hkl "/api/v3/klines")|].
  split; [exact (Hkl "/fapi/v1/klines")|].
  destruct (funding_loop_requests 1000 ltac:(lia) funding symbol funding_end fuel
              start_ms) as (H1 & H2 & H3 & H4).
  split; [exact H1|]. split; [|apply Hremove, H2].
  destruct fuel as [|fuel']; [reflexivity|].
  unfold binance_futures.fetch_funding_rates, binance_futures._FUNDING_PAGE.
  destruct (exchanges (binance_futures.funding_loop 1000 funding (S fuel') symbol
                         funding_end start_ms)) as [|ex rest] eqn:E.
  - exfalso. apply H4; [lia|reflexivity].
  - cbn [map head]. rewrite (H3 ex rest eq_refl). reflexivity.
Qed.

(** X9. Whatever the exchange answers, the records that [fetch_klines] and
    [fetch_funding_rates] emit are the parsed rows of the responses, in the
    order received, none left out, repeated or invented.  When the
    generator completes, every row received has been emitted; when it
    fails, the exception is that of the last response or that of the parser
    on the first row not emitted. *)
Theorem emitted_records_are_the_rows_received
    (klines : Client (list (list Any))) (funding : Client (list (gmap string Any)))
    (fuel : nat) (symbol : string) (interval : KlineInterval)
    (start_ms end_ms : Z) (funding_end : option Z) :
  let faithful {Row A : Type} (parse : Row -> Result A) (run : Run A (list Row)) :=
    let rows := rows_received (exchanges run) in
    Forall2 (fun row x => parse row = Ok x)
            (take (length (emitted run)) rows) (emitted run)
    /\ match outcome run with
       | Completed => length (emitted run) = length rows
       | Failed e =>
           (exists ex, last (exchanges run) = Some ex /\ transport_error e ex)
           \/ (exists row, rows !! length (emitted run) = Some row
                           /\ parse row = Raise e)
       | OutOfFuel => True
       end in
  faithful binance._parse_rest_kline
    (binance.fetch_klines klines fuel symbol interval start_ms end_ms)
  /\ faithful binance_futures._parse_rest_kline
       (binance_futures.fetch_klines klines fuel symbol interval start_ms end_ms)
  /\ faithful binance_futures._parse_funding_rate
       (binance_futures.fetch_funding_rates funding fuel symbol start_ms funding_end).
Proof.
  cbv zeta.
  assert (Hkl : forall path,
            let run := connectors.fetch_klines path 1000 klines fuel symbol interval
                         start_ms end_ms in
            let rows := rows_received (exchanges run) in
            Forall2 (fun row x => connectors._parse_rest_kline row = Ok x)
                    (take (length (emitted run)) rows) (emitted run)
            /\ match outcome run with
               | Completed => length (emitted run) = length rows
               | Failed e =>
                   (exists ex, last (exchanges run) = Some ex /\ transport_error e ex)
                   \/ (exists row, rows !! length (emitted run) = Some row
                                   /\ connectors._parse_rest_kline row = Raise e)
               | OutOfFuel => True
               end).
  { intros path run rows.
    destruct (loop_rows path 1000 ltac:(lia) klines symbol interval end_ms fuel start_ms)
      as (H1 & H2 & H3).
    split; [exact H1|].
    fold (connectors.fetch_klines path 1000 klines fuel symbol interval start_ms end_ms)
      in H2, H3. fold run in H2, H3.
    destruct (outcome run); [apply H2; reflexivity|apply H3; reflexivity|exact I]. }
  split; [exact (Hkl "/api/v3/klines")|].
  split; [exact (Hkl "/fapi/v1/klines")|].
  destruct (funding_loop_rows 1000 ltac:(lia) funding symbol funding_end fuel start_ms)
    as (H1 & H2 & H3).
  split; [exact H1|].
  unfold binance_futures.fetch_funding_rates, binance_futures._FUNDING_PAGE.
  destruct (outcome (binance_futures.funding_loop 1000 funding fuel symbol funding_end
                       start_ms));
    [apply H2; reflexivity|apply H3; reflexivity|exact I].
Qed.

(** X10. [fetch_klines] terminates against every exchange that answers a
    request with klines closing at or after the requested start: the
    cursor then advances with every page, and at most [end_ms - start_ms]
    requests are sent. *)
Theorem fetch_klines_terminates (klines : Client (list (list Any)))
    (fuel : nat) (symbol : string) (interval : KlineInterval) (start_ms end_ms : Z) :
  (forall req cursor batch row k,
     klines req = Ok batch ->
     startTime req = Some cursor ->
     last batch = Some row ->
     connectors._parse_rest_kline row = Ok k ->
     cursor <= RawKline.close_time_ms k) ->
  (Z.to_nat (end_ms - start_ms) < fuel)%nat ->
  let spot := binance.fetch_klines klines fuel symbol interval start_ms end_ms in
  let futures :=
    binance_futures.fetch_klines klines fuel symbol interval start_ms end_ms in
  (outcome spot <> OutOfFuel
   /\ (length (exchanges spot) <= Z.to_nat (end_ms - start_ms))%nat)
  /\ (outcome futures <> OutOfFuel
      /\ (length (exchanges futures) <= Z.to_nat (end_ms - start_ms))%nat).
Proof.
  intros Hprogress Hfuel. cbv zeta. split.
  - apply (loop_terminates "/api/v3/klines" 1000 ltac:(lia) klines symbol interval
             end_ms); [|exact Hfuel].
    intros cursor batch row k Hc. eapply Hprogress; [exact Hc|reflexivity].
  - apply (loop_terminates "/fapi/v1/klines" 1000 ltac:(lia) klines symbol interval
             end_ms); [|exact Hfuel].
    intros cursor batch row k Hc. eapply Hprogress; [exact Hc|reflexivity].
Qed.

(** X11. [fetch_funding_rates] terminates against every exchange whose
    full pages end with a record settled at or after the requested start
    and no later than some latest settlement: at most
    [latest - start_ms + 2] requests are sent. *)
Theorem fetch_funding_rates_terminates (funding : Client (list (gmap string Any)))
    (fuel : nat) (symbol : string) (start_ms : Z) (end_ms : option Z) (latest : Z) :
  (forall req cursor batch row r,
     funding req = Ok batch ->
     startTime req = Some cursor ->
     last batch = Some row ->
     binance_futures._parse_funding_rate row = Ok r ->
     cursor <= RawFundingRate.funding_time_ms r <= latest) ->
  (Z.to_nat (latest + 1 - start_ms) < fuel)%nat ->
  let rates :=
    binance_futures.fetch_funding_rates funding fuel symbol start_ms end_ms in
  outcome rates <> OutOfFuel
  /\ (length (exchanges rates) <= S (Z.to_nat (latest + 1 - start_ms)))%nat.
Proof.
  intros Hprogress Hfuel. cbv zeta.
  apply (funding_loop_terminates 1000 ltac:(lia) funding symbol end_ms latest);
    [|exact Hfuel].
  intros cursor batch row r Hc. eapply Hprogress; [exact Hc|reflexivity].
Qed.

End PaginationAgainstAnyExchange.

(** ** Streams and parsers *)

Section StreamsInSequence.

Import connectors.

Lemma yield_each_then {A B : Type} (parse : A -> Result B) (ws1 ws2 : list A) :
  yield_each parse (ws1 ++ ws2)
  = stream_then (yield_each parse ws1) (yield_each parse ws2).
Proof.
  unfold stream_then.
  destruct (yield_each parse ws1) as [out1 [e|]] eqn:E; cbn [fst snd].
  - apply yield_each_stops, E.
  - apply yield_each_app, E.
Qed.

Lemma stream_klines_then (ws1 ws2 : list (gmap string Any)) :
  stream_klines (ws1 ++ ws2)
  = stream_then (stream_klines ws1) (stream_klines ws2).
Proof.
  unfold stream_then. induction ws1 as [|data rest IH].
  - simpl. destruct (stream_klines ws2). reflexivity.
  - cbn [app stream_klines].
    destruct (let* k := dict_getitem data "k" in
              let* x := getitem k "x" in
              if truthy x
              then let* kline := _parse_ws_kline k in Ok [kline]
              else Ok []) as [yielded|e]; [|reflexivity].
    rewrite IH.
    destruct (stream_klines rest) as [later [e|]]; cbn [fst snd]; [reflexivity|].
    rewrite app_assoc. reflexivity.
Qed.

(** X12. The three stream methods handle the messages one by one, in
    order: what they yield for a feed followed by another is what they
    yield for the first, followed by what they yield for the second; and
    once a message has made them raise, nothing that arrives later is
    yielded. *)
Theorem streams_stop_at_the_first_failure (ws1 ws2 : list (gmap string Any)) :
  binance.stream_klines (ws1 ++ ws2)
  = stream_then (binance.stream_klines ws1) (binance.stream_klines ws2)
  /\ binance.stream_trades (ws1 ++ ws2)
     = stream_then (binance.stream_trades ws1) (binance.stream_trades ws2)
  /\ binance_futures.stream_mark_price (ws1 ++ ws2)
     = stream_then (binance_futures.stream_mark_price ws1)
                   (binance_futures.stream_mark_price ws2).
Proof.
  split; [apply stream_klines_then|]. split; apply yield_each_then.
Qed.

End StreamsInSequence.

Section ParsersCopyTheFields.

Import connectors.

Local Ltac read_fields H :=
  repeat match type of H with
         | context [match ?row !! ?key with _ => _ end] =>
             destruct (row !! key) eqn:?; cbn [bind] in H; [|discriminate]
         | context [bind (py_int ?x) _] =>
             destruct (py_int x) eqn:?; cbn [bind] in H; [|discriminate]
         end.


(** X14. The trade stream has no [quoteQty]; [_parse_ws_trade] computes it.
    When it returns, the price and the quantity of the record are the
    fields [p] and [q] of the message and they are decimal texts (unlike the
    REST parser, it has converted them); when their product is one that the
    decimal context does not round, the quote quantity of the record is a
    text that converts back to a decimal denoting exactly that product. *)
Theorem ws_trade_quote_is_the_exact_product (data : gmap string Any)
    (raw : RawTrade.t) :
  binance._parse_ws_trade data = Ok raw ->
  exists p q,
    data !! "p" = Some (RawTrade.price raw)
    /\ data !! "q" = Some (RawTrade.qty raw)
    /\ Decimal_ (RawTrade.price raw) = Ok p
    /\ Decimal_ (RawTrade.qty raw) = Ok q
    /\ (fits_context (Dmul p q) = true ->
        exists quote,
          Decimal_ (RawTrade.quote_qty raw) = Ok quote
          /\ (Dval quote == Dval p * Dval q)%Q).
Proof.
  unfold binance._parse_ws_trade, _parse_ws_trade, dict_getitem. intros H.
  destruct (data !! "p") as [p|] eqn:Hp; cbn [bind] in H; [|discriminate].
  destruct (Decimal_ p) as [dp|] eqn:Hdp; cbn [bind] in H; [|discriminate].
  destruct (data !! "q") as [q|] eqn:Hq; cbn [bind] in H; [|discriminate].
  destruct (Decimal_ q) as [dq|] eqn:Hdq; cbn [bind] in H; [|discriminate].
  read_fields H. injection H as <-.
  exists dp, dq. cbn [RawTrade.price RawTrade.qty RawTrade.quote_qty Decimal_].
  split; [reflexivity|]. split; [reflexivity|].
  split; [exact Hdp|]. split; [exact Hdq|].
  intros _. exists (Dmul dp dq). split; [apply Decimal_of_str_str|apply Dval_mul].
Qed.

End ParsersCopyTheFields.

Section IntervalTable.

(** X15. The table [_INTERVAL_SECONDS] agrees with the texts of the
    intervals: for every interval it holds the number of seconds that the
    wire text denotes (a month counted as thirty days), and two different
    intervals have different wire texts and different durations. *)
Theorem interval_table_matches_the_wire_texts :
  (forall i, denoted_seconds (interval_value i)
             = Some (normalizers._INTERVAL_SECONDS i))
  /\ (forall i j, interval_value i = interval_value j <-> i = j)
  /\ (forall i j, normalizers._INTERVAL_SECONDS i = normalizers._INTERVAL_SECONDS j
                  <-> i = j).
Proof.
  split; [intros i; destruct i; reflexivity|].
  split; intros i j; (split; [|intros ->; reflexivity]);
    destruct i, j; first [reflexivity|discriminate].
Qed.

End IntervalTable.

(** ** Floats: the conversions between instants and milliseconds *)

Section Binary64.

Local Open Scope Q_scope.

Lemma round_half_even_error (q : Q) :
  Qabs (inject_Z (round_half_even q) - q) <= 1 # 2.
Proof.
  unfold round_half_even.
  pose proof (Qfloor_le q) as Hlo. pose proof (Qlt_floor q) as Hhi.
  rewrite inject_Z_plus in Hhi. change (inject_Z 1) with 1 in Hhi.
  set (f := Qfloor q) in *.
  apply Qabs_Qle_condition.
  destruct (Qcompare_spec (q - inject_Z f) (1 # 2)) as [E|E|E].
  - destruct (Z.even f); [|rewrite inject_Z_plus; change (inject_Z 1) with 1]; lra.
  - lra.
  - rewrite inject_Z_plus. change (inject_Z 1) with 1. lra.
Qed.

Lemma round_half_even_near (q : Q) (z : Z) :
  Qabs (q - inject_Z z) < 1 # 2 -> round_half_even q = z.
Proof.
  intros H. apply Qabs_Qlt_condition in H.
  pose proof (round_half_even_error q) as E. apply Qabs_Qle_condition in E.
  assert (H1 : inject_Z (round_half_even q) < inject_Z (z + 1)).
  { rewrite inject_Z_plus. change (inject_Z 1) with 1. lra. }
  assert (H2 : inject_Z (z - 1) < inject_Z (round_half_even q)).
  { unfold Z.sub. rewrite inject_Z_plus, inject_Z_opp. change (inject_Z 1) with 1. lra. }
  rewrite <- Zlt_Qlt in H1, H2. lia.
Qed.

Lemma round_half_even_Z (x : Q) (z : Z) :
  x == inject_Z z -> round_half_even x = z.
Proof.
  intros E. apply round_half_even_near, Qabs_Qlt_condition. lra.
Qed.


Lemma two_not_zero : ~ 2 == 0.
Proof. discriminate. Qed.

Lemma pow2_pos (e : Z) : 0 < Qpower 2 e.
Proof. apply Qpower_0_lt. reflexivity. Qed.

Lemma pow2_ratio (a b : Z) :
  (0 <= a)%Z -> (0 <= b)%Z ->
  Qpower 2 (a - b) == (2 ^ a)%Z # Z.to_pos (2 ^ b).
Proof.
  intros Ha Hb. unfold Z.sub.
  rewrite (Qpower_plus 2 a (- b) two_not_zero), Qpower_opp.
  change 2 with (inject_Z 2).
  rewrite <- !Zpower_Qpower by assumption.
  remember (Z.to_pos (2 ^ b)) as p eqn:Ep.
  replace (2 ^ b)%Z with (Zpos p)
    by (subst p; apply Z2Pos.id, Z.pow_pos_nonneg; lia).
  symmetry. apply Qmake_Qdiv.
Qed.

Lemma Qlog2_spec (q : Q) :
  0 < q -> Qpower 2 (Qlog2 q) <= q /\ q < Qpower 2 (Qlog2 q + 1).
Proof.
  intros Hq. unfold Qlog2.
  assert (Hn : (0 < Qnum q)%Z).
  { unfold Qlt in Hq. simpl in Hq. lia. }
  pose proof (Z.log2_spec (Qnum q) Hn) as [Hn1 Hn2].
  pose proof (Z.log2_spec (Zpos (Qden q)) eq_refl) as [Hd1 Hd2].
  pose proof (Z.log2_nonneg (Qnum q)) as Hln.
  pose proof (Z.log2_nonneg (Zpos (Qden q))) as Hld.
  set (Ln := Z.log2 (Qnum q)) in *. set (Ld := Z.log2 (Zpos (Qden q))) in *.
  assert (Pn : (0 < 2 ^ Ln)%Z) by (apply Z.pow_pos_nonneg; lia).
  assert (Pd : (0 < 2 ^ Ld)%Z) by (apply Z.pow_pos_nonneg; lia).
  rewrite Z.pow_succ_r in Hn2, Hd2 by lia.
  destruct (Qle_bool (2 ^ (Ln - Ld)) q) eqn:E.
  - split; [apply Qle_bool_iff, E|].
    replace (Ln - Ld + 1)%Z with (Ln + 1 - Ld)%Z by lia.
    rewrite pow2_ratio by lia.
    unfold Qlt. cbn [Qnum Qden]. rewrite Z2Pos.id by lia.
    rewrite Z.pow_add_r by lia. change (2 ^ 1)%Z with 2%Z.
    generalize dependent (2 ^ Ln)%Z. generalize dependent (2 ^ Ld)%Z.
    intros; nia.
  - split.
    + replace (Ln - Ld - 1)%Z with (Ln - (Ld + 1))%Z by lia.
      rewrite pow2_ratio by lia.
      unfold Qle. cbn [Qnum Qden].
      rewrite Z2Pos.id by (apply Z.pow_pos_nonneg; lia).
      rewrite Z.pow_add_r by lia. change (2 ^ 1)%Z with 2%Z.
      generalize dependent (2 ^ Ln)%Z. generalize dependent (2 ^ Ld)%Z.
      intros; nia.
    + replace (Ln - Ld - 1 + 1)%Z with (Ln - Ld)%Z by lia.
      apply Qnot_le_lt. intros H. apply Qle_bool_iff in H. congruence.
Qed.

Lemma binary64_comp (x y : Q) : x == y -> binary64 x = binary64 y.
Proof.
  intros E. unfold binary64. rewrite (Qred_complete _ _ E). reflexivity.
Qed.

Lemma pow2_52 (e : Z) : Qpower 2 (e + 52) == Qpower 2 e * 4503599627370496.
Proof. rewrite (Qpower_plus 2 e 52 two_not_zero). reflexivity. Qed.

(** The magnitude that [binary64] computes for a positive number. *)
Lemma significand_error (a : Q) :
  0 < a ->
  let e := (Qlog2 a - 52)%Z in
  let m := round_half_even (a / Qpower 2 e) in
  Qabs (inject_Z m * Qpower 2 e - a) <= a * (1 # 9007199254740992).
Proof.
  intros Ha e m.
  pose proof (pow2_pos e) as HP.
  pose proof (round_half_even_error (a / Qpower 2 e)) as Hm. fold m in Hm.
  apply Qabs_Qle_condition in Hm.
  destruct (Qlog2_spec a Ha) as [Hlog _].
  replace (Qlog2 a) with (e + 52)%Z in Hlog by (unfold e; lia).
  rewrite pow2_52 in Hlog.
  set (P := Qpower 2 e) in *.
  assert (HtP : a / P * P == a) by (field; lra).
  set (t := a / P) in *.
  assert (H1 : (inject_Z m - t) * P <= (1 # 2) * P)
    by (apply Qmult_le_compat_r; lra).
  assert (H2 : - (1 # 2) * P <= (inject_Z m - t) * P)
    by (apply Qmult_le_compat_r; lra).
  apply Qabs_Qle_condition. lra.
Qed.

Lemma binary64_error (x : Q) :
  Qabs (binary64 x - x) <= Qabs x * (1 # 9007199254740992).
Proof.
  unfold binary64. pose proof (Qred_correct x) as Hq. set (q := Qred x) in *.
  assert (Hsign : (Qnum q = 0)%Z /\ q == 0
                  \/ (0 < Qnum q)%Z /\ 0 < q \/ (Qnum q < 0)%Z /\ q < 0).
  { unfold Qeq, Qlt. simpl. destruct (Qnum q); [left|right; left|right; right];
      split; lia. }
  pose proof (Qabs_nonneg x) as Hx.
  destruct Hsign as [[Hn H0]|[[Hn Hpos]|[Hn Hneg]]].
  - rewrite Hn. apply Qabs_Qle_condition. lra.
  - assert (Ha : Qabs q == q) by (apply Qabs_pos; lra).
    assert (Hax : Qabs x == q) by (rewrite <- Hq; exact Ha).
    pose proof (significand_error (Qabs q)) as H. cbv zeta in H.
    destruct (Qnum q) as [|p|p] eqn:En; try lia. cbn [Z.sgn].
    rewrite Z.mul_1_l.
    specialize (H ltac:(lra)). apply Qabs_Qle_condition in H.
    apply Qabs_Qle_condition. lra.
  - assert (Ha : Qabs q == - q) by (apply Qabs_neg; lra).
    assert (Hax : Qabs x == - q) by (rewrite <- Hq; exact Ha).
    pose proof (significand_error (Qabs q)) as H. cbv zeta in H.
    destruct (Qnum q) as [|p|p] eqn:En; try lia. cbn [Z.sgn].
    replace (-1 * round_half_even (Qabs q / 2 ^ (Qlog2 (Qabs q) - 52)))%Z
      with (- round_half_even (Qabs q / 2 ^ (Qlog2 (Qabs q) - 52)))%Z by lia.
    rewrite inject_Z_opp.
    specialize (H ltac:(lra)). apply Qabs_Qle_condition in H.
    apply Qabs_Qle_condition. lra.
Qed.

Lemma Qred_inject_Z (z : Z) : Qred (inject_Z z) = inject_Z z.
Proof. apply Qcanon.Qred_identity. simpl. apply Z.gcd_1_r. Qed.

Lemma Qlog2_small (a : Q) :
  0 < a -> a < 9007199254740992 -> (Qlog2 a <= 52)%Z.
Proof.
  intros Ha Hlt. destruct (Qlog2_spec a Ha) as [Hlo _].
  destruct (Z_le_gt_dec (Qlog2 a) 52%Z) as [H|H]; [exact H|exfalso].
  assert (Hpow : Qpower 2 53 <= Qpower 2 (Qlog2 a)).
  { apply Qpower_le_compat_l; [lia|discriminate]. }
  change (Qpower 2 53) with 9007199254740992 in Hpow. lra.
Qed.

(** Integers below [2^53] in absolute value are floats. *)
Lemma binary64_integer (x : Q) (z : Z) :
  x == inject_Z z -> (Z.abs z < 9007199254740992)%Z -> binary64 x == inject_Z z.
Proof.
  intros E Hz. rewrite (binary64_comp _ _ E). unfold binary64.
  rewrite Qred_inject_Z. cbn [Qnum inject_Z].
  destruct (Z.eq_dec z 0%Z) as [->|Hnz]; [reflexivity|].
  assert (Ha : Qabs (inject_Z z) == inject_Z (Z.abs z)) by reflexivity.
  assert (Hpos : 0 < Qabs (inject_Z z)).
  { rewrite Ha. change 0 with (inject_Z 0). rewrite <- Zlt_Qlt. lia. }
  assert (Hsmall : Qabs (inject_Z z) < 9007199254740992).
  { rewrite Ha. change 9007199254740992 with (inject_Z 9007199254740992).
    rewrite <- Zlt_Qlt. exact Hz. }
  pose proof (Qlog2_small _ Hpos Hsmall) as He.
  set (e := (Qlog2 (Qabs (inject_Z z)) - 52)%Z) in *.
  assert (HI : inject_Z (2 ^ (- e)) == / Qpower 2 e).
  { rewrite Zpower_Qpower by lia. apply Qpower_opp. }
  pose proof (pow2_pos e) as HP.
  assert (Hdiv : Qabs (inject_Z z) / Qpower 2 e == inject_Z (Z.abs z * 2 ^ (- e))).
  { rewrite inject_Z_mult, Ha, HI. reflexivity. }
  rewrite (round_half_even_Z _ _ Hdiv).
  assert (Hback : forall A : Q, A * inject_Z (2 ^ (- e)) * Qpower 2 e == A).
  { intros A. rewrite HI.
    assert (Hne : ~ Qpower 2 e == 0) by lra.
    revert Hne. generalize (Qpower 2 e). intros P Hne. field. exact Hne. }
  destruct z as [|p|p]; [congruence| |]; cbn [Z.sgn Z.abs].
  - change (Z.abs (Z.pos p)) with (Z.pos p).
    rewrite Z.mul_1_l, inject_Z_mult. apply Hback.
  - change (Z.abs (Z.neg p)) with (Z.pos p).
    rewrite !inject_Z_mult, Qmult_assoc, Hback. reflexivity.
Qed.

Lemma truncate_Z (x : Q) (z : Z) : x == inject_Z z -> truncate x = z.
Proof.
  unfold truncate, Qeq. cbn [Qnum Qden inject_Z]. intros E.
  rewrite Z.mul_1_r in E. rewrite E. apply Z.quot_mul. discriminate.
Qed.

Lemma truncate_floor (x : Q) (k : Z) :
  (0 <= k)%Z -> inject_Z k <= x -> x < inject_Z (k + 1) -> truncate x = k.
Proof.
  intros Hk Hlo Hhi.
  assert (Hx : (0 <= Qnum x)%Z).
  { assert (H0 : 0 <= x).
    { eapply Qle_trans; [|exact Hlo]. change 0 with (inject_Z 0).
      rewrite <- Zle_Qle. exact Hk. }
    unfold Qle in H0. simpl in H0. lia. }
  unfold truncate. rewrite Z.quot_div_nonneg by lia.
  replace (Qnum x / Zpos (Qden x))%Z with (Qfloor x) by (destruct x; reflexivity).
  pose proof (Qfloor_resp_le _ _ Hlo) as H1. rewrite Qfloor_Z in H1.
  pose proof (Qfloor_le x) as H2.
  assert (H3 : inject_Z (Qfloor x) < inject_Z (k + 1)) by lra.
  rewrite <- Zlt_Qlt in H3. lia.
Qed.

Lemma split_thousands (u : Z) :
  let k := (u / 1000)%Z in
  let j := (u mod 1000)%Z in
  inject_Z u == 1000 * inject_Z k + inject_Z j
  /\ (0 <= j < 1000)%Z /\ 0 <= inject_Z j /\ inject_Z j <= 999
  /\ (j <> 0%Z -> 1 <= inject_Z j).
Proof.
  intros k j. pose proof (Z.div_mod u 1000%Z ltac:(lia)) as E.
  pose proof (Z.mod_pos_bound u 1000%Z ltac:(lia)) as Hj. fold k j in E, Hj.
  split; [|split; [exact Hj|]].
  - rewrite E at 1. rewrite inject_Z_plus, inject_Z_mult. reflexivity.
  - split; [|split].
    + change 0 with (inject_Z 0). rewrite <- Zle_Qle. lia.
    + change 999 with (inject_Z 999). rewrite <- Zle_Qle. lia.
    + intros Hne. change 1 with (inject_Z 1). rewrite <- Zle_Qle. lia.
Qed.

(** X16. [_to_ms] is exact on whole seconds: for every instant that is a
    whole number of seconds since the epoch, over the whole range of
    [datetime] (years 1 to 9999), it returns that number times 1000; the two
    float operations it goes through lose nothing there. *)
Theorem to_ms_is_exact_on_whole_seconds (s : Z) :
  (Z.abs s <= 9000000000000)%Z ->
  clients._to_ms (s * 1000000)%Z = (s * 1000)%Z.
Proof.
  intros Hs. unfold clients._to_ms. apply truncate_Z.
  assert (E1 : binary64 (s * 1000000 # 1000000) == inject_Z s).
  { apply binary64_integer; [unfold Qeq; simpl; lia|lia]. }
  rewrite (binary64_comp _ (inject_Z (s * 1000))).
  - apply binary64_integer; [reflexivity|lia].
  - rewrite E1, inject_Z_mult. reflexivity.
Qed.

(** X17. On an instant with a fraction of a second [_to_ms] can lose a
    millisecond, and no more: for an instant of [u] microseconds since the
    epoch, up to the year 2096, it returns [u / 1000] rounded down or one
    less, and exactly [u / 1000] rounded down when [u] is not a whole number
    of milliseconds.  The product with [1_000] of a float can fall just
    below a whole number, and [int] then drops the fraction. *)
Theorem to_ms_loses_at_most_a_millisecond (u : Z) :
  (0 <= u < 4000000000000000)%Z ->
  (u / 1000 - 1 <= clients._to_ms u <= u / 1000)%Z
  /\ ((u mod 1000)%Z <> 0%Z -> clients._to_ms u = (u / 1000)%Z).
Proof.
  intros [H0 Hu].
  destruct (Z.eq_dec u 0%Z) as [->|Hnz]; [vm_compute; split; [split|]; congruence|].
  unfold clients._to_ms.
  destruct (split_thousands u) as (Eu & Hj & Hj0 & Hj9 & Hj1).
  set (k := (u / 1000)%Z) in *. set (j := (u mod 1000)%Z) in *.
  assert (Hk : (0 <= k)%Z) by (apply Z.div_pos; lia).
  assert (Hk0 : 0 <= inject_Z k)
    by (change 0 with (inject_Z 0); rewrite <- Zle_Qle; exact Hk).
  assert (Hu1 : 1 <= inject_Z u)
    by (change 1 with (inject_Z 1); rewrite <- Zle_Qle; lia).
  assert (Hu2 : inject_Z u < 4000000000000000).
  { change 4000000000000000 with (inject_Z 4000000000000000).
    rewrite <- Zlt_Qlt. exact Hu. }
  set (w := u # 1000000).
  assert (Hw : w * 1000000 == inject_Z u) by (unfold w, Qeq; simpl; lia).
  pose proof (binary64_error w) as E1.
  rewrite (Qabs_pos w) in E1 by lra. apply Qabs_Qle_condition in E1.
  set (x1 := binary64 w) in *.
  pose proof (binary64_error (x1 * 1000)) as E2.
  rewrite (Qabs_pos (x1 * 1000)) in E2 by lra. apply Qabs_Qle_condition in E2.
  set (x2 := binary64 (x1 * 1000)) in *.
  assert (Hlo : inject_Z k + inject_Z j * (1 # 1000) - (1 # 1000) < x2) by lra.
  assert (Hhi : x2 < inject_Z k + inject_Z j * (1 # 1000) + (1 # 1000)) by lra.
  destruct (Z.eq_dec j 0%Z) as [Ej|Ej].
  - split; [|congruence]. rewrite Ej in Hlo, Hhi.
    change (inject_Z 0) with 0 in Hlo, Hhi.
    destruct (Qlt_le_dec x2 (inject_Z k)) as [Hlt|Hge].
    + assert (Hk1 : (1 <= k)%Z).
      { destruct (Z.eq_dec k 0%Z) as [Ek|Ek]; [|lia]. exfalso.
        rewrite Ek, Ej in Eu. change (inject_Z 0) with 0 in Eu. lra. }
      rewrite (truncate_floor x2 (k - 1)); [lia|lia| |].
      * unfold Z.sub. rewrite inject_Z_plus, inject_Z_opp.
        change (inject_Z 1) with 1. lra.
      * replace (k - 1 + 1)%Z with k by lia. exact Hlt.
    + rewrite (truncate_floor x2 k); [lia|exact Hk|exact Hge|].
      rewrite inject_Z_plus. change (inject_Z 1) with 1. lra.
  - specialize (Hj1 Ej).
    assert (Et : truncate x2 = k).
    { apply truncate_floor; [exact Hk|lra|].
      rewrite inject_Z_plus. change (inject_Z 1) with 1. lra. }
    rewrite Et. split; [lia|reflexivity].
Qed.

Lemma ms_to_utc_float_is_exact (ms : Z) :
  (0 <= ms < 4000000000000)%Z ->
  normalizers._ms_to_utc_binary64 ms = (ms * 1000)%Z.
Proof.
  intros [H0 Hms]. unfold normalizers._ms_to_utc_binary64.
  destruct (split_thousands ms) as (Eu & Hj & Hj0 & Hj9 & Hj1).
  pose proof (Z.div_mod ms 1000%Z ltac:(lia)) as Ems.
  set (k := (ms / 1000)%Z) in *. set (j := (ms mod 1000)%Z) in *.
  assert (Hk : (0 <= k)%Z) by (apply Z.div_pos; lia).
  assert (Hk0 : 0 <= inject_Z k)
    by (change 0 with (inject_Z 0); rewrite <- Zle_Qle; exact Hk).
  assert (Hms2 : inject_Z ms < 4000000000000).
  { change 4000000000000 with (inject_Z 4000000000000).
    rewrite <- Zlt_Qlt. exact Hms. }
  set (w := ms # 1000).
  assert (Hw : w * 1000 == inject_Z ms) by (unfold w, Qeq; simpl; lia).
  destruct (Z.eq_dec j 0%Z) as [Ej|Ej].
  - rewrite Ej in Eu. change (inject_Z 0) with 0 in Eu.
    assert (Et : binary64 w == inject_Z k).
    { apply binary64_integer; [lra|lia]. }
    rewrite (truncate_Z _ _ Et).
    rewrite (binary64_comp _ 0) by (rewrite Et; ring).
    change (round_half_even (binary64 0)) with 0%Z. lia.
  - specialize (Hj1 Ej).
    pose proof (binary64_error w) as E1.
    rewrite (Qabs_pos w) in E1 by lra. apply Qabs_Qle_condition in E1.
    set (t := binary64 w) in *.
    assert (Et : truncate t = k).
    { apply truncate_floor; [exact Hk|lra|].
      rewrite inject_Z_plus. change (inject_Z 1) with 1. lra. }
    rewrite Et.
    pose proof (binary64_error ((t - inject_Z k) * 1000000)) as E2.
    rewrite (Qabs_pos ((t - inject_Z k) * 1000000)) in E2 by lra.
    apply Qabs_Qle_condition in E2.
    rewrite (round_half_even_near _ (1000 * j)); [lia|].
    apply Qabs_Qlt_condition. rewrite inject_Z_mult.
    change (inject_Z 1000) with 1000. lra.
Qed.

(** The loss does occur: the instant of millisecond 1001 is read back as
    millisecond 1000. *)
Example to_ms_of_1001_ms :
  normalizers._ms_to_utc_binary64 1001%Z = 1001000%Z
  /\ clients._to_ms 1001000%Z = 1000%Z.
Proof. split; vm_compute; reflexivity. Qed.

Lemma round_half_even_comp (x y : Q) :
  x == y -> round_half_even x = round_half_even y.
Proof.
  intros E. unfold round_half_even. rewrite (Qfloor_comp x y E).
  replace (x - inject_Z (Qfloor y) ?= 1 # 2) with (y - inject_Z (Qfloor y) ?= 1 # 2);
    [reflexivity|].
  apply Qcompare_comp; [rewrite E|]; reflexivity.
Qed.

Lemma round_half_even_monotone (x y : Q) :
  x <= y -> (round_half_even x <= round_half_even y)%Z.
Proof.
  intros Hxy.
  destruct (Z_le_gt_dec (round_half_even x) (round_half_even y)) as [H|H];
    [exact H|exfalso].
  pose proof (round_half_even_error x) as Ex. apply Qabs_Qle_condition in Ex.
  pose proof (round_half_even_error y) as Ey. apply Qabs_Qle_condition in Ey.
  assert (H1 : inject_Z (round_half_even y) + 1 <= inject_Z (round_half_even x)).
  { change 1 with (inject_Z 1). rewrite <- inject_Z_plus, <- Zle_Qle. lia. }
  assert (E : x == y) by lra.
  rewrite (round_half_even_comp _ _ E) in H. lia.
Qed.

(** The float nearest to a positive number lies in the binade of the
    number. *)
Lemma significand_bounds (a : Q) :
  0 < a ->
  let e := (Qlog2 a - 52)%Z in
  let m := round_half_even (a / Qpower 2 e) in
  Qpower 2 (Qlog2 a) <= inject_Z m * Qpower 2 e
  /\ inject_Z m * Qpower 2 e <= Qpower 2 (Qlog2 a + 1).
Proof.
  intros Ha e m.
  pose proof (pow2_pos e) as HP.
  destruct (Qlog2_spec a Ha) as [Hlo Hhi].
  replace (Qlog2 a + 1)%Z with (e + 53)%Z in * by (unfold e; lia).
  replace (Qlog2 a) with (e + 52)%Z in Hlo |- * by (unfold e; lia).
  rewrite pow2_52 in *.
  rewrite (Qpower_plus 2 e 53 two_not_zero) in *.
  change (Qpower 2 53) with 9007199254740992 in *.
  set (P := Qpower 2 e) in *.
  assert (HtP : a / P * P == a) by (field; lra).
  assert (Hm1 : (4503599627370496 <= m)%Z).
  { rewrite <- (round_half_even_Z (inject_Z 4503599627370496) _ ltac:(reflexivity)).
    apply round_half_even_monotone.
    apply Qle_shift_div_l; [exact HP|].
    change (inject_Z 4503599627370496) with 4503599627370496. lra. }
  assert (Hm2 : (m <= 9007199254740992)%Z).
  { rewrite <- (round_half_even_Z (inject_Z 9007199254740992) _ ltac:(reflexivity)).
    apply round_half_even_monotone.
    apply Qle_shift_div_r; [exact HP|].
    change (inject_Z 9007199254740992) with 9007199254740992. lra. }
  rewrite Zle_Qle in Hm1, Hm2.
  change (inject_Z 4503599627370496) with 4503599627370496 in Hm1.
  change (inject_Z 9007199254740992) with 9007199254740992 in Hm2.
  split.
  - rewrite (Qmult_comm P). apply Qmult_le_compat_r; lra.
  - rewrite (Qmult_comm P). apply Qmult_le_compat_r; lra.
Qed.

Lemma binary64_zero (x : Q) : x == 0 -> binary64 x = 0.
Proof. intros E. rewrite (binary64_comp _ _ E). reflexivity. Qed.

(** The value of [binary64] on a positive number. *)
Lemma binary64_positive (x : Q) :
  0 < x ->
  exists a, a == x /\ 0 < a
    /\ binary64 x
       == inject_Z (round_half_even (a / Qpower 2 (Qlog2 a - 52)))
          * Qpower 2 (Qlog2 a - 52).
Proof.
  intros Hx. unfold binary64.
  pose proof (Qred_correct x) as Hq. set (q := Qred x) in *.
  assert (Hpos : 0 < q) by lra.
  assert (Hn : (0 < Qnum q)%Z) by (unfold Qlt in Hpos; simpl in Hpos; lia).
  assert (Ha : Qabs q == q) by (apply Qabs_pos; lra).
  exists (Qabs q). split; [lra|]. split; [lra|].
  destruct (Qnum q) as [|p|p]; try lia. cbn [Z.sgn]. rewrite Z.mul_1_l.
  reflexivity.
Qed.

Lemma binary64_monotone (x y : Q) :
  0 <= x -> x <= y -> binary64 x <= binary64 y.
Proof.
  intros Hx Hxy.
  assert (Hnonneg : forall z, 0 < z -> 0 < binary64 z).
  { intros z Hz. destruct (binary64_positive z Hz) as (a & _ & Ha & ->).
    destruct (significand_bounds a Ha) as [H _]. cbv zeta in H.
    pose proof (pow2_pos (Qlog2 a)). lra. }
  destruct (Qlt_le_dec 0 x) as [Hpos|Hzero].
  2:{ rewrite (binary64_zero x) by lra.
      destruct (Qlt_le_dec 0 y) as [Hy|Hy].
      - apply Qlt_le_weak, Hnonneg, Hy.
      - rewrite (binary64_zero y) by lra. lra. }
  destruct (binary64_positive x Hpos) as (a & Eax & Ha & ->).
  destruct (binary64_positive y ltac:(lra)) as (b & Eby & Hb & ->).
  destruct (Qlog2_spec a Ha) as [Ha1 Ha2].
  destruct (Qlog2_spec b Hb) as [Hb1 Hb2].
  destruct (significand_bounds a Ha) as [_ Sa].
  destruct (significand_bounds b Hb) as [Sb _].
  cbv zeta in Sa, Sb.
  assert (Hle : (Qlog2 a <= Qlog2 b)%Z).
  { destruct (Z_le_gt_dec (Qlog2 a) (Qlog2 b)) as [H|H]; [exact H|exfalso].
    assert (Hp : Qpower 2 (Qlog2 b + 1) <= Qpower 2 (Qlog2 a)).
    { apply Qpower_le_compat_l; [lia|discriminate]. }
    lra. }
  destruct (Z.eq_dec (Qlog2 a) (Qlog2 b)) as [E|Hne].
  - rewrite E. pose proof (pow2_pos (Qlog2 b - 52)) as HP.
    apply Qmult_le_compat_r; [|lra].
    rewrite <- Zle_Qle. apply round_half_even_monotone.
    apply Qmult_le_compat_r; [lra|].
    apply Qlt_le_weak, Qinv_lt_0_compat, HP.
  - assert (Hp : Qpower 2 (Qlog2 a + 1) <= Qpower 2 (Qlog2 b)).
    { apply Qpower_le_compat_l; [lia|discriminate]. }
    lra.
Qed.

Lemma truncate_nonneg (x : Q) : 0 <= x -> truncate x = Qfloor x.
Proof.
  intros H0. unfold truncate.
  assert (Hx : (0 <= Qnum x)%Z) by (unfold Qle in H0; simpl in H0; lia).
  rewrite Z.quot_div_nonneg by lia. destruct x; reflexivity.
Qed.

Lemma binary64_nonneg (x : Q) : 0 <= x -> 0 <= binary64 x.
Proof.
  intros Hx. change 0 with (binary64 0) at 1.
  apply binary64_monotone; [lra|exact Hx].
Qed.

Lemma to_ms_monotone (u1 u2 : Z) :
  (0 <= u1 <= u2)%Z -> (clients._to_ms u1 <= clients._to_ms u2)%Z.
Proof.
  intros [H0 H12]. unfold clients._to_ms.
  assert (Hw : forall u : Z, (0 <= u)%Z -> 0 <= u # 1000000).
  { intros u Hu. unfold Qle. simpl. lia. }
  assert (H1 : binary64 (u1 # 1000000) <= binary64 (u2 # 1000000)).
  { apply binary64_monotone; [apply Hw, H0|]. unfold Qle. simpl. lia. }
  pose proof (binary64_nonneg _ (Hw u1 H0)) as Hn1.
  assert (H2 : binary64 (binary64 (u1 # 1000000) * 1000)
               <= binary64 (binary64 (u2 # 1000000) * 1000)).
  { apply binary64_monotone; lra. }
  rewrite !truncate_nonneg.
  - apply Qfloor_resp_le, H2.
  - apply binary64_nonneg. lra.
  - apply binary64_nonneg. lra.
Qed.

(** X18. [_ms_to_utc] is exact: for a millisecond count from the epoch up
    to the year 2096, the float division by [1_000] and the rounding of
    [fromtimestamp] give the instant of exactly that millisecond, which is
    the value that the normalizers are modelled with.  Read back by
    [_to_ms], the instant gives the millisecond or the one before it. *)
Theorem ms_to_utc_is_exact_and_reads_back (ms : Z) :
  (0 <= ms < 4000000000000)%Z ->
  normalizers._ms_to_utc_binary64 ms = (ms * 1000)%Z
  /\ normalizers._ms_to_utc (AInt ms) = Ok (normalizers._ms_to_utc_binary64 ms)
  /\ (ms - 1 <= clients._to_ms (normalizers._ms_to_utc_binary64 ms) <= ms)%Z.
Proof.
  intros Hms. pose proof (ms_to_utc_float_is_exact ms Hms) as E.
  split; [exact E|]. split; [rewrite E; reflexivity|].
  rewrite E.
  destruct (to_ms_loses_at_most_a_millisecond (ms * 1000)%Z ltac:(lia)) as [H _].
  rewrite Z.div_mul in H by lia. exact H.
Qed.

End Binary64.

(** ** The clients *)

Section ClientPipelines.

Lemma consume_one_page {A B C : Type} (parse : A -> Result B)
    (convert : B -> Result C) (request : Request) (batch : list A) :
  consume convert
    (match yield_each parse batch with
     | (xs, Some e) => mkRun xs [(request, Ok batch)] (Failed e)
     | (xs, None) => mkRun xs [(request, Ok batch)] Completed
     end)
  = Some (map_result (fun row => let* raw := parse row in convert raw) batch).
Proof.
  unfold consume. induction batch as [|row rest IH].
  - reflexivity.
  - cbn [yield_each map_result]. destruct (parse row) as [raw|e]; cbn [bind].
    + destruct (yield_each parse rest) as [xs [e|]] eqn:E;
        cbn [emitted outcome yield_each] in *;
        destruct (convert raw) as [c|e']; cbn [bind]; try reflexivity;
        destruct (yield_each convert xs) as [cs [e''|]];
        injection IH as <-; reflexivity.
    + reflexivity.
Qed.

Lemma recent_trades_pipeline (path : string)
    (trades : Client (list (gmap string Any))) (symbol : string) (limit : Z) :
  let request :=
    {| path := path;
       param_symbol := symbol;
       param_interval := None;
       startTime := None;
       endTime := None;
       limit := Some limit |} in
  consume (fun raw => normalizers.to_trade raw symbol)
    (connectors.fetch_trades path trades symbol limit)
  = Some (let* batch := trades request in
          map_result
            (fun row => let* raw := connectors._parse_rest_trade row in
                        normalizers.to_trade raw symbol) batch)
  /\ map fst (exchanges (connectors.fetch_trades path trades symbol limit))
     = [request].
Proof.
  cbv zeta. unfold connectors.fetch_trades.
  destruct (trades _) as [batch|e]; [|split; reflexivity].
  cbn [bind]. split; [apply consume_one_page|].
  destruct (yield_each connectors._parse_rest_trade batch) as [xs [e|]]; reflexivity.
Qed.

(** X19. The bar methods of the two clients are row-by-row pipelines over
    one response: [_recent_trades] sends one request, with the limit it
    was given, and returns the trades obtained by parsing and converting
    the rows in order, or raises the exception of the first row that fails
    (the laziness of the generator between the two steps changes nothing);
    [tick_bars], [volume_bars] and [dollar_bars] aggregate exactly these
    trades. *)
Theorem bar_methods_are_row_by_row_pipelines
    (trades : Client (list (gmap string Any))) (symbol : string) (limit : Z)
    (tick_thr : Z) (volume_thr dollar_thr : Decimal) :
  let request path :=
    {| path := path;
       param_symbol := symbol;
       param_interval := None;
       startTime := None;
       endTime := None;
       limit := Some limit |} in
  let pipeline path :=
    let* batch := trades (request path) in
    map_result
      (fun row => let* raw := connectors._parse_rest_trade row in
                  normalizers.to_trade raw symbol) batch in
  (BinanceClient._recent_trades trades symbol limit
   = Some (pipeline "/api/v3/trades")
   /\ map fst (exchanges (binance.fetch_trades trades symbol limit))
      = [request "/api/v3/trades"]
   /\ BinanceClient.tick_bars trades symbol tick_thr limit
      = Some (let* ts := pipeline "/api/v3/trades" in
              bars.build_tick_bars ts tick_thr)
   /\ BinanceClient.volume_bars trades symbol volume_thr limit
      = Some (let* ts := pipeline "/api/v3/trades" in
              bars.build_volume_bars ts volume_thr)
   /\ BinanceClient.dollar_bars trades symbol dollar_thr limit
      = Some (let* ts := pipeline "/api/v3/trades" in
              bars.build_dollar_bars ts dollar_thr))
  /\ (BinanceFuturesClient._recent_trades trades symbol limit
      = Some (pipeline "/fapi/v1/trades")
      /\ map fst (exchanges (binance_futures.fetch_trades trades symbol limit))
         = [request "/fapi/v1/trades"]
      /\ BinanceFuturesClient.tick_bars trades symbol tick_thr limit
         = Some (let* ts := pipeline "/fapi/v1/trades" in
                 bars.build_tick_bars ts tick_thr)
      /\ BinanceFuturesClient.volume_bars trades symbol volume_thr limit
         = Some (let* ts := pipeline "/fapi/v1/trades" in
                 bars.build_volume_bars ts volume_thr)
      /\ BinanceFuturesClient.dollar_bars trades symbol dollar_thr limit
         = Some (let* ts := pipeline "/fapi/v1/trades" in
                 bars.build_dollar_bars ts dollar_thr)).
Proof.
  cbv zeta. split.
  - destruct (recent_trades_pipeline "/api/v3/trades" trades symbol limit) as [H1 H2].
    unfold BinanceClient.tick_bars, BinanceClient.volume_bars,
      BinanceClient.dollar_bars, BinanceClient._recent_trades, binance.fetch_trades.
    rewrite H1. repeat split; try reflexivity. exact H2.
  - destruct (recent_trades_pipeline "/fapi/v1/trades" trades symbol limit) as [H1 H2].
    unfold BinanceFuturesClient.tick_bars, BinanceFuturesClient.volume_bars,
      BinanceFuturesClient.dollar_bars, BinanceFuturesClient._recent_trades,
      binance_futures.fetch_trades.
    rewrite H1. repeat split; try reflexivity. exact H2.
Qed.

(** X20. [time_bars] with an end that is not after the start returns the
    empty list and sends no request: [_to_ms] is monotone, so the range
    that reaches [fetch_klines] is empty as well. *)
Theorem time_bars_of_an_empty_range (klines : Client (list (list Any)))
    (fuel : nat) (symbol : string) (interval : KlineInterval)
    (start end_ : datetime) :
  0 <= end_ <= start ->
  BinanceClient.time_bars klines (S fuel) symbol interval start end_ = Some (Ok [])
  /\ exchanges (binance.fetch_klines klines (S fuel) symbol interval
                  (clients._to_ms start) (clients._to_ms end_)) = []
  /\ BinanceFuturesClient.time_bars klines (S fuel) symbol interval start end_
     = Some (Ok [])
  /\ exchanges (binance_futures.fetch_klines klines (S fuel) symbol interval
                  (clients._to_ms start) (clients._to_ms end_)) = [].
Proof.
  intros Hrange. pose proof (to_ms_monotone end_ start Hrange) as Hms.
  unfold BinanceClient.time_bars, BinanceFuturesClient.time_bars,
    binance.fetch_klines, binance_futures.fetch_klines, connectors.fetch_klines.
  cbn [connectors.klines_loop].
  destruct (Z.ltb_spec (clients._to_ms start) (clients._to_ms end_)); [lia|].
  repeat split.
Qed.

Lemma consume_returns {A B Body : Type} (convert : A -> Result B)
    (run : Run A Body) (out : list B) :
  consume convert run = Some (Ok out) ->
  outcome run = Completed
  /\ Forall2 (fun raw x => convert raw = Ok x) (emitted run) out.
Proof.
  unfold consume. destruct (yield_each convert (emitted run)) as [xs [e|]] eqn:E;
    [discriminate|].
  destruct (outcome run); try discriminate. intros [= <-]. split; [reflexivity|].
  destruct (yield_each_prefix _ _ _ _ E) as (Hall & _ & Hlen & _).
  rewrite (Hlen eq_refl), firstn_all in Hall. exact Hall.
Qed.

Lemma Forall2_compose {A B C : Type} (P : A -> B -> Prop) (Q : B -> C -> Prop)
    (l : list A) (m : list B) (n : list C) :
  Forall2 P l m -> Forall2 Q m n ->
  Forall2 (fun x z => exists y, P x y /\ Q y z) l n.
Proof.
  intros H. revert n. induction H as [|x y l m Hxy _ IH]; intros n Hn.
  - inversion Hn. constructor.
  - inversion Hn as [|? z ? n' Hyz Hrest]; subst.
    constructor; [eauto|apply IH, Hrest].
Qed.

(** X21. When [time_bars] returns, the bars are the rows received from the
    exchange, each parsed and converted, in the order received: one bar per
    row, none left out. *)
Theorem time_bars_convert_every_row_received (klines : Client (list (list Any)))
    (fuel : nat) (symbol : string) (interval : KlineInterval)
    (start end_ : datetime) (out : list TimeBar) :
  BinanceClient.time_bars klines fuel symbol interval start end_ = Some (Ok out) ->
  let run :=
    binance.fetch_klines klines fuel symbol interval
      (clients._to_ms start) (clients._to_ms end_) in
  outcome run = Completed
  /\ Forall2
       (fun row bar =>
          exists raw, binance._parse_rest_kline row = Ok raw
                      /\ normalizers.to_time_bar raw symbol interval = Ok bar)
       (rows_received (exchanges run)) out.
Proof.
  intros H run. apply consume_returns in H as [Hc Hconv]. fold run in Hc, Hconv.
  split; [exact Hc|].
  destruct (loop_rows "/api/v3/klines" 1000 ltac:(lia) klines symbol interval
              (clients._to_ms end_) fuel (clients._to_ms start)) as (H1 & H2 & _).
  change (connectors.klines_loop "/api/v3/klines" 1000 klines fuel symbol interval
            (clients._to_ms end_) (clients._to_ms start)) with run in H1, H2.
  rewrite (H2 Hc), firstn_all in H1.
  exact (Forall2_compose _ _ _ _ _ H1 Hconv).
Qed.

End ClientPipelines.

(** ** The Lighter broker *)

Section FixedPoint.

Local Open Scope Q_scope.

Lemma truncate_comp (x y : Q) : x == y -> truncate x = truncate y.
Proof.
  unfold Qeq, truncate. intros E.
  rewrite <- (Z.quot_mul_cancel_r (Qnum x) (Zpos (Qden x)) (Zpos (Qden y)))
    by discriminate.
  rewrite E, (Z.mul_comm (Zpos (Qden x))).
  apply Z.quot_mul_cancel_r; discriminate.
Qed.

Lemma truncate_opp (x : Q) : truncate (- x) = (- truncate x)%Z.
Proof. unfold truncate. destruct x. simpl. apply Z.quot_opp_l. discriminate. Qed.

(** Truncation moves toward zero, by less than one. *)
Lemma truncate_toward_zero (x : Q) :
  Qabs (inject_Z (truncate x)) <= Qabs x
  /\ Qabs (x - inject_Z (truncate x)) < 1.
Proof.
  assert (Hpos : forall y, 0 <= y ->
            Qabs (inject_Z (truncate y)) <= Qabs y
            /\ Qabs (y - inject_Z (truncate y)) < 1).
  { intros y Hy. rewrite (truncate_nonneg y Hy).
    pose proof (Qfloor_le y) as H1. pose proof (Qlt_floor y) as H2.
    rewrite inject_Z_plus in H2. change (inject_Z 1) with 1 in H2.
    assert (H0 : 0 <= inject_Z (Qfloor y)).
    { change 0 with (inject_Z 0). rewrite <- Zle_Qle.
      exact (Qfloor_resp_le _ _ Hy). }
    rewrite (Qabs_pos _ H0), (Qabs_pos _ Hy). split; [exact H1|].
    apply Qabs_Qlt_condition. split; lra. }
  destruct (Qlt_le_dec x 0) as [Hneg|Hnn]; [|apply Hpos, Hnn].
  destruct (Hpos (- x)) as [H1 H2]; [lra|].
  rewrite truncate_opp, inject_Z_opp in H1, H2.
  rewrite !Qabs_opp in H1. split; [exact H1|].
  apply Qabs_Qlt_condition. apply Qabs_Qlt_condition in H2. split; lra.
Qed.

Lemma Dval_shape (d : Decimal) :
  Dval d == (if (0 <=? d_exp d)%Z then inject_Z (signed d * 10 ^ d_exp d)
             else signed d # Z.to_pos (10 ^ (- d_exp d))).
Proof.
  unfold Dval. destruct (Z.leb_spec 0 (d_exp d)) as [H|H].
  - rewrite inject_Z_mult. apply Qmult_comp; [reflexivity|].
    symmetry. apply (Qpower.Zpower_Qpower 10). exact H.
  - assert (Hk : (0 < - d_exp d)%Z) by lia.
    replace (d_exp d) with (- (- d_exp d))%Z at 1 by lia.
    rewrite Qpower_opp.
    pose proof (Z.pow_pos_nonneg 10 (- d_exp d) ltac:(lia) ltac:(lia)) as Hp.
    rewrite (Qmake_Qdiv (signed d)), Z2Pos.id by exact Hp.
    unfold Qdiv. apply Qmult_comp; [reflexivity|]. apply Qinv_comp.
    symmetry. apply (Qpower.Zpower_Qpower 10). lia.
Qed.

(** [int] of a decimal truncates the number that it denotes. *)
Lemma Decimal_int_truncates (d : Decimal) : Decimal_int d = truncate (Dval d).
Proof.
  rewrite (truncate_comp _ _ (Dval_shape d)). unfold Decimal_int.
  destruct (Z.leb_spec 0 (d_exp d)) as [H|H].
  - symmetry. apply truncate_Z. reflexivity.
  - unfold truncate. simpl.
    rewrite Z2Pos.id; [reflexivity|]. apply Z.pow_pos_nonneg; lia.
Qed.

End FixedPoint.

Section FixedPointEncoding.

Local Open Scope Q_scope.

(** X22. [_to_int] drops the fraction of the scaled value: for a product
    that the decimal context does not round, the integer sent to the
    exchange is the scaled value truncated toward zero.  It is never larger
    in magnitude than the scaled value and differs from it by less than one
    unit. *)
Theorem to_int_truncates_toward_zero (value : Decimal) (scale : Z) :
  fits_context (Dmul value (Decimal_of_int scale)) = true ->
  let exact := Dval value * inject_Z scale in
  lighter._to_int value scale = truncate exact
  /\ Qabs (inject_Z (lighter._to_int value scale)) <= Qabs exact
  /\ Qabs (exact - inject_Z (lighter._to_int value scale)) < 1.
Proof.
  intros _ exact.
  assert (E : lighter._to_int value scale = truncate exact).
  { unfold lighter._to_int. rewrite Decimal_int_truncates.
    apply truncate_comp. rewrite Dval_mul. unfold exact, Decimal_of_int.
    rewrite Dval_of_signed. change (10 ^ 0) with 1. rewrite Qmult_1_r.
    reflexivity. }
  rewrite E. split; [reflexivity|]. apply truncate_toward_zero.
Qed.

End FixedPointEncoding.

Section OrderIds.

Import execution.



Lemma digits_start (n : N) :
  exists c r, digits_of_N n = String c r /\ is_digit c = true.
Proof.
  pose proof (digits_only_digits_of_N n) as H.
  pose proof (digits_of_N_nonempty n) as Hne.
  destruct (digits_of_N n) as [|c r]; [congruence|].
  simpl in H. apply andb_prop in H as [Hc _]. eauto.
Qed.

Lemma clean_Z_str (z : Z) : clean (Z_str z) = true.
Proof.
  unfold Z_str. destruct (z <? 0).
  - rewrite string_app_cons, string_app_nil_l. simpl.
    apply digits_clean, digits_only_digits_of_N.
  - apply digits_clean, digits_only_digits_of_N.
Qed.

Lemma strip_clean (s : string) : clean s = true -> strip s = s.
Proof.
  intros H. unfold strip. rewrite (clean_lstrip s H). apply clean_rstrip, H.
Qed.





Lemma int_digits_stop_at_colon (ds rest : string) (after_digit : bool) :
  digits_only ds = true ->
  int_digits (ds ++ String ":" rest) after_digit = None.
Proof.
  revert after_digit. induction ds as [|c r IH]; intros after_digit.
  - intros _. simpl. reflexivity.
  - simpl. intros [Hc Hr]%andb_prop. rewrite Hc, (IH true Hr). reflexivity.
Qed.

Lemma colon_is_clean (rest : string) :
  clean rest = true -> clean (String ":" rest) = true.
Proof. intros H. simpl. exact H. Qed.

(** A text of the form [m:i] is not the text of an integer. *)
Lemma int_of_str_order_id (m i : Z) :
  int_of_str (Z_str m ++ String ":" (Z_str i)) = None.
Proof.
  unfold int_of_str. rewrite strip_clean.
  2:{ rewrite clean_app, clean_Z_str. apply colon_is_clean, clean_Z_str. }
  unfold Z_str at 1. destruct (m <? 0).
  - rewrite !string_app_cons, !string_app_nil_l. cbn [split_sign].
    rewrite int_digits_stop_at_colon by apply digits_only_digits_of_N.
    reflexivity.
  - destruct (digits_start (Z.to_N m)) as (c & r & E & Hc).
    rewrite E, string_app_cons, (split_sign_digit c _ Hc), <- string_app_cons, <- E.
    rewrite int_digits_stop_at_colon by apply digits_only_digits_of_N.
    reflexivity.
Qed.

Lemma order_id_not_empty (m i : Z) :
  String.eqb (Z_str m ++ String ":" (Z_str i)) "" = false.
Proof.
  destruct (Z_str m ++ String ":" (Z_str i))%string eqn:E; [|reflexivity].
  exfalso. destruct (Z_str m); discriminate.
Qed.


Lemma int_str_returns (n : Z) (text : string) :
  int_str n = Ok text -> text = Z_str n.
Proof.
  unfold int_str. destruct (10 ^ 4300 <=? Z.abs n); congruence.
Qed.

(** What [_to_perp_order] returns carries the two indices of the order in
    its id. *)
Lemma to_perp_order_id (raw : lighter_sdk.Order) (sym : string)
    (price_scale base_scale : Z) (o : PerpOrder) :
  lighter._to_perp_order raw sym price_scale base_scale = Ok o ->
  symbol o = sym
  /\ client_order_id o
     = Some (Z_str (lighter_sdk.market_index raw) ++ ":"
             ++ Z_str (lighter_sdk.order_index raw))%string.
Proof.
  unfold lighter._to_perp_order. intros H.
  destruct (Decimal_of_str (lighter_sdk.trigger_price raw)); cbn [bind] in H;
    [|discriminate].
  destruct (Decimal_of_str (lighter_sdk.initial_base_amount raw));
    cbn [bind] in H; [|discriminate].
  destruct (Decimal_of_str (lighter_sdk.price raw)); cbn [bind] in H;
    [|discriminate].
  destruct (int_str (lighter_sdk.market_index raw)) as [ms|] eqn:Em;
    cbn [bind] in H; [|discriminate].
  destruct (int_str (lighter_sdk.order_index raw)) as [is_|] eqn:Ei;
    cbn [bind] in H; [|discriminate].
  apply int_str_returns in Em, Ei. subst ms is_.
  injection H as <-. split; reflexivity.
Qed.

Lemma map_result_returns {A B : Type} (f : A -> Result B) (l : list A)
    (ys : list B) :
  map_result f l = Ok ys -> Forall2 (fun x y => f x = Ok y) l ys.
Proof.
  revert ys. induction l as [|x rest IH]; intros ys H; simpl in H.
  - injection H as <-. constructor.
  - destruct (f x) as [y|] eqn:Ex; cbn [bind] in H; [|discriminate].
    destruct (map_result f rest) as [ys'|]; cbn [bind] in H; [|discriminate].
    injection H as <-. constructor; [exact Ex|]. apply IH. reflexivity.
Qed.

Lemma Forall2_sources {A B : Type} (P : A -> B -> Prop) (l : list A)
    (ys : list B) :
  Forall2 P l ys -> Forall (fun y => exists x, In x l /\ P x y) ys.
Proof.
  induction 1 as [|x y l ys Hxy _ IH]; constructor.
  - exists x. split; [left; reflexivity|exact Hxy].
  - eapply Forall_impl; [exact IH|].
    intros y' (x' & Hin & Hp). exists x'. split; [right; exact Hin|exact Hp].
Qed.

Section Broker.

Variable self : lighter.LighterBroker.

(** The orders that [open_orders] returns are conversions of orders that
    the exchange lists for the account. *)
Lemma orders_of_listed (markets : list (string * Z)) (orders : list PerpOrder) :
  lighter.orders_of self markets = Ok orders ->
  Forall (fun o => exists sym market_index raw,
            In (sym, market_index) markets
            /\ In raw (lighter_sdk.account_active_orders (lighter._order_api self)
                         (lighter._account_index self) market_index)
            /\ lighter._to_perp_order raw sym (lighter._price_scale self)
                 (lighter._base_scale self) = Ok o) orders.
Proof.
  revert orders. induction markets as [|[sym m] rest IH]; intros orders H.
  - simpl in H. injection H as <-. constructor.
  - cbn [lighter.orders_of] in H.
    destruct (map_result _ _) as [here|] eqn:Eh; cbn [bind] in H; [|discriminate].
    destruct (lighter.orders_of self rest) as [later|] eqn:El; cbn [bind] in H;
      [|discriminate].
    injection H as <-. apply Forall_app. split.
    + apply map_result_returns, Forall2_sources in Eh.
      eapply Forall_impl; [exact Eh|].
      intros o' (raw & Hraw & Hc). exists sym, m, raw.
      split; [left; reflexivity|]. split; assumption.
    + specialize (IH later eq_refl). eapply Forall_impl; [exact IH|].
      intros o' (s' & m' & raw' & Hin & Hraw & Hc).
      exists s', m', raw'. split; [right; exact Hin|]. split; assumption.
Qed.

Lemma items_get_In {A : Type} (items : list (string * A)) (key : string)
    (v : A) :
  items_get items key = Some v -> In (key, v) items.
Proof.
  induction items as [|[k w] rest IH]; [discriminate|]. simpl.
  destruct (String.eqb_spec k key) as [->|_].
  - intros [= ->]. left. reflexivity.
  - intros H. right. apply IH, H.
Qed.

Lemma open_orders_listed (symbol : option string) (orders : list PerpOrder) :
  lighter.open_orders self symbol = Ok orders ->
  Forall (fun o => exists sym market_index raw,
            In (sym, market_index) (lighter._symbol_map self)
            /\ In raw (lighter_sdk.account_active_orders (lighter._order_api self)
                         (lighter._account_index self) market_index)
            /\ lighter._to_perp_order raw sym (lighter._price_scale self)
                 (lighter._base_scale self) = Ok o) orders.
Proof.
  unfold lighter.open_orders. destruct symbol as [s|]; cbn [bind].
  - unfold lighter._resolve.
    destruct (items_get (lighter._symbol_map self) s) as [m|] eqn:Es;
      cbn [bind]; [|discriminate].
    intros H. apply orders_of_listed in H.
    eapply Forall_impl; [exact H|].
    intros o (sym & m' & raw & [[= <- <-]|[]] & Hraw & Hc).
    exists s, m, raw. split; [apply items_get_In, Es|]. split; assumption.
  - apply orders_of_listed.
Qed.

Lemma result_of_exclusive (reply : lighter_sdk.Reply) (order : option AnyOrder) :
  let r := lighter.result_of reply order in
  execution.order r = order /\ (error r = None \/ order_id r = None).
Proof.
  unfold lighter.result_of. destruct (lighter_sdk.err reply) as [e|].
  - destruct (String.eqb e ""); cbn; auto.
  - cbn. auto.
Qed.


(** X24. [cancel_order] never raises.  It sends at most one transaction, a
    cancellation, and then returns the result of the signer's reply; for an
    id that it cannot read it sends nothing and returns a failed result that
    quotes the id.  An id without a colon, such as the transaction hash that
    [place_order] returns, is one that it cannot read.  No result has both
    an error and an id. *)
Theorem cancel_order_never_raises (id : string) :
  exists r,
    snd (lighter.cancel_order self id) = Ok r
    /\ execution.order r = None
    /\ (error r = None \/ order_id r = None)
    /\ match fst (lighter.cancel_order self id) with
       | [] => error r = Some (InvalidOrderIdFormat id) /\ ok r = false
       | [tx] =>
           (exists market_index order_index,
              tx = lighter_sdk.cancel_order market_index order_index)
           /\ r = lighter.result_of (lighter_sdk.send (lighter._signer self) tx) None
       | _ => False
       end
    /\ (split_once ":" id = None -> fst (lighter.cancel_order self id) = []).
Proof.
  unfold lighter.cancel_order, lighter.parse_order_id.
  destruct (split_once ":" id) as [[market_str index_str]|].
  - unfold py_int.
    destruct (int_of_str market_str) as [m|]; cbn [bind].
    + destruct (int_of_str index_str) as [i|]; cbn [bind].
      * eexists. split; [reflexivity|].
        pose proof (result_of_exclusive
                      (lighter_sdk.send (lighter._signer self)
                         (lighter_sdk.cancel_order m i)) None) as [H1 H2].
        split; [exact H1|]. split; [exact H2|]. cbn [fst].
        split; [|discriminate]. split; [eauto|reflexivity].
      * eexists. split; [reflexivity|]. cbn. intuition congruence.
    + eexists. split; [reflexivity|]. cbn. intuition congruence.
  - eexists. split; [reflexivity|]. cbn. intuition congruence.
Qed.



(** X26. An order that [open_orders] returns cannot be placed again as it
    is: its id has the form [m:i], which is not the text of an integer, so
    [place_order] raises [ValueError] and sends nothing. *)
Theorem listed_orders_cannot_be_placed_again (symbol : option string)
    (orders : list PerpOrder) :
  lighter.open_orders self symbol = Ok orders ->
  Forall (fun o : PerpOrder =>
            lighter.place_order self (IsPerpOrder o) = ([], Raise ValueError))
         orders.
Proof.
  intros H. apply open_orders_listed in H.
  eapply Forall_impl; [exact H|].
  intros o (sym & m & raw & _ & _ & Hc).
  apply to_perp_order_id in Hc as [_ Hid].
  unfold lighter.place_order, lighter._resolve.
  destruct (items_get (lighter._symbol_map self) (execution.symbol o));
    cbn [bind]; [|reflexivity].
  rewrite Hid.
  change (":" ++ Z_str (lighter_sdk.order_index raw))%string
    with (String ":" (Z_str (lighter_sdk.order_index raw))).
  rewrite order_id_not_empty. unfold py_int. rewrite int_of_str_order_id.
  reflexivity.
Qed.

(** X27. A symbol that is not in the symbol map is refused with
    [ValueError] by every method that takes one: [place_order] (which then
    sends nothing), [open_orders], [position], [best_bid] and [best_ask]. *)
Theorem unknown_symbols_are_refused (s : string) :
  items_get (lighter._symbol_map self) s = None ->
  (forall o : PerpOrder,
     symbol o = s ->
     lighter.place_order self (IsPerpOrder o) = ([], Raise ValueError))
  /\ lighter.open_orders self (Some s) = Raise ValueError
  /\ lighter.position self s = Raise ValueError
  /\ lighter.best_bid self s = Raise ValueError
  /\ lighter.best_ask self s = Raise ValueError.
Proof.
  intros Hs.
  unfold lighter.place_order, lighter.open_orders, lighter.position,
    lighter.best_bid, lighter.best_ask, lighter._resolve.
  rewrite Hs. cbn [bind]. split; [|repeat split].
  intros o ->. rewrite Hs. reflexivity.
Qed.

End Broker.

End OrderIds.

(** ** Instances *)

Section FurtherInstances.

Import bars connectors.





Lemma one_kline_progress (req : Request) (cursor : Z) (batch : list (list Any))
    (row : list Any) (k : RawKline.t) :
  one_kline req = Ok batch ->
  startTime req = Some cursor ->
  last batch = Some row ->
  connectors._parse_rest_kline row = Ok k ->
  cursor <= RawKline.close_time_ms k.
Proof.
  unfold one_kline. intros Hb Hs Hl Hp. rewrite Hs in Hb.
  destruct (Z.leb_spec cursor 0); injection Hb as <-; [|discriminate].
  injection Hl as <-. vm_compute in Hp. injection Hp as <-. simpl. lia.
Qed.

Lemma fetch_klines_terminates_witness :
  (Z.to_nat (20 - 0) < 30)%nat
  /\ (length (exchanges (binance.fetch_klines one_kline 30 "BTCUSDT" M1 0 20))
      <= Z.to_nat (20 - 0))%nat.
Proof.
  assert (H : (Z.to_nat (20 - 0) < 30)%nat) by (simpl; lia).
  split; [exact H|].
  exact (proj2 (proj1 (fetch_klines_terminates one_kline 30 "BTCUSDT" M1 0 20
                         one_kline_progress H))).
Defined.

Lemma one_funding_record_progress (req : Request) (cursor : Z)
    (batch : list (gmap string Any)) (row : gmap string Any)
    (r : RawFundingRate.t) :
  one_funding_record req = Ok batch ->
  startTime req = Some cursor ->
  last batch = Some row ->
  binance_futures._parse_funding_rate row = Ok r ->
  cursor <= RawFundingRate.funding_time_ms r <= 100.
Proof.
  unfold one_funding_record. intros Hb Hs Hl Hp. rewrite Hs in Hb.
  destruct (Z.leb_spec cursor 100); injection Hb as <-; [|discriminate].
  injection Hl as <-. vm_compute in Hp. injection Hp as <-. simpl. lia.
Qed.

Lemma fetch_funding_rates_terminates_witness :
  (Z.to_nat (100 + 1 - 0) < 200)%nat
  /\ (length (exchanges (binance_futures.fetch_funding_rates one_funding_record
                           200 "BTCUSDT" 0 None))
      <= S (Z.to_nat (100 + 1 - 0)))%nat.
Proof.
  assert (H : (Z.to_nat (100 + 1 - 0) < 200)%nat) by (simpl; lia).
  split; [exact H|].
  exact (proj2 (fetch_funding_rates_terminates one_funding_record 200 "BTCUSDT"
                  0 None 100 one_funding_record_progress H)).
Defined.

Lemma ws_trade_quote_is_the_exact_product_witness :
  exists raw quote,
    binance._parse_ws_trade ws_trade_message = Ok raw
    /\ fits_context (Dmul (mkDecimal false 100000 (-8)) (mkDecimal false 1005 (-1)))
       = true
    /\ Decimal_ (RawTrade.quote_qty raw) = Ok quote
    /\ (Dval quote
        == Dval (mkDecimal false 100000 (-8)) * Dval (mkDecimal false 1005 (-1)))%Q.
Proof.
  destruct (binance._parse_ws_trade ws_trade_message) as [raw|e] eqn:E;
    [|vm_compute in E; discriminate].
  destruct (ws_trade_quote_is_the_exact_product ws_trade_message raw E)
    as (p & q & _ & _ & Hp & Hq & Hquote).
  vm_compute in E. injection E as <-.
  vm_compute in Hp, Hq. injection Hp as <-. injection Hq as <-.
  destruct (Hquote eq_refl) as (quote & H1 & H2).
  eexists _, quote. split; [reflexivity|]. split; [reflexivity|].
  split; [exact H1|exact H2].
Defined.

Lemma to_ms_is_exact_on_whole_seconds_witness :
  Z.abs 1700000000 <= 9000000000000
  /\ clients._to_ms (1700000000 * 1000000) = 1700000000 * 1000.
Proof.
  assert (H : Z.abs 1700000000 <= 9000000000000) by (simpl; lia).
  split; [exact H|]. exact (to_ms_is_exact_on_whole_seconds 1700000000 H).
Defined.

Lemma to_ms_loses_at_most_a_millisecond_witness :
  0 <= 1001000 < 4000000000000000
  /\ 1001000 / 1000 - 1 <= clients._to_ms 1001000 <= 1001000 / 1000.
Proof.
  assert (H : 0 <= 1001000 < 4000000000000000) by lia.
  split; [exact H|]. exact (proj1 (to_ms_loses_at_most_a_millisecond 1001000 H)).
Defined.

Lemma ms_to_utc_is_exact_and_reads_back_witness :
  0 <= 1700000000123 < 4000000000000
  /\ normalizers._ms_to_utc_binary64 1700000000123 = 1700000000123 * 1000.
Proof.
  assert (H : 0 <= 1700000000123 < 4000000000000) by lia.
  split; [exact H|].
  exact (proj1 (ms_to_utc_is_exact_and_reads_back 1700000000123 H)).
Defined.

Lemma time_bars_of_an_empty_range_witness :
  0 <= 5000000 <= 10000000
  /\ BinanceClient.time_bars one_kline 3 "BTCUSDT" M1 10000000 5000000
     = Some (Ok []).
Proof.
  assert (H : 0 <= 5000000 <= 10000000) by lia.
  split; [exact H|].
  exact (proj1 (time_bars_of_an_empty_range one_kline 2 "BTCUSDT" M1
                  10000000 5000000 H)).
Defined.

Lemma time_bars_convert_every_row_received_witness :
  exists out,
    BinanceClient.time_bars one_kline 3 "BTCUSDT" M1 0 1000000 = Some (Ok out)
    /\ outcome (binance.fetch_klines one_kline 3 "BTCUSDT" M1
                  (clients._to_ms 0) (clients._to_ms 1000000)) = Completed.
Proof.
  destruct (BinanceClient.time_bars one_kline 3 "BTCUSDT" M1 0 1000000)
    as [[out|e]|] eqn:E; [|vm_compute in E; discriminate..].
  exists out. split; [reflexivity|].
  exact (proj1 (time_bars_convert_every_row_received one_kline 3 "BTCUSDT" M1
                  0 1000000 out E)).
Defined.

(** The tick bars of the client, end to end: seven recent trades and a
    threshold of three give two bars, and the seventh trade is left out. *)
Example tick_bars_of_seven_recent_trades :
  exists first second,
    BinanceClient.tick_bars seven_recent_trades "BTCUSDT" 3 1000
    = Some (Ok [first; second])
    /\ bar_trade_count (tick_bar first) = 3
    /\ bar_trade_count (tick_bar second) = 3.
Proof. eexists _, _. split; [vm_compute; reflexivity|]. split; reflexivity. Qed.

End FurtherInstances.

Section BrokerInstances.

Import execution.

(** The price of the docstring: with two price decimals, [2500.50] is sent
    as [250050]. *)
Lemma to_int_truncates_toward_zero_witness :
  fits_context (Dmul (mkDecimal false 250050 (-2)) (Decimal_of_int 100)) = true
  /\ lighter._to_int (mkDecimal false 250050 (-2)) 100
     = truncate (Dval (mkDecimal false 250050 (-2)) * inject_Z 100).
Proof.
  split; [reflexivity|].
  exact (proj1 (to_int_truncates_toward_zero (mkDecimal false 250050 (-2)) 100
                  eq_refl)).
Defined.


Lemma listed_orders_cannot_be_placed_again_witness :
  exists orders,
    lighter.open_orders sample_broker None = Ok orders
    /\ Forall (fun o : PerpOrder =>
                 lighter.place_order sample_broker (IsPerpOrder o)
                 = ([], Raise ValueError)) orders.
Proof.
  destruct (lighter.open_orders sample_broker None) as [orders|e] eqn:E;
    [|vm_compute in E; discriminate].
  exists orders. split; [reflexivity|].
  exact (listed_orders_cannot_be_placed_again sample_broker None orders E).
Defined.

Lemma unknown_symbols_are_refused_witness :
  items_get (lighter._symbol_map sample_broker) "BTC-USDC" = None
  /\ lighter.position sample_broker "BTC-USDC" = Raise ValueError.
Proof.
  split; [reflexivity|].
  exact (proj1 (proj2 (proj2 (unknown_symbols_are_refused sample_broker
                                "BTC-USDC" eq_refl)))).
Defined.

(** The order of the docstring, placed: one transaction for market 1, with
    the quantity 0.1 sent as 10000000 and the price 2500.00 as 250000, and a
    result with the transaction hash as its id. *)
Example place_docstring_order :
  lighter.place_order sample_broker (IsPerpOrder docstring_order)
  = ([lighter_sdk.create_order 1 0 10000000 250000 false 0 1 false 0 (-1)],
     Ok {| order_id := Some "0xabc";
           order := Some (IsPerpOrder docstring_order);
           error := None |}).
Proof. vm_compute. reflexivity. Qed.

(** The order that the exchange lists, as [open_orders] returns it, and the
    cancellation that its id leads to. *)
Example cancel_listed_order :
  (exists o, lighter.open_orders sample_broker None = Ok [o]
             /\ client_order_id o = Some "1:42")
  /\ fst (lighter.cancel_order sample_broker "1:42")
     = [lighter_sdk.cancel_order 1 42].
Proof. split; [eexists; split; vm_compute; reflexivity|vm_compute; reflexivity]. Qed.

End BrokerInstances.
